(** * Generic Excel Processor: a shallow embedding of [Generic-Excel-Processor.py]

    The development follows the source file top to bottom:

    - [PyStr]: Python [str] values as lists of Unicode code points, with the
      string methods the program calls ([lower], [upper], [strip], [replace],
      [in], [re.sub(r'\s+', ' ', _)], [re.search(r'(\d+)', _)]);
    - [PyExn]: the exceptions the program can raise, and the outcome of a
      call;
    - [PyNum]: Python numbers ([int] and [float]) with [str], [int(_)],
      [float(_)] and the two format specifications used by the report;
    - [Pandas]: the few pandas operations the program relies on ([pd.isna],
      [pd.to_numeric(_, errors='coerce')], label lookup in a row, [dropna],
      [groupby], [idxmin]/[idxmax], [sort_values]);
    - [Processor]: the functions of the source, under their own names;
    - the theorems about them. *)

From Stdlib Require Import ZArith NArith List Bool String Ascii Lia.
From Stdlib Require Import Sorting.Sorted Permutation.
Import ListNotations.

Local Open Scope Z_scope.

(* ====================================================================== *)
(** ** Python strings *)
(* ====================================================================== *)

Module PyStr.

(** A Python [str] is a sequence of Unicode code points. *)
Definition pystr := list N.

(** Decoder for the UTF-8 bytes of a Rocq string literal, so that the
    constants of the source can be written as they appear there. *)
Fixpoint utf8_go (need : nat) (acc : N) (s : string) : pystr :=
  match s with
  | EmptyString => []
  | String a t =>
      let b := N_of_ascii a in
      match need with
      | O =>
          if (b <? 128)%N then b :: utf8_go 0 0 t
          else if (b <? 224)%N then utf8_go 1 (b - 192) t
          else if (b <? 240)%N then utf8_go 2 (b - 224) t
          else utf8_go 3 (b - 240) t
      | S O => (acc * 64 + (b - 128))%N :: utf8_go 0 0 t
      | S n => utf8_go n (acc * 64 + (b - 128))%N t
      end
  end.

Definition u (s : string) : pystr := utf8_go 0 0 s.

Definition str_eqb (a b : pystr) : bool :=
  if list_eq_dec N.eq_dec a b then true else false.

(** [c.isspace()]: the code points Python treats as whitespace, the same set
    for [str.strip()] and for [\s] in a [str] pattern. *)
Definition isspace (c : N) : bool :=
  ((9 <=? c) && (c <=? 13) || (28 <=? c) && (c <=? 32)
   || (c =? 133) || (c =? 160) || (c =? 5760)
   || (8192 <=? c) && (c <=? 8202)
   || (c =? 8232) || (c =? 8233) || (c =? 8239) || (c =? 8287)
   || (c =? 12288))%N.

(** ASCII decimal digit: the digits of [str(z)], of the text [float] and
    [int] parse once they have mapped the other decimal digits to these, and
    of pandas' number scanner. *)
Definition isdigit (c : N) : bool := ((48 <=? c) && (c <=? 57))%N.

(** The decimal digits of Unicode 14.0 (category Nd) come in runs of ten,
    0 to 9; these are the zeros of the runs. *)
Definition decimal_zeros : list N :=
  [48; 1632; 1776; 1984; 2406; 2534; 2662; 2790; 2918; 3046; 3174; 3302;
   3430; 3558; 3664; 3792; 3872; 4160; 4240; 6112; 6160; 6470; 6608; 6784;
   6800; 6992; 7088; 7232; 7248; 42528; 43216; 43264; 43472; 43504; 43600;
   44016; 65296; 66720; 68912; 69734; 69872; 69942; 70096; 70384; 70736;
   70864; 71248; 71360; 71472; 71904; 72016; 72784; 73040; 73120; 92768;
   92864; 93008; 120782; 120792; 120802; 120812; 120822; 123200; 123632;
   125264; 130032]%N.

(** [unicodedata.decimal(c)]: the value of a decimal digit. *)
Definition decimal_value (c : N) : option N :=
  match find (fun z => (z <=? c) && (c <=? z + 9))%N decimal_zeros with
  | Some z => Some (c - z)%N
  | None => None
  end.

(** [c.isdecimal()], which is also what [\d] matches in a [str] pattern. *)
Definition isdecimal (c : N) : bool :=
  match decimal_value c with Some _ => true | None => false end.

(** ASCII whitespace (C's [isspace]): what [float] skips at the two ends of
    its text, and the only kind pandas' number scanner skips. *)
Definition isspace_ascii (c : N) : bool :=
  ((c =? 32) || (9 <=? c) && (c <=? 13))%N.

Definition even_cp (c : N) : bool := N.even c.

(** [str.lower()] code point by code point, on Basic Latin, Latin-1 and
    Cyrillic (U+0400..U+04BF).  Code points outside these blocks are left
    unchanged. *)
Definition lower_cp (c : N) : N :=
  (if (65 <=? c) && (c <=? 90) then c + 32
   else if (192 <=? c) && (c <=? 222) && negb (c =? 215) then c + 32
   else if (1024 <=? c) && (c <=? 1039) then c + 80
   else if (1040 <=? c) && (c <=? 1071) then c + 32
   else if (1120 <=? c) && (c <=? 1153) && even_cp c then c + 1
   else if (1162 <=? c) && (c <=? 1215) && even_cp c then c + 1
   else c)%N.

(** [str.upper()] on the same blocks; U+00DF, U+00B5 and U+00FF have
    upper-case forms outside Latin-1. *)
Definition upper_cp (c : N) : pystr :=
  (if (97 <=? c) && (c <=? 122) then [c - 32]
   else if c =? 223 then [83; 83]
   else if c =? 181 then [924]
   else if c =? 255 then [376]
   else if (224 <=? c) && (c <=? 254) && negb (c =? 247) then [c - 32]
   else if (1072 <=? c) && (c <=? 1103) then [c - 32]
   else if (1104 <=? c) && (c <=? 1119) then [c - 80]
   else if (1121 <=? c) && (c <=? 1153) && negb (even_cp c) then [c - 1]
   else if (1163 <=? c) && (c <=? 1215) && negb (even_cp c) then [c - 1]
   else [c])%N.

Definition lower (s : pystr) : pystr := map lower_cp s.
Definition upper (s : pystr) : pystr := flat_map upper_cp s.

Fixpoint lstrip (s : pystr) : pystr :=
  match s with
  | c :: t => if isspace c then lstrip t else s
  | [] => []
  end.

Definition rstrip (s : pystr) : pystr := rev (lstrip (rev s)).

(** [s.strip()] *)
Definition strip (s : pystr) : pystr := rstrip (lstrip s).

(** [re.sub(r'\s+', ' ', s)]: every maximal run of whitespace becomes one
    space.  [in_ws] tells that the previous code point was whitespace. *)
Fixpoint collapse_ws (in_ws : bool) (s : pystr) : pystr :=
  match s with
  | [] => []
  | c :: t =>
      if isspace c
      then (if in_ws then collapse_ws true t else 32%N :: collapse_ws true t)
      else c :: collapse_ws false t
  end.

Fixpoint startswith (p s : pystr) : bool :=
  match p, s with
  | [], _ => true
  | _ :: _, [] => false
  | a :: p', b :: s' => (a =? b)%N && startswith p' s'
  end.

(** [sub in s] *)
Fixpoint contains (sub s : pystr) : bool :=
  startswith sub s ||
  match s with
  | [] => false
  | _ :: t => contains sub t
  end.

(** [s.replace(old, new)] for a non-empty [old]: occurrences are replaced
    left to right without overlap.  [skip] counts the code points of a
    matched occurrence still to be dropped. *)
Fixpoint replace_go (old new : pystr) (skip : nat) (s : pystr) : pystr :=
  match s with
  | [] => []
  | c :: t =>
      match skip with
      | S k => replace_go old new k t
      | O =>
          if startswith old s
          then new ++ replace_go old new (Nat.pred (List.length old)) t
          else c :: replace_go old new 0 t
      end
  end.

Definition replace (old new s : pystr) : pystr := replace_go old new 0 s.

Fixpoint lstrip_ascii (s : pystr) : pystr :=
  match s with
  | c :: t => if isspace_ascii c then lstrip_ascii t else s
  | [] => []
  end.

Definition strip_ascii (s : pystr) : pystr :=
  rev (lstrip_ascii (rev (lstrip_ascii s))).

Fixpoint take_digits (s : pystr) : pystr :=
  match s with
  | c :: t => if isdecimal c then c :: take_digits t else []
  | [] => []
  end.

(** [re.search(r'(\d+)', s)]: the leftmost maximal run of decimal
    digits. *)
Fixpoint search_digits (s : pystr) : option pystr :=
  match s with
  | [] => None
  | c :: t => if isdecimal c then Some (take_digits s) else search_digits t
  end.

(** What [int] and [float] first make of their text: every decimal digit
    becomes its ASCII digit, every whitespace beyond ASCII a space, and any
    other code point beyond ASCII a question mark. *)
Definition to_ascii_cp (c : N) : N :=
  (if c <? 128 then c
   else if isspace c then 32
   else match decimal_value c with
        | Some d => 48 + d
        | None => 63
        end)%N.

Definition to_ascii (s : pystr) : pystr := map to_ascii_cp s.

(** Value of a run of ASCII digits, most significant first. *)
Definition digits_value (ds : pystr) : N :=
  fold_left (fun acc d => (acc * 10 + (d - 48))%N) ds 0%N.

(** Decimal digits of a natural number, as code points. *)
Fixpoint digits_go (fuel : nat) (n : N) (acc : pystr) : pystr :=
  match fuel with
  | O => acc
  | S f =>
      let acc' := (48 + n mod 10)%N :: acc in
      if (n <? 10)%N then acc' else digits_go f (n / 10)%N acc'
  end.

Definition digits_of (n : N) : pystr := digits_go (S (N.to_nat (N.log2 n))) n [].

(** Lexicographic comparison of strings by code point: [a <= b]. *)
Fixpoint str_leb (a b : pystr) : bool :=
  match a, b with
  | [], _ => true
  | _ :: _, [] => false
  | x :: a', y :: b' =>
      if (x <? y)%N then true
      else if (y <? x)%N then false
      else str_leb a' b'
  end.

End PyStr.
Export PyStr.

(* ====================================================================== *)
(** ** Python exceptions *)
(* ====================================================================== *)

Module PyExn.

(** Python exceptions the program can raise. *)
Inductive pyexn := IndexError | ValueError | KeyError | OverflowError.

(** Result of running a function of the program: a value or an
    exception. *)
Inductive outcome (A : Type) :=
| Ok (a : A)
| Raises (e : pyexn).

Arguments Ok {A} a.
Arguments Raises {A} e.

Definition bind {A B : Type} (x : outcome A) (k : A -> outcome B) : outcome B :=
  match x with
  | Ok a => k a
  | Raises e => Raises e
  end.

End PyExn.
Export PyExn.

Notation "x <- c1 ;; c2" := (bind c1 (fun x => c2))
  (at level 61, c1 at next level, right associativity).

(* ====================================================================== *)
(** ** Python numbers *)
(* ====================================================================== *)

Module PyNum.

(** A Python [float] is an IEEE 754 binary64 value.  A finite one is kept as
    the dyadic number [(-1)^neg * m * 2^e] with [m] odd, or [m = 0] and
    [e = 0] for the two zeros. *)
Inductive pyfloat :=
| FNaN
| FInf (neg : bool)
| FFin (neg : bool) (m : N) (e : Z).

(** A number as the program handles it: Python [int] (and numpy [int64])
    or [float]. *)
Inductive pynum :=
| NInt (z : Z)
| NFloat (f : pyfloat).

(** [num / den] rounded to the nearest integer, ties to even. *)
Definition div_half_even (num den : Z) : Z :=
  let q := num / den in
  let r := num mod den in
  if (den <? 2 * r) || ((2 * r =? den) && Z.odd q) then q + 1 else q.

Fixpoint strip_twos (fuel : nat) (m : Z) (e : Z) : Z * Z :=
  match fuel with
  | O => (m, e)
  | S f => if Z.even m then strip_twos f (m / 2) (e + 1) else (m, e)
  end.

(** The binary64 nearest to the positive rational [num / den] (ties to
    even): the exponent [E] of the last kept bit is fixed first, 52 below
    the leading bit and not below [-1074]; the mantissa is the quotient
    rounded at that position. *)
Definition round_binary64 (neg : bool) (num den : Z) : pyfloat :=
  if num <=? 0 then FFin neg 0 0
  else
    let l := Z.log2 num - Z.log2 den in
    let ge := if 0 <=? l then den * 2 ^ l <=? num else den <=? num * 2 ^ (- l) in
    let f := if ge then l else l - 1 in
    let E := Z.max (f - 52) (-1074) in
    let M := if 0 <=? E then div_half_even num (den * 2 ^ E)
             else div_half_even (num * 2 ^ (- E)) den in
    if M =? 0 then FFin neg 0 0
    else if 1024 <? Z.log2 M + E + 1 then FInf neg
    else let (m', e') := strip_twos 64 M E in FFin neg (Z.to_N m') e'.

(** The float written [m * 10^e] in decimal, with sign [neg]. *)
Definition float_of_decimal (neg : bool) (m : N) (e : Z) : pyfloat :=
  if e <? 0 then round_binary64 neg (Z.of_N m) (10 ^ (- e))
  else round_binary64 neg (Z.of_N m * 10 ^ e) 1.

(** [float(z)] for an [int]. *)
Definition float_of_int (z : Z) : pyfloat := round_binary64 (z <? 0) (Z.abs z) 1.

Definition to_float (x : pynum) : pyfloat :=
  match x with
  | NInt z => float_of_int z
  | NFloat f => f
  end.

Definition signed (neg : bool) (m : N) : Z :=
  if neg then - Z.of_N m else Z.of_N m.

Definition fin_compare (n1 : bool) (m1 : N) (e1 : Z)
                       (n2 : bool) (m2 : N) (e2 : Z) : comparison :=
  let k := Z.min e1 e2 in
  Z.compare (signed n1 m1 * 2 ^ (e1 - k)) (signed n2 m2 * 2 ^ (e2 - k)).

(** [a < b] on floats; every comparison with NaN is false. *)
Definition float_ltb (a b : pyfloat) : bool :=
  match a, b with
  | FNaN, _ | _, FNaN => false
  | FInf n1, FInf n2 => n1 && negb n2
  | FInf n1, FFin _ _ _ => n1
  | FFin _ _ _, FInf n2 => negb n2
  | FFin n1 m1 e1, FFin n2 m2 e2 =>
      match fin_compare n1 m1 e1 n2 m2 e2 with Lt => true | _ => false end
  end.

(** [a <= b] on floats. *)
Definition float_leb (a b : pyfloat) : bool :=
  match a, b with
  | FNaN, _ | _, FNaN => false
  | FInf n1, FInf n2 => n1 || negb n2
  | FInf n1, FFin _ _ _ => n1
  | FFin _ _ _, FInf n2 => negb n2
  | FFin n1 m1 e1, FFin n2 m2 e2 =>
      match fin_compare n1 m1 e1 n2 m2 e2 with Gt => false | _ => true end
  end.

Definition float_isnan (f : pyfloat) : bool :=
  match f with FNaN => true | _ => false end.

Definition fzero : pyfloat := FFin false 0 0.

(** [x <= 0] and [x > 0] for a number. *)
Definition num_le0 (x : pynum) : bool :=
  match x with
  | NInt z => z <=? 0
  | NFloat f => float_leb f fzero
  end.

Definition num_gt0 (x : pynum) : bool :=
  match x with
  | NInt z => 0 <? z
  | NFloat f => float_ltb fzero f
  end.

(** The decimal text of an [int]. *)
Definition str_int (z : Z) : pystr :=
  if z <? 0 then 45%N :: digits_of (Z.abs_N z) else digits_of (Z.abs_N z).

(** The number a run of ASCII digits denotes. *)
Definition int_of_digits (ds : pystr) : Z := Z.of_N (digits_value ds).

(** Python's default limit on the digits of an [int] converted to or from
    [str]. *)
Definition max_str_digits : nat := 4300.

(** [str(z)]: a [ValueError] when [z] has more digits than the limit. *)
Definition str_of_int (z : Z) : outcome pystr :=
  if (max_str_digits <? List.length (digits_of (Z.abs_N z)))%nat
  then Raises ValueError
  else Ok (str_int z).

(** [int(ds)] for a run of decimal digits: a [ValueError] when the run is
    longer than the limit. *)
Definition int_of_run (ds : pystr) : outcome Z :=
  if (max_str_digits <? List.length ds)%nat
  then Raises ValueError
  else Ok (int_of_digits (to_ascii ds)).

(** [float(z)] for an [int], which is what formatting an [int] with [f]
    does first: an [OverflowError] when [z] rounds beyond the largest
    float. *)
Definition int_to_float (z : Z) : outcome pyfloat :=
  match float_of_int z with
  | FInf _ => Raises OverflowError
  | f => Ok f
  end.

Definition float_eqb (a b : pyfloat) : bool :=
  match a, b with
  | FNaN, FNaN => true
  | FInf n1, FInf n2 => Bool.eqb n1 n2
  | FFin n1 m1 e1, FFin n2 m2 e2 => Bool.eqb n1 n2 && (m1 =? m2)%N && (e1 =? e2)
  | _, _ => false
  end.

(** A run of digits at the head of [s], and what follows it.  With [us],
    single underscores between digits are skipped, as Python's numeric
    literals allow; [prev] tells that the previous code point was a digit. *)
Fixpoint scan_digits (us prev : bool) (s : pystr) : pystr * pystr :=
  match s with
  | [] => ([], [])
  | c :: t =>
      if isdigit c
      then let (ds, r) := scan_digits us true t in (c :: ds, r)
      else if us && prev && (c =? 95)%N
      then match t with
           | d :: _ => if isdigit d then scan_digits us false t else ([], s)
           | [] => ([], s)
           end
      else ([], s)
  end.

Definition take_sign (s : pystr) : bool * pystr :=
  match s with
  | c :: t => if (c =? 45)%N then (true, t)
              else if (c =? 43)%N then (false, t)
              else (false, s)
  | [] => (false, [])
  end.

(** The optional fraction: a point and a run of digits.  Returns the
    digits, what follows, and whether there was a point. *)
Definition scan_fraction (us : bool) (s : pystr) : pystr * pystr * bool :=
  match s with
  | c :: t =>
      if (c =? 46)%N
      then let (fp, r) := scan_digits us false t in (fp, r, true)
      else ([], s, false)
  | [] => ([], [], false)
  end.

(** The optional exponent: [e] or [E], an optional sign and at least one
    digit.  [None] when the letter is there without digits; otherwise the
    exponent, if any, and what follows. *)
Definition scan_exponent (us : bool) (s : pystr) : option (option Z * pystr) :=
  match s with
  | c :: t =>
      if ((c =? 101) || (c =? 69))%N
      then let (eneg, t') := take_sign t in
           let (ed, r) := scan_digits us false t' in
           match ed with
           | [] => None
           | _ => Some (Some (signed eneg (digits_value ed)), r)
           end
      else Some (None, s)
  | [] => Some (None, [])
  end.

(** An unsigned decimal literal at the head of [s]:
    [digits [. digits] [(e|E) [sign] digits]] with at least one mantissa
    digit.  Returns mantissa, decimal exponent, whether the literal is a
    plain integer (no point, no exponent), and the rest of [s]. *)
Definition parse_decimal (us : bool) (s : pystr) : option (N * Z * bool * pystr) :=
  let (ip, r1) := scan_digits us false s in
  let '(fp, r2, dot) := scan_fraction us r1 in
  match ip ++ fp with
  | [] => None
  | ds =>
      let m := digits_value ds in
      let e0 := - Z.of_nat (List.length fp) in
      match scan_exponent us r2 with
      | None => None
      | Some (Some x, rest) => Some (m, e0 + x, false, rest)
      | Some (None, rest) => Some (m, e0, negb dot, rest)
      end
  end.

Definition word_inf : pystr := [105; 110; 102]%N.
Definition word_infinity : pystr := [105; 110; 102; 105; 110; 105; 116; 121]%N.
Definition word_nan : pystr := [110; 97; 110]%N.

(** [float(s)] for a string: [None] stands for [ValueError].  The text is
    made ASCII and freed of the whitespace at its ends; what is left must
    be a signed word for infinity or NaN, or a decimal literal. *)
Definition py_float (s : pystr) : option pyfloat :=
  let (neg, r) := take_sign (strip_ascii (to_ascii s)) in
  let w := lower r in
  if str_eqb w word_inf || str_eqb w word_infinity then Some (FInf neg)
  else if str_eqb w word_nan then Some FNaN
  else match parse_decimal true r with
       | Some (m, e, _, []) => Some (float_of_decimal neg m e)
       | _ => None
       end.

(** [10^t <= num / den] *)
Definition ge_pow10 (num den t : Z) : bool :=
  if 0 <=? t then den * 10 ^ t <=? num else den <=? num * 10 ^ (- t).

(** The decimal exponent [t] of a positive rational:
    [10^t <= num / den < 10^(t+1)]. *)
Definition dec_exponent (num den : Z) : Z :=
  let t0 := (Z.log2 num - Z.log2 den) * 30103 / 100000 in
  if ge_pow10 num den (t0 + 1) then t0 + 1
  else if ge_pow10 num den t0 then t0
  else t0 - 1.

(** The shortest decimal that reads back as [target], and among the
    shortest the one nearest to it: for [p = 1, 2, ...] significant digits
    the two [p]-digit decimals around [num / den] are tried.  Returns the
    digits as a number and the exponent of the last digit. *)
Fixpoint shortest_go (fuel : nat) (p : Z) (target : pyfloat) (num den t : Z)
  : Z * Z :=
  match fuel with
  | O => (0, 0)
  | S f =>
      let x := t + 1 - p in
      let n' := if 0 <=? x then num else num * 10 ^ (- x) in
      let d' := if 0 <=? x then den * 10 ^ x else den in
      let q := n' / d' in
      let r := n' mod d' in
      let lo_ok := float_eqb (float_of_decimal false (Z.to_N q) x) target in
      let hi_ok := float_eqb (float_of_decimal false (Z.to_N (q + 1)) x) target in
      let lo_closer := (2 * r <? d') || ((2 * r =? d') && Z.even q) in
      if lo_ok && (lo_closer || negb hi_ok) then (q, x)
      else if hi_ok then (q + 1, x)
      else shortest_go f (p + 1) target num den t
  end.

Fixpoint strip_tens (fuel : nat) (m : Z) (e : Z) : Z * Z :=
  match fuel with
  | O => (m, e)
  | S f => if m mod 10 =? 0 then strip_tens f (m / 10) (e + 1) else (m, e)
  end.

Definition shortest_decimal (m : N) (e : Z) : N * Z :=
  if (m =? 0)%N then (0%N, 0)
  else
    let num := if 0 <=? e then Z.of_N m * 2 ^ e else Z.of_N m in
    let den := if 0 <=? e then 1 else 2 ^ (- e) in
    let (d, x) := shortest_go 17 1 (FFin false m e) num den (dec_exponent num den) in
    let (d', x') := strip_tens 17 d x in
    (Z.to_N d', x').

(** [repr(f)], which is also [str(f)]: the shortest digits, in fixed
    notation while the decimal point falls within [-4 < decpt <= 16] and in
    scientific notation otherwise. *)
Definition repr_finite (neg : bool) (m : N) (e : Z) : pystr :=
  let (d, x) := shortest_decimal m e in
  let ds := digits_of d in
  let n := Z.of_nat (List.length ds) in
  let decpt := n + x in
  let body :=
    if (-4 <? decpt) && (decpt <=? 16) then
      if decpt <=? 0
      then [48; 46]%N ++ repeat 48%N (Z.to_nat (- decpt)) ++ ds
      else if n <=? decpt
      then ds ++ repeat 48%N (Z.to_nat (decpt - n)) ++ [46; 48]%N
      else firstn (Z.to_nat decpt) ds ++ 46%N :: skipn (Z.to_nat decpt) ds
    else
      let y := decpt - 1 in
      let ys := digits_of (Z.abs_N y) in
      firstn 1 ds
      ++ (match skipn 1 ds with [] => [] | fr => 46%N :: fr end)
      ++ [101%N; if y <? 0 then 45%N else 43%N]
      ++ (match ys with [_] => 48%N :: ys | _ => ys end)
  in if neg then 45%N :: body else body.

Definition str_float (f : pyfloat) : pystr :=
  match f with
  | FNaN => word_nan
  | FInf neg => if neg then 45%N :: word_inf else word_inf
  | FFin neg m e => repr_finite neg m e
  end.

Fixpoint group_rev (cnt : nat) (rs : pystr) : pystr :=
  match rs with
  | [] => []
  | c :: t =>
      match cnt with
      | 3%nat => 44%N :: c :: group_rev 1 t
      | _ => c :: group_rev (S cnt) t
      end
  end.

(** Thousands separators for the [,] format option. *)
Definition group_thousands (ds : pystr) : pystr := rev (group_rev 0 (rev ds)).

(** [format(f, '.kf')], and [format(f, ',.kf')] when [grouping]: the exact
    value [m * 2^e * 10^k] is rounded to an integer, ties to even. *)
Definition format_f (grouping : bool) (k : nat) (f : pyfloat) : pystr :=
  match f with
  | FNaN => word_nan
  | FInf neg => if neg then 45%N :: word_inf else word_inf
  | FFin neg m e =>
      let p := 10 ^ Z.of_nat k in
      let s := if 0 <=? e then Z.of_N m * 2 ^ e * p
               else div_half_even (Z.of_N m * p) (2 ^ (- e)) in
      let ip := digits_of (Z.to_N (s / p)) in
      let fr := digits_of (Z.to_N (s mod p)) in
      let body :=
        (if grouping then group_thousands ip else ip)
        ++ match k with
           | O => []
           | _ => 46%N :: repeat 48%N (k - List.length fr) ++ fr
           end in
      if neg then 45%N :: body else body
  end.

End PyNum.
Export PyNum.


(* ====================================================================== *)
(** ** Cells and the pandas operations the program uses *)
(* ====================================================================== *)

Module Pandas.

(** An untyped spreadsheet cell as [pd.read_excel(..., header=None)] hands
    it over: text, a number, or NaN for an empty cell.  [CNone] is Python's
    [None], which the helper functions also accept. *)
Inductive cell :=
| CNone
| CStr (s : pystr)
| CInt (z : Z)
| CFloat (f : pyfloat).

(** The empty cell. *)
Definition CNaN : cell := CFloat FNaN.

(** [pd.isna(c)] on a scalar. *)
Definition isna (c : cell) : bool :=
  match c with
  | CNone => true
  | CFloat FNaN => true
  | _ => false
  end.

(** The text of a cell: [str(c)] for a cell of a sheet, whose integers are
    within Python's conversion limit; [str_of] below is [str] for any
    value. *)
Definition py_str (c : cell) : pystr :=
  match c with
  | CNone => [78; 111; 110; 101]%N
  | CStr s => s
  | CInt z => str_int z
  | CFloat f => str_float f
  end.

(** [str(c)] for any value: an [int] beyond the conversion limit is a
    [ValueError]. *)
Definition str_of (c : cell) : outcome pystr :=
  match c with
  | CInt z => str_of_int z
  | _ => Ok (py_str c)
  end.

(** Truth value of a cell, as in [if c:] and [not c]. *)
Definition truthy (c : cell) : bool :=
  match c with
  | CNone => false
  | CStr s => match s with [] => false | _ => true end
  | CInt z => negb (z =? 0)
  | CFloat (FFin _ m _) => negb (m =? 0)%N
  | CFloat _ => true
  end.

(** Truth value of an optional column label ([None] when unresolved). *)
Definition resolved (col : option cell) : bool :=
  match col with
  | Some c => truthy c
  | None => false
  end.

(** Equality of column labels in an index lookup: Python's [==], except
    that a NaN label finds a NaN label. *)
Definition label_eqb (a b : cell) : bool :=
  match a, b with
  | CNone, CNone => true
  | CStr x, CStr y => str_eqb x y
  | CInt x, CInt y => x =? y
  | CFloat FNaN, CFloat FNaN => true
  | CFloat (FInf n1), CFloat (FInf n2) => Bool.eqb n1 n2
  | CFloat (FFin n1 m1 e1), CFloat (FFin n2 m2 e2) =>
      match fin_compare n1 m1 e1 n2 m2 e2 with Eq => true | _ => false end
  | CInt x, CFloat (FFin n m e) | CFloat (FFin n m e), CInt x =>
      let k := Z.min e 0 in
      signed n m * 2 ^ (e - k) =? x * 2 ^ (- k)
  | _, _ => false
  end.

(** What [row.get(label, default)] returns: one cell when the label names
    one column, a Series of two cells or more when several columns carry
    the label. *)
Inductive lookup :=
| Scalar (c : cell)
| Series (c1 c2 : cell) (cs : list cell).

(** [row.get(label, default)] for a row of the frame whose column labels
    are [columns] (a frame has one cell per column in every row). *)
Definition row_get (columns row : list cell) (label default : cell) : lookup :=
  match map snd (filter (fun p => label_eqb label (fst p)) (combine columns row)) with
  | [] => Scalar default
  | [c] => Scalar c
  | c1 :: c2 :: cs => Series c1 c2 cs
  end.

(** The words pandas accepts besides decimal literals, with an optional
    sign and in any letter case. *)
Definition parse_special (s : pystr) : option pynum :=
  let (neg, r) := take_sign s in
  let w := lower r in
  if str_eqb w word_nan then Some (NFloat FNaN)
  else if str_eqb w word_inf || str_eqb w word_infinity then Some (NFloat (FInf neg))
  else None.

(** How pandas converts one string to a number: optional blanks, sign,
    decimal literal, optional blanks.  A plain integer literal within the
    64-bit range stays an integer. *)
Definition parse_numeric (s : pystr) : option pynum :=
  let (neg, r) := take_sign (lstrip_ascii s) in
  match parse_decimal false r with
  | Some (m, e, isint, rest) =>
      match lstrip_ascii rest with
      | [] =>
          let z := signed neg m in
          if isint && (- 2 ^ 63 <=? z) && (z <=? 2 ^ 64 - 1)
          then Some (NInt z)
          else Some (NFloat (float_of_decimal neg m e))
      | _ :: _ => parse_special s
      end
  | None => parse_special s
  end.

(** [pd.to_numeric(c, errors='coerce')] on a scalar: numbers pass, strings
    are converted, and what cannot be converted becomes NaN. *)
Definition to_numeric (c : cell) : pynum :=
  match c with
  | CNone => NFloat FNaN
  | CInt z => NInt z
  | CFloat f => NFloat f
  | CStr s =>
      match parse_numeric s with
      | Some x => x
      | None => NFloat FNaN
      end
  end.

(** [pd.isna(x)] for a number. *)
Definition num_isna (x : pynum) : bool :=
  match x with
  | NFloat FNaN => true
  | _ => false
  end.

(** [str(s)] for a Series [s]: the text pandas prints for the cells found
    under one label, in the row named [i].  Its layout is pandas' own; the
    program is modelled for any such rendering. *)
Definition series_repr := cell -> list cell -> nat -> pystr.

End Pandas.
Export Pandas.

(* ====================================================================== *)
(** ** The program *)
(* ====================================================================== *)

Module Processor.

(** *** Project configuration (the module-level lists of the source) *)

(** An entry of [ID_TO_COMPLEX_RULES]:
    [{'id_contains': ..., 'complex_name': ...}]. *)
Record id_rule := {
  id_contains : pystr;
  id_complex_name : pystr
}.

(** An entry of [SHEET_TO_COMPLEX_RULES]:
    [{'sheet_contains': ..., 'complex_name': ...}]. *)
Record sheet_rule := {
  sheet_contains : pystr;
  sheet_complex_name : pystr
}.

Record config := {
  EXCLUDED_ID_MARKERS : list pystr;
  ID_TO_COMPLEX_RULES : list id_rule;
  SHEET_TO_COMPLEX_RULES : list sheet_rule;
  MIXED_SHEET_KEYWORDS : list pystr
}.

(** *** Helper functions *)

Definition normalize_text (text : cell) : pystr :=
  if isna text then []
  else collapse_ws false (strip (lower (py_str text))).

(** A Python [dict] keeps its keys in insertion order; assigning to a key
    that is already present replaces the value and leaves the key where it
    was. *)
Fixpoint dict_set (k : pystr) (v : cell) (d : list (pystr * cell))
  : list (pystr * cell) :=
  match d with
  | [] => [(k, v)]
  | (k', v') :: t =>
      if str_eqb k k' then (k, v) :: t else (k', v') :: dict_set k v t
  end.

(** [{normalize_text(col): col for col in df.columns}] *)
Definition col_map (columns : list cell) : list (pystr * cell) :=
  fold_left (fun d col => dict_set (normalize_text col) col d) columns [].

(** [any(normalize_text(keyword) in col_norm for keyword in keywords)] *)
Definition any_keyword_in (keywords : list pystr) (col_norm : pystr) : bool :=
  existsb (fun keyword => contains (normalize_text (CStr keyword)) col_norm) keywords.

Definition is_empty {A : Type} (l : list A) : bool :=
  match l with [] => true | _ => false end.

(** [x is None] *)
Definition is_none {A : Type} (x : option A) : bool :=
  match x with None => true | Some _ => false end.

(** The body of the inner loop of [find_best_column]: does this entry of
    the map end the search? *)
Definition column_matches (candidates exclude_keywords : list pystr)
                          (entry : pystr * cell) : bool :=
  let col_norm := fst entry in
  any_keyword_in candidates col_norm
  && negb (negb (is_empty exclude_keywords)
           && any_keyword_in exclude_keywords col_norm).

Fixpoint try_priorities (m : list (pystr * cell)) (exclude_keywords : list pystr)
                        (candidates_list : list (list pystr)) : option cell :=
  match candidates_list with
  | [] => None
  | candidates :: rest =>
      match find (column_matches candidates exclude_keywords) m with
      | Some (_, col_orig) => Some col_orig
      | None => try_priorities m exclude_keywords rest
      end
  end.

Definition find_best_column (columns : list cell)
                            (candidates_list : list (list pystr))
                            (exclude_keywords : option (list pystr))
  : option cell :=
  let exclude_keywords :=
    match exclude_keywords with Some l => l | None => [] end in
  try_priorities (col_map columns) exclude_keywords candidates_list.

(** [if pd.isna(val): return None], and the rest of the function on the
    cell that passed: for a Series, [pd.isna] gives a Series of several
    truth values, and testing it is a [ValueError]. *)
Definition unless_na {A : Type} (val : lookup) (rest : cell -> outcome (option A))
  : outcome (option A) :=
  match val with
  | Scalar c => if isna c then Ok None else rest c
  | Series _ _ _ => Raises ValueError
  end.

(** Only [float(s)] stands in the [try] block: [pd.isna] and [str] raise to
    the caller. *)
Definition clean_currency (val : lookup) : outcome (option pyfloat) :=
  unless_na val (fun val =>
    s <- str_of val ;;
    let s := replace (u " ") [] s in
    let s := replace (u "$") [] s in
    let s := replace (u "грн") [] s in
    let s := replace (u ",") (u ".") s in
    let s := replace [160%N] [] s in
    Ok (py_float s)).

Definition extract_room_count (val : lookup) : outcome (option Z) :=
  unless_na val (fun val =>
    s <- str_of val ;;
    match search_digits s with
    | Some ds =>
        rooms <- int_of_run ds ;;
        if existsb (Z.eqb rooms) [1; 2; 3] then Ok (Some rooms) else Ok None
    | None => Ok None
    end).

Definition default_header_keywords : list pystr :=
  [u "ID"; u "Статус"; u "Площа"; u "ціна"].

(** [any(any(kw in cell for kw in keywords) for cell in normalized_cells)] *)
Definition row_has_keyword (keywords : list pystr) (row : list cell) : bool :=
  existsb (fun cell => existsb (fun kw => contains kw cell) keywords)
          (map normalize_text row).

Fixpoint scan_rows (keywords : list pystr) (i : nat) (rows : list (list cell))
  : option nat :=
  match rows with
  | [] => None
  | row :: rest =>
      if row_has_keyword keywords row then Some i
      else scan_rows keywords (S i) rest
  end.

(** [df] is a frame read without header: its index is [0, 1, 2, ...], so the
    label [i] that [iterrows] yields is the position of the row. *)
(** [[normalize_text(kw) for kw in (keywords or [...])]] *)
Definition header_keywords (keywords : option (list pystr)) : list pystr :=
  map (fun kw => normalize_text (CStr kw))
      (match keywords with
       | None | Some [] => default_header_keywords
       | Some l => l
       end).

Definition find_header_row (df : list (list cell)) (keywords : option (list pystr))
  : nat :=
  match scan_rows (header_keywords keywords) 0 df with
  | Some i => i
  | None => 0%nat
  end.

(** *** Main processing functions *)

(** One extracted apartment: the dictionary [process_sheet] appends to
    [results]. *)
Record record := {
  GROUP : pystr;
  ROOMS : Z;
  ID : pystr;
  AREA : pynum;
  PRICE_PER_M2 : option pyfloat;
  TOTAL_PRICE : option pyfloat
}.

(** The column labels found by the identification block of
    [process_sheet]; [None] when a column was not found. *)
Record colmap := {
  price_m2_col : option cell;
  total_price_col : option cell;
  rooms_col : option cell;
  area_col : option cell;
  status_col : option cell;
  id_col : option cell;
  complex_col : option cell
}.

(** [for col in df.columns: if test(col): x = col; break] *)
Definition first_col (test : cell -> bool) (columns : list cell) : option cell :=
  find test columns.

(** A fallback loop, run when [not x]: it assigns on a match and otherwise
    leaves [x] as it was. *)
Definition or_fallback (x : option cell) (test : cell -> bool)
                       (columns : list cell) : option cell :=
  if negb (resolved x)
  then match first_col test columns with
       | Some col => Some col
       | None => x
       end
  else x.

Definition is_price_m2 (col : cell) : bool :=
  let col_str := strip (py_str col) in
  let col_norm := normalize_text col in
  str_eqb col_norm (u "ціна за метр") || str_eqb col_str (u "ціна за метр ").

Definition is_price_m2_fallback (col : cell) : bool :=
  let col_norm := normalize_text col in
  (contains (u "ціна за 1 м") col_norm && contains (u "видаляти") col_norm)
  || (contains (u "ціна") col_norm && contains (u "м") col_norm
      && contains (u "продаж") col_norm)
     && (negb (contains (u "базов") col_norm)
         && negb (contains (u "старт") col_norm)).

Definition is_total_price (col : cell) : bool :=
  contains (u "вартість для продажу") (normalize_text col).

Definition is_total_price_fallback (col : cell) : bool :=
  let col_norm := normalize_text col in
  (contains (u "вартість") col_norm && contains (u "видаляти") col_norm)
  || contains (u "вартість продажу") col_norm.

Definition rooms_synonyms : list pystr :=
  [u "Розмір"; u "Rooms"; u "К-сть кімнат"; u "Кімнат"].

(** The two tests of the rooms loop, made on each column in turn. *)
Definition is_rooms_exact (col : cell) : bool :=
  existsb (str_eqb (strip (py_str col))) rooms_synonyms.

Definition is_rooms_lowercase (col : cell) : bool :=
  str_eqb (normalize_text col) (u "розмір").

Definition is_rooms (col : cell) : bool :=
  is_rooms_exact col || is_rooms_lowercase col.

Definition is_area (col : cell) : bool :=
  str_eqb (normalize_text col) (u "площа").

Definition status_keywords : list (list pystr) :=
  [[u "статус"]; [u "стан"; u "state"]].

Definition id_keywords : list (list pystr) := [[u "id"; u "номер"]].

Definition complex_keywords : list (list pystr) :=
  [[u "жк"; u "complex"; u "building"]].

Definition identify_columns (columns : list cell) : colmap :=
  {| price_m2_col :=
       or_fallback (first_col is_price_m2 columns) is_price_m2_fallback columns;
     total_price_col :=
       or_fallback (first_col is_total_price columns) is_total_price_fallback columns;
     rooms_col := first_col is_rooms columns;
     area_col := first_col is_area columns;
     status_col := find_best_column columns status_keywords None;
     id_col := find_best_column columns id_keywords None;
     complex_col := find_best_column columns complex_keywords None |}.

(** [str(row.get(col, ''))], when [col] is set; [i] is the name of the
    row. *)
Definition get_text (pd : series_repr) (columns row : list cell) (i : nat)
                    (col : cell) : pystr :=
  match row_get columns row col (CStr []) with
  | Scalar c => py_str c
  | Series c1 c2 cs => pd col (c1 :: c2 :: cs) i
  end.

(** [row.get(col)] where the value next meets [if pd.isna(...)],
    [not pd.isna(...)] or [pd.isna(...) or ...]: the truth value of a Series
    is a [ValueError]. *)
Definition get_scalar (columns row : list cell) (col : cell) : outcome cell :=
  match row_get columns row col CNone with
  | Scalar c => Ok c
  | Series _ _ _ => Raises ValueError
  end.

(** [f(row.get(col)) if col else None], for the area and the complex name,
    where the [pd.isna] test is made by the loop. *)
Definition if_col {A : Type} (columns row : list cell) (col : option cell)
                  (f : cell -> option A) : outcome (option A) :=
  match col with
  | Some c =>
      if truthy c then (v <- get_scalar columns row c ;; Ok (f v)) else Ok None
  | None => Ok None
  end.

(** [f(row.get(col)) if col else None], for the two helpers that test
    [pd.isna] themselves. *)
Definition call_if_col {A : Type} (columns row : list cell) (col : option cell)
                       (f : lookup -> outcome (option A)) : outcome (option A) :=
  match col with
  | Some c => if truthy c then f (row_get columns row c CNone) else Ok None
  | None => Ok None
  end.

(** [str(row.get(col, '')) if col else ''] *)
Definition text_if_col (pd : series_repr) (columns row : list cell) (i : nat)
                       (col : option cell) : pystr :=
  match col with
  | Some c => if truthy c then get_text pd columns row i c else []
  | None => []
  end.

(** The mixed-sheet block: the first ID rule whose marker is in the ID. *)
Definition complex_from_id (cfg : config) (sheet_name apt_id complex_name : pystr)
  : pystr :=
  if existsb (fun keyword => contains (lower keyword) (lower sheet_name))
             (MIXED_SHEET_KEYWORDS cfg)
  then
    let apt_id_upper := upper apt_id in
    match find (fun rule => contains (upper (id_contains rule)) apt_id_upper)
               (ID_TO_COMPLEX_RULES cfg) with
    | Some rule => id_complex_name rule
    | None => complex_name
    end
  else complex_name.

(** [rule['sheet_contains'].lower() in sheet_name.lower()] *)
Definition sheet_rule_applies (sheet_name : pystr) (rule : sheet_rule) : bool :=
  contains (lower (sheet_contains rule)) (lower sheet_name).

(** The sheet-name block: the first sheet rule whose fragment is in the
    sheet name. *)
Definition complex_from_sheet (cfg : config) (sheet_name complex_name : pystr)
  : pystr :=
  match find (sheet_rule_applies sheet_name) (SHEET_TO_COMPLEX_RULES cfg) with
  | Some rule => sheet_complex_name rule
  | None => complex_name
  end.

(** The body of the extraction loop for the row named [i]: [Ok None] is
    [continue], [Ok (Some r)] is [results.append(r)]. *)
Definition process_row (pd : series_repr) (cfg : config) (sheet_name : pystr)
                       (columns : list cell) (cols : colmap)
                       (i : nat) (row : list cell) : outcome (option record) :=
  let status_val := lower (text_if_col pd columns row i (status_col cols)) in
  if negb (contains (u "вільно") status_val) then Ok None else
  rooms <- call_if_col columns row (rooms_col cols) extract_room_count ;;
  match rooms with
  | None => Ok None
  | Some rooms =>
  if negb (existsb (Z.eqb rooms) [1; 2; 3]) then Ok None else
  area <- if_col columns row (area_col cols) (fun v => Some (to_numeric v)) ;;
  match area with
  | None => Ok None
  | Some area =>
  if num_isna area || num_le0 area then Ok None else
  price_m2 <- call_if_col columns row (price_m2_col cols) clean_currency ;;
  total_price <- call_if_col columns row (total_price_col cols) clean_currency ;;
  if is_none price_m2 && is_none total_price then Ok None else
  complex_val <- if_col columns row (complex_col cols)
                   (fun v => if isna v then None else Some (strip (py_str v))) ;;
  let complex_name :=
    match complex_val with Some name => name | None => sheet_name end in
  let apt_id := strip (text_if_col pd columns row i (id_col cols)) in
  if existsb (fun marker => contains (upper marker) (upper apt_id))
             (EXCLUDED_ID_MARKERS cfg)
  then Ok None else
  let complex_name := complex_from_id cfg sheet_name apt_id complex_name in
  let complex_name := complex_from_sheet cfg sheet_name complex_name in
  Ok (Some {| GROUP := complex_name;
              ROOMS := rooms;
              ID := apt_id;
              AREA := area;
              PRICE_PER_M2 := price_m2;
              TOTAL_PRICE := total_price |})
  end
  end.

(** The loop over the rows; after [reset_index] they are named
    [0, 1, 2, ...]. *)
Fixpoint process_rows (pd : series_repr) (cfg : config) (sheet_name : pystr)
                      (columns : list cell) (cols : colmap)
                      (i : nat) (rows : list (list cell))
  : outcome (list record) :=
  match rows with
  | [] => Ok []
  | row :: rest =>
      r <- process_row pd cfg sheet_name columns cols i row ;;
      results <- process_rows pd cfg sheet_name columns cols (S i) rest ;;
      Ok (match r with Some rec => rec :: results | None => results end)
  end.

(** [process_sheet(df, sheet_name)]; the [verbose] flag only prints. *)
Definition process_sheet (pd : series_repr) (cfg : config)
                         (df : list (list cell)) (sheet_name : pystr)
  : outcome (list record) :=
  let header_idx := find_header_row df None in
  match nth_error df header_idx with
  | None => Raises IndexError
  | Some columns =>
      let rows := skipn (S header_idx) df in
      process_rows pd cfg sheet_name columns (identify_columns columns) 0 rows
  end.

(** A row of the summary table: the dictionary [generate_summary] appends
    to [results]. *)
Module Summary.
Record row := {
  GROUP : pystr;
  ROOMS : pystr;
  MIN_AREA : pystr;
  MAX_AREA : pystr;
  MIN_PRICE_PER_M2 : pystr;
  MAX_PRICE_PER_M2 : pystr;
  MIN_TOTAL_PRICE : pystr
}.
End Summary.

(** A price cell of the frame built from the records: [None] is stored as
    NaN. *)
Definition price_value (x : option pyfloat) : pyfloat :=
  match x with Some f => f | None => FNaN end.

(** [df.dropna(subset=['PRICE_PER_M2', 'TOTAL_PRICE'])] keeps the rows where
    neither price is missing. *)
Definition price_complete (r : record) : bool :=
  negb (float_isnan (price_value (PRICE_PER_M2 r)))
  && negb (float_isnan (price_value (TOTAL_PRICE r))).

Definition key_of (r : record) : pystr * Z := (GROUP r, ROOMS r).

Definition key_eqb (a b : pystr * Z) : bool :=
  str_eqb (fst a) (fst b) && (snd a =? snd b).

(** Order of the group keys: by [GROUP], then by [ROOMS] as a number. *)
Definition key_leb (a b : pystr * Z) : bool :=
  if str_eqb (fst a) (fst b) then snd a <=? snd b else str_leb (fst a) (fst b).

Fixpoint insert_key (k : pystr * Z) (ks : list (pystr * Z)) : list (pystr * Z) :=
  match ks with
  | [] => [k]
  | h :: t =>
      if key_eqb k h then ks
      else if key_leb k h then k :: ks
      else h :: insert_key k t
  end.

(** The keys [df.groupby(['GROUP', 'ROOMS'])] iterates over: each key once,
    in ascending order. *)
Definition group_keys (rs : list record) : list (pystr * Z) :=
  fold_right (fun r ks => insert_key (key_of r) ks) [] rs.

(** The rows of one group, in the order of the frame. *)
Definition group_of (rs : list record) (k : pystr * Z) : list record :=
  filter (fun r => key_eqb (key_of r) k) rs.

(** [group.loc[group[col].idxmin()]] and [...idxmax()]: the first row that
    holds the extreme value, NaN skipped; [None] when the column holds
    nothing but NaN, where pandas raises.  [before a b] tells that [a] is a
    better extreme than [b]. *)
Definition first_extreme (before : pyfloat -> pyfloat -> bool)
                         (value : record -> pyfloat) (group : list record)
  : option record :=
  fold_left
    (fun best r =>
       if float_isnan (value r) then best
       else match best with
            | None => Some r
            | Some b => if before (value r) (value b) then Some r else best
            end)
    group None.

Definition idxmin := first_extreme float_ltb.
Definition idxmax := first_extreme (fun a b => float_ltb b a).

Definition loc (x : option record) : outcome record :=
  match x with
  | Some r => Ok r
  | None => Raises ValueError
  end.

(** [f"{price:,.0f} ({id})"] *)
Definition price_with_id (price : pyfloat) (id : pystr) : pystr :=
  format_f true 0 price ++ u " (" ++ id ++ u ")".

(** [f"{area:.1f}"]: an [int] is converted to a float first. *)
Definition format_area (area : pynum) : outcome pystr :=
  match area with
  | NInt z => f <- int_to_float z ;; Ok (format_f false 1 f)
  | NFloat f => Ok (format_f false 1 f)
  end.

(** The body of the loop over the groups.  The extremes of the [AREA]
    column are taken on the float values. *)
Definition summarize (k : pystr * Z) (group : list record) : outcome Summary.row :=
  let area r := to_float (AREA r) in
  let price_m2 r := price_value (PRICE_PER_M2 r) in
  let total r := price_value (TOTAL_PRICE r) in
  min_area_row <- loc (idxmin area group) ;;
  max_area_row <- loc (idxmax area group) ;;
  min_price_row <- loc (idxmin price_m2 group) ;;
  max_price_row <- loc (idxmax price_m2 group) ;;
  cheapest_row <- loc (idxmin total group) ;;
  min_area <- format_area (AREA min_area_row) ;;
  max_area <- format_area (AREA max_area_row) ;;
  Ok {| Summary.GROUP := fst k;
        Summary.ROOMS := str_int (snd k);
        Summary.MIN_AREA := min_area;
        Summary.MAX_AREA := max_area;
        Summary.MIN_PRICE_PER_M2 :=
          price_with_id (price_m2 min_price_row) (ID min_price_row);
        Summary.MAX_PRICE_PER_M2 :=
          price_with_id (price_m2 max_price_row) (ID max_price_row);
        Summary.MIN_TOTAL_PRICE :=
          price_with_id (total cheapest_row) (ID cheapest_row) |}.

Fixpoint summarize_all (rs : list record) (ks : list (pystr * Z))
  : outcome (list Summary.row) :=
  match ks with
  | [] => Ok []
  | k :: rest =>
      r <- summarize k (group_of rs k) ;;
      results <- summarize_all rs rest ;;
      Ok (r :: results)
  end.

(** Order of [sort_values(by=['GROUP', 'ROOMS'])]: both columns of the
    summary hold strings. *)
Definition row_leb (a b : Summary.row) : bool :=
  if str_eqb (Summary.GROUP a) (Summary.GROUP b)
  then str_leb (Summary.ROOMS a) (Summary.ROOMS b)
  else str_leb (Summary.GROUP a) (Summary.GROUP b).

Fixpoint insert_row (r : Summary.row) (l : list Summary.row) : list Summary.row :=
  match l with
  | [] => [r]
  | h :: t => if row_leb r h then r :: l else h :: insert_row r t
  end.

(** A stable sort. *)
Definition sort_rows (l : list Summary.row) : list Summary.row :=
  fold_right insert_row [] l.

(** [summary.sort_values(by=['GROUP', 'ROOMS'])]: a frame built from an
    empty list has no columns, and sorting it by a column name is a
    [KeyError]. *)
Definition sort_values (results : list Summary.row) : outcome (list Summary.row) :=
  match results with
  | [] => Raises KeyError
  | _ => Ok (sort_rows results)
  end.

Definition generate_summary (data : list record) : outcome (list Summary.row) :=
  if is_empty data then Ok []
  else
    let df := filter price_complete data in
    results <- summarize_all df (group_keys df) ;;
    sort_values results.

(** *** Main execution *)

(** What [main] finds at [file_path]: nothing, a file pandas cannot open,
    or a workbook, given by its sheets in order (name and grid as
    [pd.read_excel(..., header=None)] returns it). *)
Inductive input_file :=
| Missing
| Unreadable
| Workbook (sheets : list (pystr * list (list cell))).

(** How a run of [main] ends when no exception escapes: one of its five
    early returns, or the block that writes [summary] to the output file. *)
Inductive main_end :=
| NoSheetsConfigured
| InputNotFound
| LoadError
| NoData
| SummaryEmpty
| Save (summary : list Summary.row).

(** [pd.read_excel(file_path, sheet_name=sheet_name, header=None)] for a
    name that passed [sheet_name in xl_file.sheet_names]. *)
Fixpoint read_excel (sheets : list (pystr * list (list cell))) (sheet_name : pystr)
  : option (list (list cell)) :=
  match sheets with
  | [] => None
  | (name, df) :: rest =>
      if str_eqb sheet_name name then Some df else read_excel rest sheet_name
  end.

(** The loop over the configured sheets: a sheet that is not in the
    workbook is skipped, and so is a sheet whose processing raises (the
    [try]/[except Exception] around it); the others extend [all_data]. *)
Fixpoint collect (pd : series_repr) (cfg : config)
                 (sheets : list (pystr * list (list cell)))
                 (sheets_to_process : list pystr) : list record :=
  match sheets_to_process with
  | [] => []
  | sheet_name :: rest =>
      match read_excel sheets sheet_name with
      | None => collect pd cfg sheets rest
      | Some df =>
          match process_sheet pd cfg df sheet_name with
          | Ok sheet_data => sheet_data ++ collect pd cfg sheets rest
          | Raises _ => collect pd cfg sheets rest
          end
      end
  end.

(** [main(file_path, output_path)], with the configured sheet names
    [SHEETS_TO_PROCESS] and the state of the input file as arguments; what
    it prints is left out.  [generate_summary] is called outside any
    [try], so its exception is the exception of [main]. *)
Definition main (pd : series_repr) (cfg : config) (SHEETS_TO_PROCESS : list pystr)
                (file : input_file) : outcome main_end :=
  if is_empty SHEETS_TO_PROCESS then Ok NoSheetsConfigured
  else
    match file with
    | Missing => Ok InputNotFound
    | Unreadable => Ok LoadError
    | Workbook sheets =>
        let all_data := collect pd cfg sheets SHEETS_TO_PROCESS in
        if is_empty all_data then Ok NoData
        else
          summary <- generate_summary all_data ;;
          if is_empty summary then Ok SummaryEmpty else Ok (Save summary)
    end.

End Processor.
Export Processor.

(* ====================================================================== *)
(** ** Vocabulary of the statements *)
(* ====================================================================== *)

(** [sub] occurs in [s] as a contiguous block. *)
Definition substring (sub s : pystr) : Prop :=
  exists a b, s = a ++ sub ++ b.

(** Some cell of the row, once normalized, contains some keyword. *)
Definition header_like (keywords : list pystr) (row : list cell) : Prop :=
  exists c kw, In c row /\ In kw keywords /\ substring kw (normalize_text c).

(** What [str(val)] becomes in [clean_currency] before it is parsed. *)
Definition currency_text (val : cell) : pystr :=
  replace [160%N] []
    (replace (u ",") (u ".")
       (replace (u "грн") []
          (replace (u "$") []
             (replace (u " ") [] (py_str val))))).

(** The float Python writes [1234.56]. *)
Definition float_1234_56 : pyfloat := FFin false 2714826150374277 (-41).

Definition text (x : string) : cell := CStr (u x).

(** A sheet with two title rows above its header. *)
Definition titled_grid : list (list cell) :=
  [ [text "Прайс-лист"; CNaN; CNaN];
    [text "станом на 01.03"; CNaN; CNaN];
    [text "ID"; text "Статус"; text "Поверх"];
    [text "A-101"; text "вільно"; CInt 3] ].

(** The matcher as the specification words it: for each priority group in
    turn, the first column in header order whose normalized name contains a
    keyword of the group and no excluded keyword. *)
Fixpoint first_in_header_order (columns : list cell) (exclude_keywords : list pystr)
                               (candidates_list : list (list pystr)) : option cell :=
  match candidates_list with
  | [] => None
  | candidates :: rest =>
      match find (fun col => column_matches candidates exclude_keywords
                               (normalize_text col, col)) columns with
      | Some col => Some col
      | None => first_in_header_order columns exclude_keywords rest
      end
  end.

(** The invariant of an extracted record. *)
Definition record_ok (r : record) : Prop :=
  In (ROOMS r) [1; 2; 3]
  /\ num_gt0 (AREA r) = true
  /\ (PRICE_PER_M2 r <> None \/ TOTAL_PRICE r <> None).

(** A rendering of Series for sheets whose column labels are distinct,
    where none is ever printed. *)
Definition no_series : series_repr := fun _ _ _ => [].

(** The configuration as the source ships it: every list empty. *)
Definition no_rules : config :=
  {| EXCLUDED_ID_MARKERS := [];
     ID_TO_COMPLEX_RULES := [];
     SHEET_TO_COMPLEX_RULES := [];
     MIXED_SHEET_KEYWORDS := [] |}.

(** The float written [x]; NaN when [x] is not a number. *)
Definition fl (x : string) : pyfloat :=
  match py_float (u x) with Some f => f | None => FNaN end.

(** A sheet named "ComplexA": a title row, the header, one available
    apartment, one sold, and one available without an ID. *)
Definition sample_grid : list (list cell) :=
  [ [text "Прайс"; CNaN; CNaN; CNaN; CNaN; CNaN];
    [text "ID"; text "Статус"; text "Розмір"; text "Площа";
     text "ціна за метр "; text "Вартість для продажу"];
    [text "A-101"; text "вільно"; text "1к"; CFloat (fl "45.5");
     text "25000"; text "1200000"];
    [text "A-102"; text "продано"; text "2к"; CInt 60;
     text "25000"; text "1500000"];
    [CNaN; text "Вільно"; CInt 3; CInt 70; text "25 000,50 грн"; CInt 1750035] ].

Definition sample_records : list record :=
  [ {| GROUP := u "ComplexA"; ROOMS := 1; ID := u "A-101";
       AREA := NFloat (fl "45.5");
       PRICE_PER_M2 := Some (fl "25000"); TOTAL_PRICE := Some (fl "1200000") |};
    {| GROUP := u "ComplexA"; ROOMS := 3; ID := u "nan";
       AREA := NInt 70;
       PRICE_PER_M2 := Some (fl "25000.5"); TOTAL_PRICE := Some (fl "1750035") |} ].

(** The same sheet without its status column. *)
Definition grid_without_status : list (list cell) :=
  [ [text "ID"; text "Розмір"; text "Площа"; text "ціна за метр"];
    [text "A-101"; text "1к"; CInt 45; text "25000"] ].

(** Two sheet rules that differ by letter case only. *)
Definition phase_rule_lower : sheet_rule :=
  {| sheet_contains := u "phase1"; sheet_complex_name := u "ComplexA Phase 1" |}.

Definition phase_rule_upper : sheet_rule :=
  {| sheet_contains := u "Phase1"; sheet_complex_name := u "ComplexB" |}.

Definition phase_rules : config :=
  {| EXCLUDED_ID_MARKERS := [];
     ID_TO_COMPLEX_RULES := [];
     SHEET_TO_COMPLEX_RULES := [phase_rule_lower; phase_rule_upper];
     MIXED_SHEET_KEYWORDS := [] |}.

Definition phase_sheet_name : pystr := u "Building Phase1 East".

(** The sheet-name test read literally, without the two [lower()] calls of
    [sheet_rule_applies]. *)
Definition sheet_rule_applies_exact (sheet_name : pystr) (rule : sheet_rule) : bool :=
  contains (sheet_contains rule) sheet_name.

(** The code points that can occur in text pandas converts to a number:
    digits, blanks, signs, the point, and the letters of "e", "nan", "inf"
    and "infinity" in either case. *)
Definition number_char (c : N) : bool :=
  isdigit c || isspace_ascii c
  || existsb (N.eqb (lower_cp c)) [43; 45; 46; 101; 105; 110; 102; 116; 121; 97]%N.

(** Text made of such code points only. *)
Definition plain (s : pystr) : Prop := Forall (fun c => number_char c = true) s.

(** Text with a decimal comma or a currency decoration: a comma, a dollar
    sign, a non-breaking space or the abbreviation "грн". *)
Definition decorated (s : pystr) : Prop :=
  In 44%N s \/ In 36%N s \/ In 160%N s \/ contains (u "грн") s = true.

(** The header and the ID-less row of [sample_grid]. *)
Definition sample_columns : list cell :=
  [text "ID"; text "Статус"; text "Розмір"; text "Площа";
   text "ціна за метр "; text "Вартість для продажу"].

Definition row_without_id : list cell :=
  [CNaN; text "Вільно"; CInt 3; CInt 70; text "25 000,50 грн"; CInt 1750035].

Definition record_without_id : record :=
  {| GROUP := u "ComplexA"; ROOMS := 3; ID := u "nan";
     AREA := NInt 70;
     PRICE_PER_M2 := Some (fl "25000.5"); TOTAL_PRICE := Some (fl "1750035") |}.

(** A row whose area is written with a decimal comma. *)
Definition row_comma_area : list cell :=
  [text "A-103"; text "вільно"; text "2к"; text "45,5"; text "25000"; text "1500000"].

(** The key of a summary row, its room count read back as a number. *)
Definition row_key (row : Summary.row) : pystr * Z :=
  (Summary.GROUP row, int_of_digits (Summary.ROOMS row)).

(** A summary row carries the key of its group, the room count as text. *)
Definition carries (row : Summary.row) (k : pystr * Z) : Prop :=
  Summary.GROUP row = fst k /\ Summary.ROOMS row = str_int (snd k).

(** Strict order on keys: by group, then by room count as a number. *)
Definition key_lt (a b : pystr * Z) : Prop :=
  key_leb a b = true /\ a <> b.

Definition rooms_123 (r : record) : Prop := In (ROOMS r) [1; 2; 3].

(** Two apartments of one complex, with 10 and with 2 rooms. *)
Definition ten_and_two : list record :=
  [ {| GROUP := u "X"; ROOMS := 10; ID := u "X1"; AREA := NInt 120;
       PRICE_PER_M2 := Some (fl "20000"); TOTAL_PRICE := Some (fl "2400000") |};
    {| GROUP := u "X"; ROOMS := 2; ID := u "X2"; AREA := NInt 50;
       PRICE_PER_M2 := Some (fl "18000"); TOTAL_PRICE := Some (fl "900000") |} ].

(** The aggregation scenario: two one-room apartments of complex "X". *)
Definition two_of_x : list record :=
  [ {| GROUP := u "X"; ROOMS := 1; ID := u "X1"; AREA := NInt 40;
       PRICE_PER_M2 := Some (fl "20000"); TOTAL_PRICE := Some (fl "800000") |};
    {| GROUP := u "X"; ROOMS := 1; ID := u "X2"; AREA := NFloat (fl "50");
       PRICE_PER_M2 := Some (fl "18000"); TOTAL_PRICE := Some (fl "900000") |} ].

Definition summary_of_x : Summary.row :=
  {| Summary.GROUP := u "X";
     Summary.ROOMS := u "1";
     Summary.MIN_AREA := u "40.0";
     Summary.MAX_AREA := u "50.0";
     Summary.MIN_PRICE_PER_M2 := u "18,000 (X2)";
     Summary.MAX_PRICE_PER_M2 := u "20,000 (X1)";
     Summary.MIN_TOTAL_PRICE := u "800,000 (X1)" |}.

(** Scenario data of the specification. *)
Definition scenario_header : list cell :=
  [text "ціна за метр "; text "Вартість для продажу"; text "Розмір";
   text "Площа"; text "Статус"; text "ID"].

Definition scenario_grid : list (list cell) :=
  [ [text "ID"; text "Статус"; text "Розмір"; text "Площа";
     text "ціна за метр"; text "Вартість для продажу"; text "ЖК"];
    [text "A-101"; text "вільно"; text "1к"; CFloat (fl "45.5");
     text "25000"; text "1200000"; text "Other"];
    [text "A-102"; text "продано"; text "2к"; CInt 60;
     text "25000"; text "1500000"; text "Other"];
    [text "TEST-55"; text "вільно"; text "2к"; CInt 60;
     text "25000"; text "1500000"; CNaN] ].

Definition scenario_rules : config :=
  {| EXCLUDED_ID_MARKERS := [u "test"];
     ID_TO_COMPLEX_RULES :=
       [{| id_contains := u "a-"; id_complex_name := u "ComplexA" |}];
     SHEET_TO_COMPLEX_RULES :=
       [{| sheet_contains := u "Phase1";
           sheet_complex_name := u "ComplexA Phase 1" |}];
     MIXED_SHEET_KEYWORDS := [u "mixed"] |}.

Definition scenario_record (group : string) : record :=
  {| GROUP := u group; ROOMS := 1; ID := u "A-101";
     AREA := NFloat (fl "45.5");
     PRICE_PER_M2 := Some (fl "25000"); TOTAL_PRICE := Some (fl "1200000") |}.

(** A sheet with two area columns. *)
Definition grid_two_areas : list (list cell) :=
  [ [text "Статус"; text "Розмір"; text "Площа"; text "Площа"];
    [text "вільно"; text "1к"; CInt 45; CInt 46] ].

(** [exclude_keywords or []] *)
Definition or_empty (exclude_keywords : option (list pystr)) : list pystr :=
  match exclude_keywords with Some l => l | None => [] end.

(** Text that neither starts nor ends with whitespace. *)
Definition trimmed (s : pystr) : Prop :=
  (forall c t, s = c :: t -> isspace c = false)
  /\ (forall t c, s = t ++ [c] -> isspace c = false).

(** Text whose only whitespace is the space, never two in a row. *)
Definition single_spaced (s : pystr) : Prop :=
  (forall c, In c s -> isspace c = true -> c = 32%N)
  /\ (forall a x y b, s = a ++ x :: y :: b ->
                      isspace x = true -> isspace y = true -> False).

(** How many columns carry the label [c]. *)
Definition occurrences (c : cell) (columns : list cell) : nat :=
  List.length (filter (label_eqb c) columns).

(** The columns whose cells the extraction loop tests with [pd.isna]. *)
Definition tested_cols (cols : colmap) : list (option cell) :=
  [rooms_col cols; area_col cols; price_m2_col cols; total_price_col cols;
   complex_col cols].

(** The order of [sort_values] as a relation. *)
Definition row_le (a b : Summary.row) : Prop := row_leb a b = true.

(** The two text columns of a summary row. *)
Definition row_text_key (row : Summary.row) : pystr * pystr :=
  (Summary.GROUP row, Summary.ROOMS row).

(** The text key of a group key. *)
Definition key_text (k : pystr * Z) : pystr * pystr := (fst k, str_int (snd k)).

(** A value that takes part in [idxmin]/[idxmax]: not NaN. *)
Definition counted (value : record -> pyfloat) (r : record) : Prop :=
  float_isnan (value r) = false.

(** Commas turned into points. *)
Definition comma_to_point (s : pystr) : pystr :=
  map (fun c => if (c =? 44)%N then 46%N else c) s.

(** A workbook with an empty sheet, a sheet with two area columns and the
    sample sheet. *)
Definition sample_workbook : list (pystr * list (list cell)) :=
  [ (u "Empty", []);
    (u "TwoAreas", grid_two_areas);
    (u "ComplexA", sample_grid) ].

(** The sheets configured for [sample_workbook]. *)
Definition sample_sheet_names : list pystr :=
  [u "Empty"; u "TwoAreas"; u "ComplexA"].

(** A value that [str] converts: any cell but an integer of more than 4300
    digits. *)
Definition convertible (c : cell) : Prop :=
  match c with
  | CInt z => Z.abs z < 10 ^ 4300
  | _ => True
  end.

(** The cleaning of a price text as the specification words it: spaces and
    dollar signs, the abbreviation "грн" and non-breaking spaces are taken
    out, and commas become points. *)
Definition cleaned_as_specified (s : pystr) : pystr :=
  comma_to_point
    (filter (fun c => negb (c =? 160)%N)
       (replace (u "грн") []
          (filter (fun c => negb ((c =? 32) || (c =? 36))%N) s))).

(** A sheet with two columns for the price per metre. *)
Definition grid_two_prices : list (list cell) :=
  [ [text "Статус"; text "Розмір"; text "Площа"; text "ціна за метр";
     text "ціна за метр"];
    [text "вільно"; text "1к"; CInt 45; CInt 25000; CInt 26000] ].

(** The keywords [find_header_row] looks for: those it is given, normalized,
    or the four of the source when it is given none. *)
Definition keywords_in_force (keywords : option (list pystr)) : list pystr :=
  match keywords with
  | Some (kw :: kws) => map (fun k => normalize_text (CStr k)) (kw :: kws)
  | _ => [u "id"; u "статус"; u "площа"; u "ціна"]
  end.

(** A cell whose text is within Python's limit on the digits of an [int]:
    at most 4300 code points. *)
Definition short_text (c : cell) : Prop := (List.length (py_str c) <= 4300)%nat.

(** The number a run of decimal digits writes. *)
Definition run_value (ds : pystr) : Z := int_of_digits (to_ascii ds).

(** An area that a numeric column of a frame holds as it is: a float, or an
    integer of the 64-bit range. *)
Definition area_in_range (a : pynum) : Prop :=
  match a with
  | NInt z => - 2 ^ 63 <= z < 2 ^ 63
  | NFloat _ => True
  end.

(** How often the code point [x] occurs in [s]. *)
Definition count (x : N) (s : pystr) : nat := count_occ N.eq_dec s x.

(* ====================================================================== *)
(** ** Strings: basic facts *)
(* ====================================================================== *)

Lemma str_eqb_eq (a b : pystr) : str_eqb a b = true <-> a = b.
Proof.
  unfold str_eqb. destruct (list_eq_dec N.eq_dec a b); split; congruence.
Qed.

Lemma str_eqb_refl (a : pystr) : str_eqb a a = true.
Proof. now apply str_eqb_eq. Qed.

Lemma startswith_app (p s : pystr) :
  startswith p s = true <-> exists b, s = p ++ b.
Proof.
  revert s; induction p as [|x p IH]; intros s; simpl.
  - split; [intros _; now exists s | reflexivity].
  - destruct s as [|y s].
    + split; [discriminate | intros [b Hb]; discriminate].
    + rewrite andb_true_iff, N.eqb_eq, IH. split.
      * intros [-> [b ->]]. now exists b.
      * intros [b Hb]. injection Hb as -> ->. split; [reflexivity | now exists b].
Qed.

(** [contains] decides the substring relation. *)
Lemma contains_substring (sub s : pystr) :
  contains sub s = true <-> substring sub s.
Proof.
  unfold substring. induction s as [|c s IH].
  - simpl. rewrite orb_false_r, startswith_app. split.
    + intros [b Hb]. now exists [], b.
    + intros [a [b Hab]]. destruct a; [now exists b | discriminate].
  - cbn [contains]. rewrite orb_true_iff, startswith_app, IH. split.
    + intros [[b Hb] | [a [b Hab]]].
      * now exists [], b.
      * exists (c :: a), b. now rewrite Hab.
    + intros [[|x a] [b Hab]].
      * left. now exists b.
      * right. injection Hab as _ ->. now exists a, b.
Qed.

Lemma contains_head_in (c : N) (sub s : pystr) :
  contains (c :: sub) s = true -> In c s.
Proof.
  intros H. apply contains_substring in H. destruct H as [a [b ->]].
  apply in_or_app. right. now left.
Qed.

(* ====================================================================== *)
(** ** Header locator *)
(* ====================================================================== *)

Lemma row_has_keyword_iff (kws : list pystr) (row : list cell) :
  row_has_keyword kws row = true <-> header_like kws row.
Proof.
  unfold row_has_keyword, header_like. rewrite existsb_exists. split.
  - intros [x [Hx Hk]]. apply in_map_iff in Hx. destruct Hx as [c [<- Hc]].
    apply existsb_exists in Hk. destruct Hk as [kw [Hkw Hin]].
    exists c, kw. now rewrite <- contains_substring.
  - intros [c [kw [Hc [Hkw Hsub]]]]. exists (normalize_text c). split.
    + now apply in_map.
    + apply existsb_exists. exists kw. now rewrite contains_substring.
Qed.

Lemma scan_rows_some (kws : list pystr) (rows : list (list cell)) :
  forall i0 i, scan_rows kws i0 rows = Some i ->
  exists j row,
    i = (i0 + j)%nat /\ nth_error rows j = Some row
    /\ row_has_keyword kws row = true
    /\ forall j' r, (j' < j)%nat -> nth_error rows j' = Some r ->
                    row_has_keyword kws r = false.
Proof.
  induction rows as [|row rest IH]; intros i0 i H; simpl in H; [discriminate|].
  destruct (row_has_keyword kws row) eqn:Hrow.
  - injection H as <-. exists 0%nat, row. repeat split; auto with arith.
    intros j' r Hlt. inversion Hlt.
  - apply IH in H. destruct H as [j [r [-> [Hn [Hr Hbefore]]]]].
    exists (S j), r. repeat split; auto with arith.
    intros [|j'] r' Hlt Hn'; simpl in Hn'.
    + now injection Hn' as <-.
    + apply (Hbefore j'); auto with arith.
Qed.

Lemma scan_rows_none (kws : list pystr) (rows : list (list cell)) :
  forall i0, scan_rows kws i0 rows = None ->
  forall row, In row rows -> row_has_keyword kws row = false.
Proof.
  induction rows as [|r rest IH]; intros i0 H row Hin; [contradiction|].
  simpl in H. destruct (row_has_keyword kws r) eqn:Hr; [discriminate|].
  destruct Hin as [<- | Hin]; [assumption | eauto].
Qed.

(** The keywords of the source are the keywords in force. *)
Lemma header_keywords_in_force (keywords : option (list pystr)) :
  header_keywords keywords = keywords_in_force keywords.
Proof.
  destruct keywords as [[|kw kws]|]; reflexivity.
Qed.

(** C6.  [find_header_row] returns the index of the topmost row in which
    some normalized cell contains some keyword (the keywords given,
    normalized, or "id", "статус", "площа", "ціна" when none is given), and 0
    when no row has one; on a sheet with two title rows above a header
    holding "ID" and "Статус" it returns 2, and so it does when told to look
    for the header "Поверх" of that row. *)
Theorem find_header_row_topmost (df : list (list cell)) (keywords : option (list pystr)) :
  let kws := keywords_in_force keywords in
  (forall i row,
      nth_error df i = Some row -> header_like kws row ->
      (forall j r, (j < i)%nat -> nth_error df j = Some r -> ~ header_like kws r) ->
      find_header_row df keywords = i)
  /\ ((forall row, In row df -> ~ header_like kws row) ->
      find_header_row df keywords = 0%nat)
  /\ find_header_row titled_grid None = 2%nat
  /\ find_header_row titled_grid (Some [u "Поверх"; u "Ярус"]) = 2%nat
  /\ find_header_row titled_grid (Some []) = 2%nat.
Proof.
  intros kws.
  split; [|split; [|split; [|split]]];
    [| |vm_compute; reflexivity ..];
    unfold find_header_row; rewrite header_keywords_in_force; fold kws.
  - intros i row Hi Hrow Htop.
    destruct (scan_rows kws 0 df) as [i'|] eqn:Hscan.
    + apply scan_rows_some in Hscan.
      destruct Hscan as [j [r [-> [Hj [Hr Hbefore]]]]]. simpl.
      destruct (Nat.lt_trichotomy j i) as [Hlt | [Heq | Hgt]].
      * exfalso. apply (Htop j r Hlt Hj). now apply row_has_keyword_iff.
      * assumption.
      * apply row_has_keyword_iff in Hrow.
        rewrite (Hbefore i row Hgt Hi) in Hrow. discriminate.
    + apply nth_error_In in Hi. apply row_has_keyword_iff in Hrow.
      rewrite (scan_rows_none _ _ _ Hscan row Hi) in Hrow. discriminate.
  - intros Hnone.
    destruct (scan_rows kws 0 df) as [i'|] eqn:Hscan; [|reflexivity].
    apply scan_rows_some in Hscan.
    destruct Hscan as [j [r [_ [Hj [Hr _]]]]].
    exfalso. apply (Hnone r (nth_error_In _ _ Hj)). now apply row_has_keyword_iff.
Qed.

(* ====================================================================== *)
(** ** Value cleaners *)
(* ====================================================================== *)

Lemma replace_go_in (old new : pystr) (x : N) (s : pystr) :
  forall k, In x (replace_go old new k s) -> In x s \/ In x new.
Proof.
  induction s as [|c t IH]; intros k H; simpl in H; [contradiction|].
  destruct k as [|k].
  - destruct (startswith old (c :: t)).
    + apply in_app_or in H. destruct H as [H | H]; [now right|].
      apply IH in H. destruct H; [left; now right | now right].
    + destruct H as [<- | H]; [left; now left|].
      apply IH in H. destruct H; [left; now right | now right].
  - apply IH in H. destruct H; [left; now right | now right].
Qed.

Lemma replace_keeps_out (old new : pystr) (x : N) (s : pystr) :
  ~ In x s -> ~ In x new -> ~ In x (replace old new s).
Proof.
  intros Hs Hnew H. apply replace_go_in in H. tauto.
Qed.

(** Replacing a single code point by text that does not hold it removes
    it. *)
Lemma replace_char_gone (c : N) (new s : pystr) :
  ~ In c new -> ~ In c (replace [c] new s).
Proof.
  intros Hnew. unfold replace. induction s as [|a t IH]; simpl; [tauto|].
  destruct (c =? a)%N eqn:Hca; simpl.
  - intros H. apply in_app_or in H. tauto.
  - intros [<- | H]; [|tauto]. now rewrite N.eqb_refl in Hca.
Qed.

Lemma currency_text_clean (val : cell) (c : N) :
  In c [32; 36; 44; 160]%N -> ~ In c (currency_text val).
Proof.
  unfold currency_text.
  change (u " ") with [32%N]. change (u "$") with [36%N].
  change (u ",") with [44%N]. change (u ".") with [46%N].
  set (s0 := py_str val).
  set (s1 := replace [32%N] [] s0).
  set (s2 := replace [36%N] [] s1).
  set (s3 := replace (u "грн") [] s2).
  set (s4 := replace [44%N] [46%N] s3).
  assert (H1 : ~ In 32%N s1) by (apply replace_char_gone; simpl; tauto).
  assert (H2 : ~ In 36%N s2) by (apply replace_char_gone; simpl; tauto).
  assert (H4 : ~ In 44%N s4)
    by (apply replace_char_gone; simpl; intros [H | H]; [discriminate H | exact H]).
  assert (Hdot : forall x, x <> 46%N -> ~ In x [46%N])
    by (intros x Hx [H | H]; [now apply Hx | exact H]).
  assert (Hside : forall x, x <> 46%N ->
                    (~ In x (@nil N)) /\ (~ In x [46%N]))
    by (intros x Hx; split; [apply in_nil | now apply Hdot]).
  intros [<- | [<- | [<- | [<- | []]]]].
  - destruct (Hside 32%N ltac:(discriminate)) as [Hn Hd].
    apply replace_keeps_out; [|exact Hn].
    apply replace_keeps_out; [|exact Hd].
    apply replace_keeps_out; [|exact Hn].
    apply replace_keeps_out; [exact H1 | exact Hn].
  - destruct (Hside 36%N ltac:(discriminate)) as [Hn Hd].
    apply replace_keeps_out; [|exact Hn].
    apply replace_keeps_out; [|exact Hd].
    apply replace_keeps_out; [exact H2 | exact Hn].
  - apply replace_keeps_out; [exact H4 | apply in_nil].
  - apply replace_char_gone. apply in_nil.
Qed.

(* ====================================================================== *)
(** ** Row extraction *)
(* ====================================================================== *)

Lemma round_binary64_not_nan (neg : bool) (num den : Z) :
  float_isnan (round_binary64 neg num den) = false.
Proof.
  unfold round_binary64.
  repeat match goal with
         | |- context [if ?b then _ else _] => destruct b
         | |- context [let (_, _) := ?p in _] => destruct p
         end; reflexivity.
Qed.

(** A number that is neither NaN nor [<= 0] is [> 0]. *)
Lemma num_gt0_of_filter (x : pynum) :
  num_isna x || num_le0 x = false -> num_gt0 x = true.
Proof.
  intros H. apply orb_false_elim in H. destruct H as [Hna Hle].
  destruct x as [z | f]; simpl in *.
  - apply Z.leb_gt in Hle. now apply Z.ltb_lt.
  - destruct f as [| n | n m e]; simpl in *; try discriminate.
    + now destruct n.
    + unfold fin_compare in *. rewrite Z.min_comm.
      rewrite Z.compare_antisym.
      destruct (signed n m * 2 ^ (e - Z.min e 0)
                ?= signed false 0 * 2 ^ (0 - Z.min e 0));
        simpl; congruence.
Qed.

(** What is known of a row that was appended to [results]. *)
Lemma process_row_emits (pd : series_repr) (cfg : config) (sheet_name : pystr)
      (columns : list cell) (cols : colmap) (i : nat) (row : list cell)
      (r : record) :
  process_row pd cfg sheet_name columns cols i row = Ok (Some r) ->
  exists complex_val,
    contains (u "вільно") (lower (text_if_col pd columns row i (status_col cols)))
    = true
    /\ call_if_col columns row (rooms_col cols) extract_room_count = Ok (Some (ROOMS r))
    /\ existsb (Z.eqb (ROOMS r)) [1; 2; 3] = true
    /\ if_col columns row (area_col cols) (fun v => Some (to_numeric v))
       = Ok (Some (AREA r))
    /\ num_isna (AREA r) || num_le0 (AREA r) = false
    /\ call_if_col columns row (price_m2_col cols) clean_currency = Ok (PRICE_PER_M2 r)
    /\ call_if_col columns row (total_price_col cols) clean_currency = Ok (TOTAL_PRICE r)
    /\ is_none (PRICE_PER_M2 r) && is_none (TOTAL_PRICE r) = false
    /\ if_col columns row (complex_col cols)
         (fun v => if isna v then None else Some (strip (py_str v)))
       = Ok complex_val
    /\ ID r = strip (text_if_col pd columns row i (id_col cols))
    /\ existsb (fun marker => contains (upper marker) (upper (ID r)))
               (EXCLUDED_ID_MARKERS cfg) = false
    /\ GROUP r =
       complex_from_sheet cfg sheet_name
         (complex_from_id cfg sheet_name (ID r)
            (match complex_val with Some name => name | None => sheet_name end)).
Proof.
  unfold process_row. intros H.
  destruct (contains (u "вільно") (lower (text_if_col pd columns row i (status_col cols))))
    eqn:Eav; cbn [negb] in H; try discriminate.
  destruct (call_if_col columns row (rooms_col cols) extract_room_count)
    as [[rooms |] |] eqn:Ero; cbn [bind] in H; try discriminate.
  destruct (existsb (Z.eqb rooms) [1; 2; 3]) eqn:Ein;
    cbn [negb] in H; try discriminate.
  destruct (if_col columns row (area_col cols) (fun v => Some (to_numeric v)))
    as [[area |] |] eqn:Ear; cbn [bind] in H; try discriminate.
  destruct (num_isna area || num_le0 area) eqn:Epos; try discriminate.
  destruct (call_if_col columns row (price_m2_col cols) clean_currency)
    as [pm |] eqn:Epm; cbn [bind] in H; try discriminate.
  destruct (call_if_col columns row (total_price_col cols) clean_currency)
    as [tp |] eqn:Etp; cbn [bind] in H; try discriminate.
  destruct (is_none pm && is_none tp) eqn:Epr; try discriminate.
  destruct (if_col columns row (complex_col cols) _)
    as [cv |] eqn:Ecv; cbn [bind] in H; try discriminate.
  destruct (existsb _ (EXCLUDED_ID_MARKERS cfg)) eqn:Eex; try discriminate.
  injection H as <-. exists cv. cbn [GROUP ROOMS ID AREA PRICE_PER_M2 TOTAL_PRICE].
  repeat (split; [assumption || reflexivity |]). reflexivity.
Qed.

Lemma process_rows_from_row (pd : series_repr) (cfg : config) (sheet_name : pystr)
      (columns : list cell) (cols : colmap) (rows : list (list cell)) :
  forall i results,
  process_rows pd cfg sheet_name columns cols i rows = Ok results ->
  forall r, In r results ->
  exists j row,
    In row rows /\ process_row pd cfg sheet_name columns cols j row = Ok (Some r).
Proof.
  induction rows as [|row rest IH]; intros i results H r Hin; simpl in H.
  - injection H as <-. contradiction.
  - destruct (process_row pd cfg sheet_name columns cols i row) as [o |] eqn:Erow;
      cbn [bind] in H; try discriminate.
    destruct (process_rows pd cfg sheet_name columns cols (S i) rest)
      as [rs |] eqn:Erest; cbn [bind] in H; try discriminate.
    injection H as <-.
    destruct o as [rec |].
    + destruct Hin as [<- | Hin].
      * exists i, row. split; [now left | assumption].
      * destruct (IH _ rs Erest r Hin) as [j [row' [Hr Hp]]].
        exists j, row'. split; [now right | assumption].
    + destruct (IH _ rs Erest r Hin) as [j [row' [Hr Hp]]].
      exists j, row'. split; [now right | assumption].
Qed.

(** The records of a sheet come from the rows below its header. *)
Lemma process_sheet_from_row (pd : series_repr) (cfg : config)
      (df : list (list cell)) (sheet_name : pystr) (results : list record) :
  process_sheet pd cfg df sheet_name = Ok results ->
  exists columns,
    nth_error df (find_header_row df None) = Some columns
    /\ forall r, In r results ->
       exists j row, In row df
         /\ process_row pd cfg sheet_name columns (identify_columns columns) j row
            = Ok (Some r).
Proof.
  unfold process_sheet. intros H.
  destruct (nth_error df (find_header_row df None)) as [columns |] eqn:Eh;
    [|discriminate].
  exists columns. split; [reflexivity|]. intros r Hin.
  destruct (process_rows_from_row _ _ _ _ _ _ _ _ H r Hin) as [j [row [Hrow Hp]]].
  exists j, row. split; [|assumption].
  rewrite <- (firstn_skipn (S (find_header_row df None)) df).
  apply in_or_app. now right.
Qed.

Lemma rooms_in_123 (z : Z) :
  existsb (Z.eqb z) [1; 2; 3] = true -> In z [1; 2; 3].
Proof.
  intros H. apply existsb_exists in H. destruct H as [x [Hx Heq]].
  apply Z.eqb_eq in Heq. now subst.
Qed.

Lemma process_row_record_ok (pd : series_repr) (cfg : config) (sheet_name : pystr)
      (columns : list cell) (cols : colmap) (i : nat) (row : list cell)
      (r : record) :
  process_row pd cfg sheet_name columns cols i row = Ok (Some r) -> record_ok r.
Proof.
  intros H. apply process_row_emits in H.
  destruct H as [cv (_ & _ & Hrooms & _ & Harea & _ & _ & Hprice & _)].
  repeat split.
  - now apply rooms_in_123.
  - now apply num_gt0_of_filter.
  - destruct (PRICE_PER_M2 r); [left; discriminate|].
    destruct (TOTAL_PRICE r); [right; discriminate | discriminate].
Qed.

(** C3.  Every record [process_sheet] returns, for any grid, sheet name and
    configuration, has a room count in [{1, 2, 3}], an area that is a number
    greater than 0, and at least one of its two prices present. *)
Theorem process_sheet_invariants (pd : series_repr) (cfg : config)
        (df : list (list cell)) (sheet_name : pystr) (results : list record) :
  process_sheet pd cfg df sheet_name = Ok results ->
  Forall record_ok results.
Proof.
  intros H. apply Forall_forall. intros r Hin.
  destruct (process_sheet_from_row _ _ _ _ _ H) as [columns [_ Hrows]].
  destruct (Hrows r Hin) as [j [row [_ Hp]]].
  now apply process_row_record_ok in Hp.
Qed.

Lemma process_sheet_invariants_witness :
  process_sheet no_series no_rules sample_grid (u "ComplexA") = Ok sample_records
  /\ Forall record_ok sample_records.
Proof.
  assert (H : process_sheet no_series no_rules sample_grid (u "ComplexA")
              = Ok sample_records)
    by (vm_compute; reflexivity).
  split; [exact H | exact (process_sheet_invariants _ _ _ _ _ H)].
Defined.

Lemma process_row_without_status (pd : series_repr) (cfg : config)
      (sheet_name : pystr) (columns : list cell) (cols : colmap)
      (i : nat) (row : list cell) :
  status_col cols = None ->
  process_row pd cfg sheet_name columns cols i row = Ok None.
Proof.
  intros H. unfold process_row. rewrite H. reflexivity.
Qed.

Lemma process_rows_without_status (pd : series_repr) (cfg : config)
      (sheet_name : pystr) (columns : list cell) (cols : colmap)
      (rows : list (list cell)) :
  status_col cols = None ->
  forall i, process_rows pd cfg sheet_name columns cols i rows = Ok [].
Proof.
  intros H. induction rows as [|row rest IH]; intros i; simpl; [reflexivity|].
  rewrite (process_row_without_status _ _ _ _ _ _ _ H), IH. reflexivity.
Qed.

(** C8.  When the header row of a sheet yields no status column, every data
    row fails the availability filter and [process_sheet] returns the empty
    list. *)
Theorem no_status_column_no_records (pd : series_repr) (cfg : config)
        (df : list (list cell)) (sheet_name : pystr) (columns : list cell) :
  nth_error df (find_header_row df None) = Some columns ->
  find_best_column columns status_keywords None = None ->
  process_sheet pd cfg df sheet_name = Ok [].
Proof.
  intros Hh Hs. unfold process_sheet. rewrite Hh.
  now apply process_rows_without_status.
Qed.

Lemma no_status_column_no_records_witness :
  process_sheet no_series no_rules grid_without_status (u "ComplexA") = Ok [].
Proof.
  apply (no_status_column_no_records no_series no_rules grid_without_status
           (u "ComplexA")
           [text "ID"; text "Розмір"; text "Площа"; text "ціна за метр"]).
  - vm_compute. reflexivity.
  - vm_compute. reflexivity.
Defined.

Lemma complex_from_sheet_first (cfg : config) (sheet_name name : pystr)
      (rule : sheet_rule) :
  find (sheet_rule_applies sheet_name) (SHEET_TO_COMPLEX_RULES cfg) = Some rule ->
  complex_from_sheet cfg sheet_name name = sheet_complex_name rule.
Proof.
  intros H. unfold complex_from_sheet. now rewrite H.
Qed.

(** C7, amended.  The sheet-name remap is applied last and unconditionally,
    and its test ignores letter case: when the lower-cased sheet name
    contains the lower-cased fragment of some sheet rule, every record of
    the sheet has as group the complex name of the first such rule, whatever
    the complex column or the ID rules gave. *)
Theorem sheet_remap_overrides (pd : series_repr) (cfg : config)
        (df : list (list cell)) (sheet_name : pystr) (results : list record)
        (rule : sheet_rule) :
  process_sheet pd cfg df sheet_name = Ok results ->
  find (sheet_rule_applies sheet_name) (SHEET_TO_COMPLEX_RULES cfg) = Some rule ->
  Forall (fun r => GROUP r = sheet_complex_name rule) results.
Proof.
  intros H Hrule. apply Forall_forall. intros r Hin.
  destruct (process_sheet_from_row _ _ _ _ _ H) as [columns [_ Hrows]].
  destruct (Hrows r Hin) as [j [row [_ Hp]]].
  apply process_row_emits in Hp.
  destruct Hp as [cv Hp].
  decompose [and] Hp.
  match goal with Hg : GROUP r = _ |- _ => rewrite Hg end.
  now apply complex_from_sheet_first.
Qed.

Lemma sheet_remap_overrides_witness :
  process_sheet no_series phase_rules sample_grid phase_sheet_name
  = Ok (map (fun r => {| GROUP := u "ComplexA Phase 1"; ROOMS := ROOMS r;
                         ID := ID r; AREA := AREA r;
                         PRICE_PER_M2 := PRICE_PER_M2 r;
                         TOTAL_PRICE := TOTAL_PRICE r |}) sample_records)
  /\ Forall (fun r => GROUP r = sheet_complex_name phase_rule_lower)
            (map (fun r => {| GROUP := u "ComplexA Phase 1"; ROOMS := ROOMS r;
                              ID := ID r; AREA := AREA r;
                              PRICE_PER_M2 := PRICE_PER_M2 r;
                              TOTAL_PRICE := TOTAL_PRICE r |}) sample_records).
Proof.
  assert (H : process_sheet no_series phase_rules sample_grid phase_sheet_name
              = Ok (map (fun r => {| GROUP := u "ComplexA Phase 1"; ROOMS := ROOMS r;
                                     ID := ID r; AREA := AREA r;
                                     PRICE_PER_M2 := PRICE_PER_M2 r;
                                     TOTAL_PRICE := TOTAL_PRICE r |}) sample_records))
    by (vm_compute; reflexivity).
  split; [exact H|].
  apply (sheet_remap_overrides no_series phase_rules sample_grid phase_sheet_name _
           phase_rule_lower H).
  vm_compute. reflexivity.
Defined.

(** C7 as stated fails: with the fragments "phase1" and "Phase1" configured
    in that order, the first rule whose fragment occurs in the sheet name
    "Building Phase1 East" is the second one, yet the records carry the
    complex name of the first. *)
Lemma sheet_remap_exact_counterexample :
  find (sheet_rule_applies_exact phase_sheet_name) (SHEET_TO_COMPLEX_RULES phase_rules)
  = Some phase_rule_upper
  /\ sheet_complex_name phase_rule_upper = u "ComplexB"
  /\ (exists results,
        process_sheet no_series phase_rules sample_grid phase_sheet_name = Ok results
        /\ results <> []
        /\ Forall (fun r => GROUP r = u "ComplexA Phase 1") results
        /\ ~ Forall (fun r => GROUP r = sheet_complex_name phase_rule_upper) results).
Proof.
  split; [vm_compute; reflexivity|]. split; [reflexivity|].
  destruct (process_sheet no_series phase_rules sample_grid phase_sheet_name)
    as [results |] eqn:E; try (vm_compute in E; discriminate).
  exists results. split; [reflexivity|].
  vm_compute in E. injection E as <-.
  split; [discriminate|]. split.
  - repeat constructor.
  - intros H. inversion H as [|x l Hx Hl]. vm_compute in Hx. discriminate.
Qed.

(* ====================================================================== *)
(** ** Summary of a single record *)
(* ====================================================================== *)

Lemma key_eqb_refl (k : pystr * Z) : key_eqb k k = true.
Proof.
  unfold key_eqb. now rewrite str_eqb_refl, Z.eqb_refl.
Qed.

Lemma first_extreme_single (before : pyfloat -> pyfloat -> bool)
      (value : record -> pyfloat) (r : record) :
  float_isnan (value r) = false -> first_extreme before value [r] = Some r.
Proof.
  intros H. unfold first_extreme. simpl. now rewrite H.
Qed.

Lemma to_float_not_nan (x : pynum) :
  num_isna x = false -> float_isnan (to_float x) = false.
Proof.
  destruct x as [z | f]; simpl.
  - intros _. apply round_binary64_not_nan.
  - now destruct f.
Qed.

Lemma div_half_even_bound (num den : Z) :
  0 <= num -> 0 < den -> 0 <= div_half_even num den <= num / den + 1.
Proof.
  intros Hn Hd. unfold div_half_even.
  pose proof (Z.div_pos num den Hn Hd).
  destruct (_ || _); lia.
Qed.

(** An integer below [2^64] rounds to a finite float. *)
Lemma round_int_finite (neg : bool) (num : Z) :
  num < 2 ^ 64 -> forall n, round_binary64 neg num 1 <> FInf n.
Proof.
  intros Hb n. unfold round_binary64.
  destruct (num <=? 0) eqn:E0; [discriminate|]. apply Z.leb_gt in E0.
  change (Z.log2 1) with 0. rewrite Z.sub_0_r.
  set (l := Z.log2 num).
  assert (Hl : 0 <= l < 64).
  { split; [apply Z.log2_nonneg|]. apply Z.log2_lt_pow2; lia. }
  match goal with |- context [Z.max (?x - 52) _] => set (f := x) end.
  assert (Hf : l - 1 <= f <= l)
    by (unfold f; destruct (if 0 <=? l then _ else _); lia).
  set (E := Z.max (f - 52) (-1074)).
  assert (HE : -53 <= E <= 11) by (unfold E; lia).
  match goal with |- context [?x =? 0] => set (M := x) end.
  assert (HM : 0 <= M < 2 ^ 200).
  { assert (H200 : 2 ^ 64 * 2 ^ 53 + 1 < 2 ^ 200) by (vm_compute; reflexivity).
    assert (H64 : 0 < 2 ^ 64) by (vm_compute; reflexivity).
    assert (H53 : 0 < 2 ^ 53) by (vm_compute; reflexivity).
    unfold M. destruct (0 <=? E) eqn:EE.
    - apply Z.leb_le in EE. rewrite Z.mul_1_l.
      assert (0 < 2 ^ E) by (apply Z.pow_pos_nonneg; lia).
      pose proof (div_half_even_bound num (2 ^ E) ltac:(lia) ltac:(lia)).
      assert (num / 2 ^ E <= num) by (apply Z.div_le_upper_bound; nia).
      nia.
    - apply Z.leb_gt in EE.
      assert (0 < 2 ^ (- E)) by (apply Z.pow_pos_nonneg; lia).
      pose proof (div_half_even_bound (num * 2 ^ (- E)) 1 ltac:(nia) ltac:(lia)).
      rewrite Z.div_1_r in *.
      assert (2 ^ (- E) <= 2 ^ 53) by (apply Z.pow_le_mono_r; lia).
      nia. }
  destruct (M =? 0) eqn:EM; [discriminate|].
  destruct (1024 <? Z.log2 M + E + 1) eqn:Ebig;
    [|destruct (strip_twos 64 M E); discriminate].
  exfalso. apply Z.ltb_lt in Ebig. apply Z.eqb_neq in EM.
  assert (Z.log2 M < 200) by (apply Z.log2_lt_pow2; lia).
  lia.
Qed.

(** An area in range is printed, as its float value. *)
Lemma format_area_ok (a : pynum) :
  area_in_range a -> format_area a = Ok (format_f false 1 (to_float a)).
Proof.
  destruct a as [z | f]; [|reflexivity]. intros H. simpl in H.
  unfold format_area, int_to_float, to_float.
  destruct (float_of_int z) as [| n |] eqn:E; try reflexivity.
  exfalso. revert E. apply round_int_finite.
  assert (2 ^ 63 < 2 ^ 64) by (vm_compute; reflexivity). lia.
Qed.

Lemma format_area_raises (a : pynum) (e : pyexn) :
  format_area a = Raises e -> e = OverflowError.
Proof.
  destruct a as [z | f]; [|discriminate]. unfold format_area, int_to_float.
  destruct (float_of_int z); cbn [bind]; try discriminate.
  intros H. now injection H.
Qed.

Lemma generate_summary_single (r : record) :
  price_complete r = true ->
  num_isna (AREA r) = false ->
  area_in_range (AREA r) ->
  generate_summary [r] =
  Ok [ {| Summary.GROUP := GROUP r;
          Summary.ROOMS := str_int (ROOMS r);
          Summary.MIN_AREA := format_f false 1 (to_float (AREA r));
          Summary.MAX_AREA := format_f false 1 (to_float (AREA r));
          Summary.MIN_PRICE_PER_M2 :=
            price_with_id (price_value (PRICE_PER_M2 r)) (ID r);
          Summary.MAX_PRICE_PER_M2 :=
            price_with_id (price_value (PRICE_PER_M2 r)) (ID r);
          Summary.MIN_TOTAL_PRICE :=
            price_with_id (price_value (TOTAL_PRICE r)) (ID r) |} ].
Proof.
  intros Hpc Harea Hrange. unfold generate_summary. cbn [is_empty filter].
  rewrite Hpc. cbn [group_keys fold_right insert_key summarize_all group_of filter].
  rewrite key_eqb_refl. unfold summarize, idxmin, idxmax.
  apply to_float_not_nan in Harea.
  unfold price_complete in Hpc. apply andb_true_iff in Hpc.
  destruct Hpc as [Hp Ht]. apply negb_true_iff in Hp, Ht.
  rewrite !(first_extreme_single _ (fun r0 => to_float (AREA r0)) r Harea).
  rewrite !(first_extreme_single _ (fun r0 => price_value (PRICE_PER_M2 r0)) r Hp).
  rewrite !(first_extreme_single _ (fun r0 => price_value (TOTAL_PRICE r0)) r Ht).
  cbn [loc bind]. rewrite (format_area_ok _ Hrange). reflexivity.
Qed.

(* ====================================================================== *)
(** ** Blank identifiers *)
(* ====================================================================== *)

(** C9.  When an ID column is resolved and the ID cell of a row is blank
    (NaN), the record extracted from the row has the ID "nan": the
    exclusion filter tested the markers against "NAN", and the price fields
    of the summary of the record, when it has both prices and an area in
    the range of a numeric column, show "(nan)" after the price. *)
Theorem blank_id_becomes_nan (pd : series_repr) (cfg : config)
        (sheet_name : pystr) (columns : list cell) (cols : colmap)
        (i : nat) (row : list cell) (c : cell) (r : record) :
  id_col cols = Some c ->
  truthy c = true ->
  row_get columns row c (CStr []) = Scalar CNaN ->
  process_row pd cfg sheet_name columns cols i row = Ok (Some r) ->
  ID r = u "nan"
  /\ existsb (fun marker => contains (upper marker) (u "NAN"))
             (EXCLUDED_ID_MARKERS cfg) = false
  /\ (price_complete r = true ->
      area_in_range (AREA r) ->
      exists srow,
        generate_summary [r] = Ok [srow]
        /\ Summary.MIN_PRICE_PER_M2 srow
           = format_f true 0 (price_value (PRICE_PER_M2 r)) ++ u " (nan)"
        /\ Summary.MAX_PRICE_PER_M2 srow
           = format_f true 0 (price_value (PRICE_PER_M2 r)) ++ u " (nan)"
        /\ Summary.MIN_TOTAL_PRICE srow
           = format_f true 0 (price_value (TOTAL_PRICE r)) ++ u " (nan)").
Proof.
  intros Hcol Htruthy Hget Hrow.
  apply process_row_emits in Hrow.
  destruct Hrow as [cv Hrow].
  destruct Hrow as (_ & _ & _ & _ & Harea & _ & _ & _ & _ & HID & Hex & _).
  unfold text_if_col in HID. rewrite Hcol, Htruthy in HID.
  unfold get_text in HID. rewrite Hget in HID.
  change (strip (py_str CNaN)) with (u "nan") in HID.
  rewrite HID in Hex. change (upper (u "nan")) with (u "NAN") in Hex.
  split; [assumption|]. split; [assumption|].
  intros Hpc Hrange. apply orb_false_elim in Harea. destruct Harea as [Hna _].
  eexists. split; [apply (generate_summary_single r Hpc Hna Hrange)|].
  cbn [Summary.MIN_PRICE_PER_M2 Summary.MAX_PRICE_PER_M2 Summary.MIN_TOTAL_PRICE].
  unfold price_with_id. rewrite HID.
  repeat split.
Qed.

Lemma blank_id_becomes_nan_witness :
  ID record_without_id = u "nan"
  /\ existsb (fun marker => contains (upper marker) (u "NAN"))
             (EXCLUDED_ID_MARKERS no_rules) = false
  /\ (price_complete record_without_id = true ->
      area_in_range (AREA record_without_id) ->
      exists srow,
        generate_summary [record_without_id] = Ok [srow]
        /\ Summary.MIN_PRICE_PER_M2 srow
           = format_f true 0 (price_value (PRICE_PER_M2 record_without_id)) ++ u " (nan)"
        /\ Summary.MAX_PRICE_PER_M2 srow
           = format_f true 0 (price_value (PRICE_PER_M2 record_without_id)) ++ u " (nan)"
        /\ Summary.MIN_TOTAL_PRICE srow
           = format_f true 0 (price_value (TOTAL_PRICE record_without_id)) ++ u " (nan)").
Proof.
  apply (blank_id_becomes_nan no_series no_rules (u "ComplexA") sample_columns
           (identify_columns sample_columns) 2 row_without_id (text "ID")).
  - vm_compute. reflexivity.
  - vm_compute. reflexivity.
  - vm_compute. reflexivity.
  - vm_compute. reflexivity.
Defined.

(* ====================================================================== *)
(** ** Numeric coercion of the area *)
(* ====================================================================== *)

Lemma isdigit_number_char (c : N) : isdigit c = true -> number_char c = true.
Proof. intros H. unfold number_char. now rewrite H. Qed.

Lemma scan_digits_plain (s : pystr) :
  forall prev ds r, scan_digits false prev s = (ds, r) ->
  s = ds ++ r /\ plain ds.
Proof.
  induction s as [|c t IH]; intros prev ds r H; simpl in H.
  - injection H as <- <-. split; [reflexivity | constructor].
  - destruct (isdigit c) eqn:Hd.
    + destruct (scan_digits false true t) as [ds' r'] eqn:E.
      injection H as <- <-. destruct (IH _ _ _ E) as [-> Hp].
      split; [reflexivity | constructor; [now apply isdigit_number_char | exact Hp]].
    + injection H as <- <-. split; [reflexivity | constructor].
Qed.

Lemma take_sign_plain (s : pystr) (neg : bool) (r : pystr) :
  take_sign s = (neg, r) -> exists pre, s = pre ++ r /\ plain pre.
Proof.
  unfold take_sign. destruct s as [|c t].
  - intros H. injection H as <- <-. exists []. split; [reflexivity | constructor].
  - destruct (c =? 45)%N eqn:E1; [|destruct (c =? 43)%N eqn:E2];
      intros H; injection H as <- <-.
    + apply N.eqb_eq in E1. subst c. exists [45%N].
      split; [reflexivity | repeat constructor].
    + apply N.eqb_eq in E2. subst c. exists [43%N].
      split; [reflexivity | repeat constructor].
    + exists []. split; [reflexivity | constructor].
Qed.

Lemma lstrip_ascii_plain (s : pystr) :
  exists pre, s = pre ++ lstrip_ascii s /\ plain pre.
Proof.
  induction s as [|c t [pre [Ht Hp]]]; simpl.
  - exists []. split; [reflexivity | constructor].
  - destruct (isspace_ascii c) eqn:E.
    + exists (c :: pre). split; [now rewrite Ht at 1|].
      constructor; [|exact Hp]. unfold number_char. rewrite E, orb_true_r. reflexivity.
    + exists []. split; [reflexivity | constructor].
Qed.

Lemma scan_fraction_plain (s fp r : pystr) (dot : bool) :
  scan_fraction false s = (fp, r, dot) ->
  exists pre, s = pre ++ r /\ plain pre.
Proof.
  unfold scan_fraction. destruct s as [|c t].
  - intros H. injection H as <- <- <-. exists []. split; [reflexivity | constructor].
  - destruct (c =? 46)%N eqn:E.
    + destruct (scan_digits false false t) as [fp' r'] eqn:Es.
      intros H. injection H as <- <- <-.
      destruct (scan_digits_plain _ _ _ _ Es) as [-> Hp].
      apply N.eqb_eq in E. subst c. exists (46%N :: fp').
      split; [reflexivity | constructor; [reflexivity | exact Hp]].
    + intros H. injection H as <- <- <-. exists [].
      split; [reflexivity | constructor].
Qed.

Lemma scan_exponent_plain (s : pystr) (x : option Z) (r : pystr) :
  scan_exponent false s = Some (x, r) ->
  exists pre, s = pre ++ r /\ plain pre.
Proof.
  unfold scan_exponent. destruct s as [|c t].
  - intros H. injection H as <- <-. exists []. split; [reflexivity | constructor].
  - destruct ((c =? 101) || (c =? 69))%N eqn:E.
    + destruct (take_sign t) as [eneg t'] eqn:Et.
      destruct (scan_digits false false t') as [ed r'] eqn:Es.
      destruct ed as [|d ed']; [discriminate|].
      intros H. injection H as <- <-.
      destruct (take_sign_plain _ _ _ Et) as [p1 [-> Hp1]].
      destruct (scan_digits_plain _ _ _ _ Es) as [-> Hp2].
      exists (c :: p1 ++ d :: ed'). split.
      * simpl. now rewrite <- app_assoc.
      * constructor.
        -- apply orb_true_iff in E.
           destruct E as [E | E]; apply N.eqb_eq in E; subst c; reflexivity.
        -- apply Forall_app. now split.
    + intros H. injection H as <- <-. exists [].
      split; [reflexivity | constructor].
Qed.

Lemma parse_decimal_plain (s : pystr) (m : N) (e : Z) (b : bool) (rest : pystr) :
  parse_decimal false s = Some (m, e, b, rest) ->
  exists pre, s = pre ++ rest /\ plain pre.
Proof.
  unfold parse_decimal.
  destruct (scan_digits false false s) as [ip r1] eqn:E1.
  destruct (scan_fraction false r1) as [[fp r2] dot] eqn:E2.
  destruct (ip ++ fp) as [|d ds]; [discriminate|].
  destruct (scan_exponent false r2) as [[x r3]|] eqn:E3; [|discriminate].
  intros H.
  assert (rest = r3) as -> by (destruct x; now injection H).
  destruct (scan_digits_plain _ _ _ _ E1) as [-> Hp1].
  destruct (scan_fraction_plain _ _ _ _ E2) as [p2 [-> Hp2]].
  destruct (scan_exponent_plain _ _ _ E3) as [p3 [-> Hp3]].
  exists (ip ++ p2 ++ p3). split.
  - now rewrite <- !app_assoc.
  - apply Forall_app. split; [exact Hp1|]. apply Forall_app. now split.
Qed.

Lemma word_plain (w r : pystr) :
  (forall x, In x w -> In x [105; 110; 102; 116; 121; 97]%N) ->
  lower r = w -> plain r.
Proof.
  intros Hw Hl. apply Forall_forall. intros c Hc.
  assert (Hin : In (lower_cp c) w) by (rewrite <- Hl; now apply in_map).
  apply Hw in Hin. unfold number_char.
  apply orb_true_iff. right. apply existsb_exists.
  exists (lower_cp c). split; [|apply N.eqb_refl].
  simpl in *. tauto.
Qed.

Lemma parse_special_plain (s : pystr) (x : pynum) :
  parse_special s = Some x -> plain s.
Proof.
  unfold parse_special. destruct (take_sign s) as [neg r] eqn:Es.
  destruct (take_sign_plain _ _ _ Es) as [pre [-> Hpre]].
  intros H. apply Forall_app. split; [exact Hpre|].
  destruct (str_eqb (lower r) word_nan) eqn:E1.
  { apply str_eqb_eq in E1. apply (word_plain word_nan); [|exact E1].
    unfold word_nan. simpl. tauto. }
  destruct (str_eqb (lower r) word_inf) eqn:E2.
  { apply str_eqb_eq in E2. apply (word_plain word_inf); [|exact E2].
    unfold word_inf. simpl. tauto. }
  destruct (str_eqb (lower r) word_infinity) eqn:E3; [|discriminate].
  apply str_eqb_eq in E3. apply (word_plain word_infinity); [|exact E3].
  unfold word_infinity. simpl. tauto.
Qed.

(** Text that pandas converts to a number is made of [number_char]s. *)
Lemma parse_numeric_plain (s : pystr) (x : pynum) :
  parse_numeric s = Some x -> plain s.
Proof.
  unfold parse_numeric.
  destruct (take_sign (lstrip_ascii s)) as [neg r] eqn:Es.
  destruct (parse_decimal false r) as [[[[m e] b] rest]|] eqn:Ed;
    [|apply parse_special_plain].
  destruct (lstrip_ascii rest) as [|c t] eqn:Er; [|apply parse_special_plain].
  intros _.
  destruct (lstrip_ascii_plain s) as [p0 [Hs Hp0]].
  destruct (take_sign_plain _ _ _ Es) as [p1 [Hs1 Hp1]].
  destruct (parse_decimal_plain _ _ _ _ _ Ed) as [p2 [-> Hp2]].
  destruct (lstrip_ascii_plain rest) as [p3 [Hs3 Hp3]].
  rewrite Er, app_nil_r in Hs3. subst rest.
  rewrite Hs, Hs1. repeat (apply Forall_app; split); assumption.
Qed.

Lemma decorated_not_plain (s : pystr) : decorated s -> ~ plain s.
Proof.
  intros Hd Hp. unfold plain in Hp. rewrite Forall_forall in Hp.
  assert (H : exists c, In c s /\ number_char c = false).
  { destruct Hd as [H | [H | [H | H]]].
    - now exists 44%N.
    - now exists 36%N.
    - now exists 160%N.
    - exists 1075%N. split; [|reflexivity].
      change (u "грн") with [1075; 1088; 1085]%N in H.
      now apply contains_head_in in H. }
  destruct H as [c [Hin Hc]]. rewrite (Hp c Hin) in Hc. discriminate.
Qed.

Lemma to_numeric_decorated (s : pystr) :
  decorated s -> to_numeric (CStr s) = NFloat FNaN.
Proof.
  intros Hd. simpl. destruct (parse_numeric s) as [x|] eqn:E; [|reflexivity].
  exfalso. apply (decorated_not_plain s Hd). now apply parse_numeric_plain in E.
Qed.

(** C10.  The area is read with [pd.to_numeric], not with
    [clean_currency]: area text with a decimal comma or a currency
    decoration is coerced to NaN and its row yields no record, although
    [clean_currency] reads "45,5" as 45.5. *)
Theorem decorated_area_rejected (s : pystr) :
  decorated s ->
  to_numeric (CStr s) = NFloat FNaN
  /\ (forall pd cfg sheet_name columns cols i row c r,
        area_col cols = Some c ->
        row_get columns row c CNone = Scalar (CStr s) ->
        process_row pd cfg sheet_name columns cols i row <> Ok (Some r))
  /\ to_numeric (text "45,5") = NFloat FNaN
  /\ clean_currency (Scalar (text "45,5")) = Ok (Some (fl "45.5")).
Proof.
  intros Hd. split; [now apply to_numeric_decorated|].
  split; [|split; vm_compute; reflexivity].
  intros pd cfg sheet_name columns cols i row c r Hcol Hget Hrow.
  apply process_row_emits in Hrow.
  destruct Hrow as [cv Hrow].
  destruct Hrow as (_ & _ & _ & Harea & Hpos & _).
  unfold if_col in Harea. rewrite Hcol in Harea.
  destruct (truthy c); [|discriminate].
  unfold get_scalar in Harea. rewrite Hget in Harea. cbn [bind] in Harea.
  injection Harea as Harea.
  assert (Hnan : AREA r = NFloat FNaN)
    by (rewrite <- Harea; apply (to_numeric_decorated s Hd)).
  rewrite Hnan in Hpos. discriminate.
Qed.

Lemma decorated_area_rejected_witness :
  decorated (u "45,5")
  /\ to_numeric (CStr (u "45,5")) = NFloat FNaN
  /\ (forall pd cfg sheet_name columns cols i row c r,
        area_col cols = Some c ->
        row_get columns row c CNone = Scalar (CStr (u "45,5")) ->
        process_row pd cfg sheet_name columns cols i row <> Ok (Some r))
  /\ to_numeric (text "45,5") = NFloat FNaN
  /\ clean_currency (Scalar (text "45,5")) = Ok (Some (fl "45.5")).
Proof.
  assert (Hd : decorated (u "45,5")) by (left; vm_compute; tauto).
  split; [exact Hd | exact (decorated_area_rejected (u "45,5") Hd)].
Defined.

(** The row of [row_comma_area] passes the status and rooms filters and
    stops at the area filter. *)
Example comma_area_row_skipped :
  process_row no_series no_rules (u "ComplexA") sample_columns
    (identify_columns sample_columns) 3 row_comma_area = Ok None.
Proof. vm_compute. reflexivity. Qed.

(* ====================================================================== *)
(** ** Order of the group keys *)
(* ====================================================================== *)

Lemma str_leb_refl (a : pystr) : str_leb a a = true.
Proof.
  induction a as [|x a IH]; simpl; [reflexivity|].
  now rewrite N.ltb_irrefl.
Qed.

Lemma str_leb_total (a b : pystr) : str_leb a b = false -> str_leb b a = true.
Proof.
  revert b; induction a as [|x a IH]; intros [|y b]; simpl; try easy.
  destruct (x <? y)%N eqn:Exy; [discriminate|].
  destruct (y <? x)%N eqn:Eyx; [reflexivity|]. apply IH.
Qed.

Lemma str_leb_antisym (a b : pystr) :
  str_leb a b = true -> str_leb b a = true -> a = b.
Proof.
  revert b; induction a as [|x a IH]; intros [|y b]; simpl; try easy.
  destruct (x <? y)%N eqn:Exy; destruct (y <? x)%N eqn:Eyx; try discriminate.
  - apply N.ltb_lt in Exy, Eyx. lia.
  - intros H1 H2. apply N.ltb_ge in Exy, Eyx.
    f_equal; [lia | now apply IH].
Qed.

Lemma str_leb_trans (a b c : pystr) :
  str_leb a b = true -> str_leb b c = true -> str_leb a c = true.
Proof.
  revert b c; induction a as [|x a IH]; intros [|y b] [|z c]; simpl; try easy.
  destruct (x <? y)%N eqn:Exy; destruct (y <? x)%N eqn:Eyx;
    destruct (y <? z)%N eqn:Eyz; destruct (z <? y)%N eqn:Ezy;
    destruct (x <? z)%N eqn:Exz; destruct (z <? x)%N eqn:Ezx;
    try discriminate; try reflexivity;
    repeat match goal with
           | H : (_ <? _)%N = true |- _ => apply N.ltb_lt in H
           | H : (_ <? _)%N = false |- _ => apply N.ltb_ge in H
           end; try lia.
  apply IH.
Qed.

Lemma key_eqb_eq (a b : pystr * Z) : key_eqb a b = true <-> a = b.
Proof.
  destruct a as [g1 n1], b as [g2 n2]. unfold key_eqb. simpl.
  rewrite andb_true_iff, str_eqb_eq, Z.eqb_eq. split.
  - now intros [-> ->].
  - intros H. now injection H.
Qed.

Lemma key_leb_total (a b : pystr * Z) : key_leb a b = false -> key_leb b a = true.
Proof.
  destruct a as [g1 n1], b as [g2 n2]. unfold key_leb. simpl.
  destruct (str_eqb g1 g2) eqn:E.
  - apply str_eqb_eq in E. subst g2. rewrite str_eqb_refl.
    intros H. apply Z.leb_gt in H. apply Z.leb_le. lia.
  - assert (E' : str_eqb g2 g1 = false).
    { destruct (str_eqb g2 g1) eqn:E'; [|reflexivity].
      apply str_eqb_eq in E'. subst. now rewrite str_eqb_refl in E. }
    rewrite E'. apply str_leb_total.
Qed.

Lemma key_leb_antisym (a b : pystr * Z) :
  key_leb a b = true -> key_leb b a = true -> a = b.
Proof.
  destruct a as [g1 n1], b as [g2 n2]. unfold key_leb. simpl.
  destruct (str_eqb g1 g2) eqn:E.
  - apply str_eqb_eq in E. subst g2. rewrite str_eqb_refl.
    intros H1 H2. apply Z.leb_le in H1, H2. f_equal. lia.
  - intros H1 H2.
    destruct (str_eqb g2 g1) eqn:E'.
    + apply str_eqb_eq in E'. subst. now rewrite str_eqb_refl in E.
    + rewrite (str_leb_antisym _ _ H1 H2), str_eqb_refl in E. discriminate.
Qed.

Lemma key_leb_trans (a b c : pystr * Z) :
  key_leb a b = true -> key_leb b c = true -> key_leb a c = true.
Proof.
  destruct a as [g1 n1], b as [g2 n2], c as [g3 n3]. unfold key_leb. simpl.
  destruct (str_eqb g1 g2) eqn:E12.
  - apply str_eqb_eq in E12. subst g2.
    destruct (str_eqb g1 g3) eqn:E13; [|auto].
    intros H1 H2. apply Z.leb_le in H1, H2. apply Z.leb_le. lia.
  - destruct (str_eqb g2 g3) eqn:E23.
    + apply str_eqb_eq in E23. subst g3. rewrite E12. auto.
    + intros H1 H2. destruct (str_eqb g1 g3) eqn:E13.
      * apply str_eqb_eq in E13. subst g3.
        rewrite (str_leb_antisym _ _ H1 H2), str_eqb_refl in E12. discriminate.
      * now apply str_leb_trans with g2.
Qed.

Lemma key_lt_trans (a b c : pystr * Z) : key_lt a b -> key_lt b c -> key_lt a c.
Proof.
  intros [H1 N1] [H2 N2]. split; [now apply key_leb_trans with b|].
  intros ->. apply N1. now apply key_leb_antisym.
Qed.

Lemma key_lt_irrefl (a : pystr * Z) : ~ key_lt a a.
Proof. intros [_ H]. now apply H. Qed.

Lemma insert_key_in (k x : pystr * Z) (ks : list (pystr * Z)) :
  In x (insert_key k ks) <-> x = k \/ In x ks.
Proof.
  induction ks as [|h t IH]; simpl.
  - intuition.
  - destruct (key_eqb k h) eqn:E.
    + apply key_eqb_eq in E. subst h. simpl. intuition.
    + destruct (key_leb k h); simpl; [intuition | rewrite IH; intuition].
Qed.

Lemma insert_key_hd (h k : pystr * Z) (t : list (pystr * Z)) :
  HdRel key_lt h t -> key_lt h k -> HdRel key_lt h (insert_key k t).
Proof.
  intros Ht Hk. destruct t as [|x t]; simpl; [now constructor|].
  destruct (key_eqb k x); [assumption|].
  destruct (key_leb k x); constructor; [assumption|].
  now inversion Ht.
Qed.

Lemma insert_key_sorted (k : pystr * Z) (ks : list (pystr * Z)) :
  Sorted key_lt ks -> Sorted key_lt (insert_key k ks).
Proof.
  induction ks as [|h t IH]; intros Hs; simpl.
  - repeat constructor.
  - destruct (key_eqb k h) eqn:E; [assumption|].
    destruct (key_leb k h) eqn:L.
    + constructor; [assumption|]. constructor. split; [assumption|].
      intros ->. now rewrite key_eqb_refl in E.
    + inversion Hs as [|? ? Ht Hh]; subst. constructor; [now apply IH|].
      apply insert_key_hd; [assumption|]. split; [now apply key_leb_total|].
      intros ->. now rewrite key_eqb_refl in E.
Qed.

Lemma group_keys_in (rs : list record) (k : pystr * Z) :
  In k (group_keys rs) <-> exists r, In r rs /\ key_of r = k.
Proof.
  induction rs as [|r rs IH]; simpl.
  - split; [contradiction | now intros [r [[] _]]].
  - rewrite insert_key_in, IH. split.
    + intros [-> | [r' [Hin Hk]]]; [now exists r; auto | exists r'; auto].
    + intros [r' [[<- | Hin] Hk]]; [now left | right; now exists r'].
Qed.

Lemma group_keys_sorted (rs : list record) : StronglySorted key_lt (group_keys rs).
Proof.
  apply Sorted_StronglySorted; [exact key_lt_trans|].
  induction rs as [|r rs IH]; simpl; [constructor|].
  now apply insert_key_sorted.
Qed.

Lemma strongly_sorted_nodup (ks : list (pystr * Z)) :
  StronglySorted key_lt ks -> NoDup ks.
Proof.
  induction 1 as [|k ks Hs IH Hall]; constructor; [|assumption].
  intros Hin. rewrite Forall_forall in Hall.
  exact (key_lt_irrefl k (Hall k Hin)).
Qed.

(* ====================================================================== *)
(** ** The summary table *)
(* ====================================================================== *)

Lemma summarize_carries (k : pystr * Z) (group : list record) (row : Summary.row) :
  summarize k group = Ok row -> carries row k.
Proof.
  unfold summarize. intros H.
  repeat match type of H with
         | bind (loc ?x) _ = _ => destruct x; cbn [loc bind] in H; [|discriminate]
         | bind (format_area ?x) _ = _ =>
             destruct (format_area x); cbn [bind] in H; [|discriminate]
         end.
  injection H as <-. split; reflexivity.
Qed.

Lemma summarize_all_carries (rs : list record) (ks : list (pystr * Z)) :
  forall results, summarize_all rs ks = Ok results -> Forall2 carries results ks.
Proof.
  induction ks as [|k ks IH]; intros results H; simpl in H.
  - injection H as <-. constructor.
  - destruct (summarize k (group_of rs k)) as [row |] eqn:Erow;
      cbn [bind] in H; try discriminate.
    destruct (summarize_all rs ks) as [rest |] eqn:Erest;
      cbn [bind] in H; try discriminate.
    injection H as <-. constructor; [eapply summarize_carries; eassumption | now apply IH].
Qed.

Lemma rooms_text_order (n1 n2 : Z) :
  In n1 [1; 2; 3] -> In n2 [1; 2; 3] ->
  str_leb (str_int n1) (str_int n2) = (n1 <=? n2).
Proof.
  simpl. intros [<- | [<- | [<- | []]]] [<- | [<- | [<- | []]]]; reflexivity.
Qed.

Lemma rooms_text_value (n : Z) :
  In n [1; 2; 3] -> int_of_digits (str_int n) = n.
Proof.
  simpl. intros [<- | [<- | [<- | []]]]; reflexivity.
Qed.

Lemma carries_row_key (row : Summary.row) (k : pystr * Z) :
  carries row k -> In (snd k) [1; 2; 3] -> row_key row = k.
Proof.
  intros [Hg Hr] Hn. unfold row_key. rewrite Hg, Hr, (rooms_text_value _ Hn).
  now destruct k.
Qed.

Lemma carries_row_leb (r1 r2 : Summary.row) (k1 k2 : pystr * Z) :
  carries r1 k1 -> carries r2 k2 ->
  In (snd k1) [1; 2; 3] -> In (snd k2) [1; 2; 3] ->
  row_leb r1 r2 = key_leb k1 k2.
Proof.
  intros [Hg1 Hr1] [Hg2 Hr2] Hn1 Hn2. unfold row_leb, key_leb.
  now rewrite Hg1, Hg2, Hr1, Hr2, (rooms_text_order _ _ Hn1 Hn2).
Qed.

Lemma carried_rows_sorted (results : list Summary.row) (ks : list (pystr * Z)) :
  Forall2 carries results ks ->
  Sorted key_lt ks ->
  Forall (fun k => In (snd k) [1; 2; 3]) ks ->
  Sorted (fun a b => row_leb a b = true) results /\ map row_key results = ks.
Proof.
  induction 1 as [|row k results ks Hc Hrest IH]; intros Hs Hn.
  - split; constructor.
  - inversion Hs as [|? ? Hs' Hhd]; subst. inversion Hn as [|? ? Hk Hn']; subst.
    destruct (IH Hs' Hn') as [IHs IHk]. split.
    + constructor; [assumption|].
      destruct Hrest as [|row' k' results' ks' Hc' _]; constructor.
      inversion Hhd as [|? ? [Hle _]]; subst. inversion Hn' as [|? ? Hk' _]; subst.
      now rewrite (carries_row_leb _ _ _ _ Hc Hc' Hk Hk').
    + simpl. now rewrite IHk, (carries_row_key _ _ Hc Hk).
Qed.

(** Sorting rows that are already in order changes nothing. *)
Lemma sort_rows_sorted (l : list Summary.row) :
  Sorted (fun a b => row_leb a b = true) l -> sort_rows l = l.
Proof.
  induction 1 as [|r t Ht IH Hhd]; [reflexivity|].
  unfold sort_rows in *. simpl. rewrite IH.
  destruct Hhd as [|h t' Hle]; simpl; [reflexivity | now rewrite Hle].
Qed.

Lemma first_extreme_found (before : pyfloat -> pyfloat -> bool)
      (value : record -> pyfloat) (group : list record) :
  group <> [] ->
  Forall (fun r => float_isnan (value r) = false) group ->
  exists r, first_extreme before value group = Some r.
Proof.
  unfold first_extreme. intros Hne Hall.
  assert (Hkeep : forall l b, exists r,
             fold_left
               (fun best r0 =>
                  if float_isnan (value r0) then best
                  else match best with
                       | None => Some r0
                       | Some b0 => if before (value r0) (value b0) then Some r0 else best
                       end) l (Some b) = Some r).
  { induction l as [|x l IHl]; intros b; simpl; [now exists b|].
    destruct (float_isnan (value x)); [apply IHl|].
    destruct (before (value x) (value b)); apply IHl. }
  destruct group as [|x l]; [contradiction|].
  inversion Hall as [|? ? Hx _]; subst. simpl. rewrite Hx. apply Hkeep.
Qed.

Lemma first_extreme_in (before : pyfloat -> pyfloat -> bool)
      (value : record -> pyfloat) (group : list record) (r : record) :
  first_extreme before value group = Some r -> In r group.
Proof.
  unfold first_extreme.
  assert (H : forall l best,
             fold_left
               (fun best r0 =>
                  if float_isnan (value r0) then best
                  else match best with
                       | None => Some r0
                       | Some b0 => if before (value r0) (value b0) then Some r0 else best
                       end) l best = Some r ->
             In r l \/ best = Some r).
  { induction l as [|x l IHl]; intros best E; simpl in E; [now right|].
    apply IHl in E. destruct E as [E | E]; [left; now right|].
    destruct (float_isnan (value x)); [now right|].
    destruct best as [b|].
    - destruct (before (value x) (value b)); [|now right].
      injection E as <-. left. now left.
    - injection E as <-. left. now left. }
  intros E. apply H in E. destruct E as [E | E]; [exact E | discriminate].
Qed.

Lemma summarize_succeeds (k : pystr * Z) (group : list record) :
  group <> [] ->
  Forall (fun r => num_isna (AREA r) = false) group ->
  Forall (fun r => area_in_range (AREA r)) group ->
  Forall (fun r => price_complete r = true) group ->
  exists row, summarize k group = Ok row.
Proof.
  intros Hne Harea Hrange Hpc.
  assert (Ha : Forall (fun r => float_isnan (to_float (AREA r)) = false) group).
  { eapply Forall_impl; [|exact Harea]. intros r. apply to_float_not_nan. }
  assert (Hp : Forall (fun r => float_isnan (price_value (PRICE_PER_M2 r)) = false) group).
  { eapply Forall_impl; [|exact Hpc]. intros r H. unfold price_complete in H.
    apply andb_true_iff in H. destruct H as [H _]. now apply negb_true_iff in H. }
  assert (Ht : Forall (fun r => float_isnan (price_value (TOTAL_PRICE r)) = false) group).
  { eapply Forall_impl; [|exact Hpc]. intros r H. unfold price_complete in H.
    apply andb_true_iff in H. destruct H as [_ H]. now apply negb_true_iff in H. }
  unfold summarize, idxmin, idxmax.
  destruct (first_extreme_found float_ltb _ group Hne Ha) as [r1 E1].
  destruct (first_extreme_found (fun a b => float_ltb b a) _ group Hne Ha) as [r2 E2].
  destruct (first_extreme_found float_ltb _ group Hne Hp) as [r3 ->].
  destruct (first_extreme_found (fun a b => float_ltb b a) _ group Hne Hp) as [r4 ->].
  destruct (first_extreme_found float_ltb _ group Hne Ht) as [r5 ->].
  rewrite E1, E2. cbn [loc bind].
  rewrite Forall_forall in Hrange.
  rewrite (format_area_ok _ (Hrange r1 (first_extreme_in _ _ _ _ E1))).
  rewrite (format_area_ok _ (Hrange r2 (first_extreme_in _ _ _ _ E2))).
  cbn [bind]. eexists. reflexivity.
Qed.

Lemma summarize_all_succeeds (rs : list record) (ks : list (pystr * Z)) :
  Forall (fun r => num_isna (AREA r) = false) rs ->
  Forall (fun r => area_in_range (AREA r)) rs ->
  Forall (fun r => price_complete r = true) rs ->
  (forall k, In k ks -> exists r, In r rs /\ key_of r = k) ->
  exists results, summarize_all rs ks = Ok results /\ List.length results = List.length ks.
Proof.
  intros Harea Hrange Hpc. induction ks as [|k ks IH]; intros Hks; simpl.
  - now exists [].
  - destruct (Hks k (or_introl eq_refl)) as [r [Hr Hk]].
    assert (Hin : In r (group_of rs k)).
    { unfold group_of. apply filter_In. split; [assumption|].
      rewrite Hk. apply key_eqb_refl. }
    destruct (summarize_succeeds k (group_of rs k)) as [row ->].
    + intros E. now rewrite E in Hin.
    + unfold group_of. apply Forall_forall. intros x Hx. apply filter_In in Hx.
      rewrite Forall_forall in Harea. now apply Harea.
    + unfold group_of. apply Forall_forall. intros x Hx. apply filter_In in Hx.
      rewrite Forall_forall in Hrange. now apply Hrange.
    + unfold group_of. apply Forall_forall. intros x Hx. apply filter_In in Hx.
      rewrite Forall_forall in Hpc. now apply Hpc.
    + destruct IH as [results [-> Hlen]]; [intros k' Hk'; apply Hks; now right|].
      cbn [bind]. exists (row :: results). split; [reflexivity | simpl; now rewrite Hlen].
Qed.

Lemma complete_keys_rooms (data : list record) :
  Forall rooms_123 data ->
  Forall (fun k => In (snd k) [1; 2; 3]) (group_keys (filter price_complete data)).
Proof.
  intros Hall. apply Forall_forall. intros k Hk.
  apply group_keys_in in Hk. destruct Hk as [r [Hr <-]].
  apply filter_In in Hr. rewrite Forall_forall in Hall. now apply Hall.
Qed.

(** C4, amended.  For records whose room counts are 1, 2 or 3, the summary
    [generate_summary] returns has exactly one row for every (group, rooms)
    key found among the records with both prices, and its rows are in
    ascending order of group and then of room count as a number.  A summary
    is returned whenever no area is NaN, every integer area is in the
    64-bit range and some record has both prices. *)
Theorem generate_summary_keys_sorted (data : list record) :
  Forall rooms_123 data ->
  (forall rows,
      generate_summary data = Ok rows ->
      (forall k, In k (map row_key rows) <->
                 exists r, In r data /\ price_complete r = true /\ key_of r = k)
      /\ NoDup (map row_key rows)
      /\ StronglySorted key_lt (map row_key rows))
  /\ (Forall (fun r => num_isna (AREA r) = false) data ->
      Forall (fun r => area_in_range (AREA r)) data ->
      (exists r, In r data /\ price_complete r = true) ->
      exists rows, generate_summary data = Ok rows).
Proof.
  intros Hrooms. split.
  - intros rows H. unfold generate_summary in H.
    destruct data as [|d ds]; cbn [is_empty] in H.
    + injection H as <-. simpl. split; [|split; constructor].
      intros k. split; [contradiction | now intros [r [[] _]]].
    + set (data := d :: ds) in *. set (df := filter price_complete data) in *.
      destruct (summarize_all df (group_keys df)) as [results |] eqn:Eall;
        cbn [bind] in H; try discriminate.
      unfold sort_values in H. destruct results as [|r0 results0] eqn:Eres;
        [discriminate|]. rewrite <- Eres in *. injection H as <-.
      pose proof (group_keys_sorted df) as Hsorted.
      destruct (carried_rows_sorted results (group_keys df)
                  (summarize_all_carries _ _ _ Eall)
                  (StronglySorted_Sorted Hsorted)
                  (complete_keys_rooms data Hrooms)) as [Hrows Hkeys].
      rewrite (sort_rows_sorted _ Hrows), Hkeys.
      split; [|split; [now apply strongly_sorted_nodup | assumption]].
      intros k. rewrite group_keys_in. unfold df. split.
      * intros [r [Hr Hk]]. apply filter_In in Hr. exists r. tauto.
      * intros [r [Hr [Hpc Hk]]]. exists r. split; [|assumption].
        apply filter_In. tauto.
  - intros Harea Hrange [r [Hr Hpc]]. unfold generate_summary.
    destruct data as [|d ds]; [contradiction|]. cbn [is_empty].
    set (data := d :: ds) in *. set (df := filter price_complete data).
    destruct (summarize_all_succeeds df (group_keys df)) as [results [-> Hlen]].
    + unfold df. apply Forall_forall. intros x Hx. apply filter_In in Hx.
      rewrite Forall_forall in Harea. now apply Harea.
    + unfold df. apply Forall_forall. intros x Hx. apply filter_In in Hx.
      rewrite Forall_forall in Hrange. now apply Hrange.
    + unfold df. apply Forall_forall. intros x Hx. now apply filter_In in Hx.
    + intros k Hk. now apply group_keys_in.
    + cbn [bind]. unfold sort_values.
      destruct results as [|r0 results0]; [|eexists; reflexivity].
      exfalso. assert (Hin : In (key_of r) (group_keys df)).
      { apply group_keys_in. exists r. split; [|reflexivity].
        unfold df. apply filter_In. tauto. }
      destruct (group_keys df); [contradiction | discriminate].
Qed.

Lemma generate_summary_keys_sorted_witness :
  Forall rooms_123 two_of_x
  /\ generate_summary two_of_x = Ok [summary_of_x]
  /\ (forall k, In k (map row_key [summary_of_x]) <->
                exists r, In r two_of_x /\ price_complete r = true /\ key_of r = k)
  /\ NoDup (map row_key [summary_of_x])
  /\ StronglySorted key_lt (map row_key [summary_of_x]).
Proof.
  assert (H : Forall rooms_123 two_of_x)
    by (repeat constructor; vm_compute; tauto).
  assert (E : generate_summary two_of_x = Ok [summary_of_x])
    by (vm_compute; reflexivity).
  split; [exact H|]. split; [exact E|].
  exact (proj1 (generate_summary_keys_sorted two_of_x H) [summary_of_x] E).
Defined.

(** C4 as stated fails: the rows are sorted on the text of the room count,
    so for room counts 10 and 2 in one group the row for 10 comes first. *)
Lemma summary_order_counterexample :
  exists rows,
    generate_summary ten_and_two = Ok rows
    /\ map row_key rows = [(u "X", 10); (u "X", 2)]
    /\ ~ StronglySorted key_lt (map row_key rows).
Proof.
  destruct (generate_summary ten_and_two) as [rows |] eqn:E;
    try (vm_compute in E; discriminate).
  exists rows. split; [reflexivity|].
  vm_compute in E. injection E as <-.
  split; [vm_compute; reflexivity|].
  intros H. vm_compute in H. inversion H as [|? ? _ Hall]; subst.
  inversion Hall as [|? ? [Hle _] _]; subst.
  vm_compute in Hle. discriminate.
Qed.

(* ====================================================================== *)
(** ** Column resolution *)
(* ====================================================================== *)

Lemma dict_set_fresh (k : pystr) (v : cell) (d : list (pystr * cell)) :
  ~ In k (map fst d) -> dict_set k v d = d ++ [(k, v)].
Proof.
  induction d as [|[k' v'] d IH]; simpl; intros H; [reflexivity|].
  destruct (str_eqb k k') eqn:E.
  - apply str_eqb_eq in E. subst k'. exfalso. apply H. now left.
  - rewrite IH; [reflexivity|]. intros Hin. apply H. now right.
Qed.

Lemma fill_col_map (columns : list cell) :
  forall acc,
  NoDup (map fst acc ++ map normalize_text columns) ->
  fold_left (fun d col => dict_set (normalize_text col) col d) columns acc
  = acc ++ map (fun col => (normalize_text col, col)) columns.
Proof.
  induction columns as [|c columns IH]; intros acc Hnd; simpl.
  - now rewrite app_nil_r.
  - simpl in Hnd. rewrite dict_set_fresh.
    + rewrite IH.
      * now rewrite <- app_assoc.
      * rewrite map_app. simpl. rewrite <- app_assoc. simpl.
        apply NoDup_remove_1 in Hnd as Hnd'.
        apply NoDup_remove_2 in Hnd.
        apply NoDup_app_remove_l in Hnd' as Hc.
        clear IH. revert Hnd Hnd'. generalize (map fst acc).
        intros l. induction l as [|x l IHl]; simpl; intros Hn Hd.
        -- constructor; [|assumption]. intros Hin. apply Hn. assumption.
        -- inversion Hd as [|? ? Hx Hd']; subst. constructor.
           ++ intros Hin. apply Hx. apply in_app_or in Hin.
              apply in_or_app. destruct Hin as [Hin | [Heq | Hin]]; auto.
              exfalso. apply Hn. left. now symmetry.
           ++ apply IHl; [|assumption]. intros Hin. apply Hn. now right.
    + apply NoDup_remove_2 in Hnd. intros Hin. apply Hnd.
      apply in_or_app. now left.
Qed.

Lemma col_map_distinct (columns : list cell) :
  NoDup (map normalize_text columns) ->
  col_map columns = map (fun col => (normalize_text col, col)) columns.
Proof.
  intros H. unfold col_map. now rewrite fill_col_map.
Qed.

Lemma find_paired (test : pystr * cell -> bool) (columns : list cell) :
  find test (map (fun col => (normalize_text col, col)) columns)
  = option_map (fun col => (normalize_text col, col))
               (find (fun col => test (normalize_text col, col)) columns).
Proof.
  induction columns as [|c columns IH]; simpl; [reflexivity|].
  destruct (test (normalize_text c, c)); [reflexivity | exact IH].
Qed.

(** When no two headers normalize to the same string, [find_best_column]
    resolves the first column in header order that matches the first
    priority group with a match. *)
Lemma find_best_column_distinct (columns : list cell)
      (candidates_list : list (list pystr)) (exclude_keywords : option (list pystr)) :
  NoDup (map normalize_text columns) ->
  find_best_column columns candidates_list exclude_keywords
  = first_in_header_order columns
      (match exclude_keywords with Some l => l | None => [] end) candidates_list.
Proof.
  intros H. unfold find_best_column. rewrite (col_map_distinct _ H).
  induction candidates_list as [|g rest IH]; simpl; [reflexivity|].
  rewrite find_paired.
  destruct (find _ columns); simpl; [reflexivity | exact IH].
Qed.

(** C1 at the input where it fails.  Two headers that normalize to the same
    string share one key of the map, and the key holds the later header:
    the column resolved for "Статус", "СТАТУС" is the second one, where the
    first column in header order is "Статус", which is also what the loops
    over [df.columns] (here the one for the area) resolve. *)
Theorem find_best_column_same_key :
  find_best_column [text "Статус"; text "СТАТУС"] status_keywords None
  = Some (text "СТАТУС")
  /\ first_in_header_order [text "Статус"; text "СТАТУС"] [] status_keywords
     = Some (text "Статус")
  /\ col_map [text "Статус"; text "СТАТУС"] = [(u "статус", text "СТАТУС")]
  /\ first_col is_area [text "Площа"; text "ПЛОЩА"] = Some (text "Площа").
Proof.
  repeat split; vm_compute; reflexivity.
Qed.

(** C2 at the input where it fails.  The rooms loop makes both tests on a
    column before it moves to the next, so a column that passes only the
    lower-case test wins over a later column that passes the exact test. *)
Theorem rooms_first_column_wins :
  rooms_col (identify_columns [text "розмір"; text "Rooms"]) = Some (text "розмір")
  /\ is_rooms_exact (text "розмір") = false
  /\ is_rooms_lowercase (text "розмір") = true
  /\ is_rooms_exact (text "Rooms") = true.
Proof.
  repeat split; vm_compute; reflexivity.
Qed.

(* ====================================================================== *)
(** ** Scenarios of the specification *)
(* ====================================================================== *)

Example normalize_text_samples :
  map normalize_text [CNaN; CNone; text "  Ціна   за  МЕТР "; CInt 5]
  = [[]; []; u "ціна за метр"; u "5"].
Proof. vm_compute. reflexivity. Qed.

Example extract_room_count_samples :
  map extract_room_count
      [Scalar (text "2к"); Scalar (text "4-room"); Scalar (text "studio");
       Scalar (CInt 3); Scalar CNaN; Scalar (text "２к");
       Series (text "2к") (text "3к") []]
  = [Ok (Some 2); Ok None; Ok None; Ok (Some 3); Ok None; Ok (Some 2);
     Raises ValueError].
Proof. vm_compute. reflexivity. Qed.

Example resolver_scenario :
  identify_columns scenario_header
  = {| price_m2_col := Some (text "ціна за метр ");
       total_price_col := Some (text "Вартість для продажу");
       rooms_col := Some (text "Розмір");
       area_col := Some (text "Площа");
       status_col := Some (text "Статус");
       id_col := Some (text "ID");
       complex_col := None |}
  /\ area_col (identify_columns [text "Площа оновлена"]) = None.
Proof. split; vm_compute; reflexivity. Qed.

(** One available apartment, one sold, one excluded by the marker "test";
    the complex comes from the column, from the ID rule on a mixed sheet,
    and from the sheet rule. *)
Example extraction_scenarios :
  process_sheet no_series scenario_rules scenario_grid (u "ComplexA")
  = Ok [scenario_record "Other"]
  /\ process_sheet no_series scenario_rules scenario_grid (u "Mixed list")
     = Ok [scenario_record "ComplexA"]
  /\ process_sheet no_series scenario_rules scenario_grid (u "Building Phase1 East")
     = Ok [scenario_record "ComplexA Phase 1"]
  /\ process_sheet no_series scenario_rules scenario_grid (u "Mixed Phase1")
     = Ok [scenario_record "ComplexA Phase 1"].
Proof. repeat split; vm_compute; reflexivity. Qed.

(** An empty sheet has no header row to take, and a row that reaches a
    column whose label occurs twice stops the sheet. *)
Example raising_sheets :
  process_sheet no_series no_rules [] (u "ComplexA") = Raises IndexError
  /\ process_sheet no_series no_rules grid_two_areas (u "ComplexA")
     = Raises ValueError.
Proof. split; vm_compute; reflexivity. Qed.

Example aggregation_scenario :
  generate_summary two_of_x = Ok [summary_of_x]
  /\ generate_summary [] = Ok []
  /\ generate_summary
       [{| GROUP := u "X"; ROOMS := 1; ID := u "X1"; AREA := NInt 40;
           PRICE_PER_M2 := None; TOTAL_PRICE := Some (fl "800000") |}]
     = Raises KeyError.
Proof. repeat split; vm_compute; reflexivity. Qed.

(** [float], [str] and [format] on binary64 values. *)
Example float_samples :
  map py_float (map u ["1e5"; "1_000.5"; ".5"; "5."; "."; "1__0"; "-inf"; "NaN";
                       "1e400"; "1e-400"; "abc"; ""; "1e"; "+1.50"]%string)
  = [Some (FFin false 3125 5); Some (FFin false 2001 (-1));
     Some (FFin false 1 (-1)); Some (FFin false 5 0); None; None;
     Some (FInf true); Some FNaN; Some (FInf false); Some (FFin false 0 0);
     None; None; None; Some (FFin false 3 (-1))]
  /\ map str_float
       (map fl ["45.5"; "0.00001"; "1e16"; "1e15"; "-0"; "0.1"; "1234.56";
                "5e-324"; "1.7976931348623157e308"; "1e23";
                "123456789012345678"; "0.30000000000000004"]%string)
     = map u ["45.5"; "1e-05"; "1e+16"; "1000000000000000.0"; "-0.0"; "0.1";
              "1234.56"; "5e-324"; "1.7976931348623157e+308"; "1e+23";
              "1.2345678901234568e+17"; "0.30000000000000004"]%string
  /\ map (format_f true 0) (map fl ["18000"; "1234567.5"; "2.5"; "3.5"; "-0.4"]%string)
     = map u ["18,000"; "1,234,568"; "2"; "4"; "-0"]%string
  /\ map (format_f false 1) (map fl ["40"; "45.5"; "0.05"; "0.25"; "0.35"]%string)
     = map u ["40.0"; "45.5"; "0.1"; "0.2"; "0.3"]%string.
Proof. repeat split; vm_compute; reflexivity. Qed.

(** [float] skips ASCII whitespace and the whitespace beyond ASCII, not the
    separators U+001C to U+001F, and reads every decimal digit. *)
Example float_text_samples :
  map py_float [[9; 49; 50; 10]; [160; 49; 50]; [31; 49; 50]; [49; 50; 28];
                [65297; 65298; 46; 65301]; [1635; 95; 1635]; [49; 32; 50]]%N
  = [Some (fl "12"); Some (fl "12"); None; None; Some (fl "12.5");
     Some (fl "33"); None].
Proof. vm_compute. reflexivity. Qed.

Example to_numeric_samples :
  map to_numeric
      (map text ["45"; "45.5"; " 45.5 "; "45,5"; "$45"; "1 234"; "-INF"; ""; "1e3"]%string
       ++ [CInt 7; CNaN; CNone])
  = [NInt 45; NFloat (fl "45.5"); NFloat (fl "45.5"); NFloat FNaN; NFloat FNaN;
     NFloat FNaN; NFloat (FInf true); NFloat FNaN; NFloat (fl "1000");
     NInt 7; NFloat FNaN; NFloat FNaN].
Proof. vm_compute. reflexivity. Qed.

(* ====================================================================== *)
(** ** Shape of normalized text *)
(* ====================================================================== *)

Lemma lstrip_head (s : pystr) (c : N) (t : pystr) :
  lstrip s = c :: t -> isspace c = false.
Proof.
  induction s as [|x s IH]; simpl; [discriminate|].
  destruct (isspace x) eqn:E; [exact IH|].
  intros H. injection H as <- _. exact E.
Qed.

Lemma lstrip_split (s : pystr) :
  exists ws, s = ws ++ lstrip s /\ Forall (fun c => isspace c = true) ws.
Proof.
  induction s as [|x s [ws [Hs Hws]]]; simpl.
  - exists []. split; [reflexivity | constructor].
  - destruct (isspace x) eqn:E.
    + exists (x :: ws). split; [simpl; now rewrite <- Hs | now constructor].
    + exists []. split; [reflexivity | constructor].
Qed.

Lemma lstrip_fixed (s : pystr) :
  (forall c t, s = c :: t -> isspace c = false) -> lstrip s = s.
Proof.
  destruct s as [|c t]; [reflexivity|]. intros H. simpl.
  now rewrite (H c t eq_refl).
Qed.

Lemma rstrip_last (s t : pystr) (c : N) :
  rstrip s = t ++ [c] -> isspace c = false.
Proof.
  unfold rstrip. intros H. apply (f_equal (@rev N)) in H.
  rewrite rev_involutive, rev_app_distr in H. simpl in H.
  now apply lstrip_head in H.
Qed.

Lemma rstrip_split (s : pystr) :
  exists ws, s = rstrip s ++ ws /\ Forall (fun c => isspace c = true) ws.
Proof.
  unfold rstrip. destruct (lstrip_split (rev s)) as [ws [Hs Hws]].
  exists (rev ws). split.
  - rewrite <- rev_app_distr, <- Hs. now rewrite rev_involutive.
  - now apply Forall_rev.
Qed.

(** [strip] leaves no whitespace at either end. *)
Lemma strip_trimmed (s : pystr) : trimmed (strip s).
Proof.
  unfold strip. split.
  - intros c t H. destruct (rstrip_split (lstrip s)) as [ws [Hs _]].
    rewrite H in Hs. simpl in Hs. now apply lstrip_head in Hs.
  - intros t c H. now apply rstrip_last in H.
Qed.

(** [strip] changes nothing in text that is already trimmed. *)
Lemma strip_fixed (s : pystr) : trimmed s -> strip s = s.
Proof.
  intros [Hhead Hlast]. unfold strip. rewrite (lstrip_fixed s Hhead).
  unfold rstrip. rewrite lstrip_fixed; [apply rev_involutive|].
  intros c t H. apply (Hlast (rev t) c).
  apply (f_equal (@rev N)) in H. rewrite rev_involutive in H. now simpl in H.
Qed.

Lemma collapse_ws_in (s : pystr) :
  forall b c, In c (collapse_ws b s) -> c = 32%N \/ (In c s /\ isspace c = false).
Proof.
  induction s as [|x s IH]; intros b c H; simpl in H; [contradiction|].
  destruct (isspace x) eqn:E.
  - destruct b.
    + destruct (IH _ _ H) as [-> | [Hin Hc]]; [now left | right; split; [now right | exact Hc]].
    + destruct H as [<- | H]; [now left|].
      destruct (IH _ _ H) as [-> | [Hin Hc]]; [now left | right; split; [now right | exact Hc]].
  - destruct H as [<- | H]; [right; split; [now left | exact E]|].
    destruct (IH _ _ H) as [-> | [Hin Hc]]; [now left | right; split; [now right | exact Hc]].
Qed.

Lemma collapse_ws_after_space (s : pystr) (y : N) (rest : pystr) :
  collapse_ws true s = y :: rest -> isspace y = false.
Proof.
  induction s as [|x s IH]; simpl; [discriminate|].
  destruct (isspace x) eqn:E; [exact IH|].
  intros H. injection H as <- _. exact E.
Qed.

Lemma collapse_ws_no_pair (s : pystr) :
  forall b a x y rest,
    collapse_ws b s = a ++ x :: y :: rest ->
    isspace x = true -> isspace y = true -> False.
Proof.
  induction s as [|c s IH]; intros b a x y rest H Hx Hy; simpl in H.
  - destruct a; discriminate.
  - destruct (isspace c) eqn:E.
    + destruct b; [now apply (IH _ _ _ _ _ H)|].
      destruct a as [|a0 a].
      * simpl in H. injection H as _ H. apply collapse_ws_after_space in H. congruence.
      * simpl in H. injection H as _ H. now apply (IH _ _ _ _ _ H).
    + destruct a as [|a0 a].
      * simpl in H. injection H as H _. congruence.
      * simpl in H. injection H as _ H. now apply (IH _ _ _ _ _ H).
Qed.

Lemma collapse_ws_snoc (s : pystr) (c : N) :
  isspace c = false ->
  forall b, collapse_ws b (s ++ [c]) = collapse_ws b s ++ [c].
Proof.
  intros Hc. induction s as [|x s IH]; intros b; simpl.
  - now rewrite Hc.
  - destruct (isspace x); [destruct b|]; now rewrite IH.
Qed.

Lemma collapse_ws_trimmed (s : pystr) :
  trimmed s -> trimmed (collapse_ws false s).
Proof.
  intros [Hhead Hlast]. split.
  - intros c t H. destruct s as [|x s]; [discriminate|].
    simpl in H. rewrite (Hhead x s eq_refl) in H.
    injection H as <- _. now apply (Hhead x s).
  - intros t c H.
    destruct (exists_last (l := s)) as [s' [z Hs]].
    { intros ->. destruct t; discriminate. }
    subst s. pose proof (Hlast s' z eq_refl) as Hz.
    rewrite (collapse_ws_snoc _ _ Hz) in H.
    apply app_inj_tail in H. destruct H as [_ <-]. exact Hz.
Qed.

Lemma normalize_text_normal (text : cell) :
  trimmed (normalize_text text) /\ single_spaced (normalize_text text).
Proof.
  unfold normalize_text. destruct (isna text).
  - split; split.
    + discriminate.
    + intros t c H. destruct t; discriminate.
    + contradiction.
    + intros a x y b H. destruct a; discriminate.
  - split.
    + apply collapse_ws_trimmed, strip_trimmed.
    + split.
      * intros c Hin Hc. apply collapse_ws_in in Hin.
        destruct Hin as [-> | [_ Hn]]; [reflexivity | congruence].
      * intros a x y b H. now apply (collapse_ws_no_pair _ _ _ _ _ _ H).
Qed.

Ltac bool_facts :=
  repeat match goal with
         | H : (_ && _)%bool = true |- _ => apply andb_true_iff in H; destruct H
         | H : negb _ = true |- _ => apply negb_true_iff in H
         | H : (_ <=? _)%N = true |- _ => apply N.leb_le in H
         | H : (_ =? _)%N = false |- _ => apply N.eqb_neq in H
         end.

(** Lower-casing a lower-cased code point changes nothing. *)
Lemma lower_cp_idem (c : N) : lower_cp (lower_cp c) = lower_cp c.
Proof.
  assert (Hev : forall x, N.even (x + 1) = negb (N.even x)).
  { intros x. rewrite N.add_1_r, N.even_succ. now rewrite <- N.negb_even. }
  unfold lower_cp at 2 3. unfold even_cp.
  repeat match goal with
         | |- context [if ?b then _ else _] =>
             lazymatch b with
             | context [lower_cp] => fail
             | _ => destruct b eqn:?
             end
         end;
    unfold lower_cp, even_cp; bool_facts;
    repeat match goal with
           | |- context [if ?b then _ else _] =>
               let E := fresh "E" in
               destruct b eqn:E; [exfalso|]; bool_facts; try lia
           end; try reflexivity.
  all: rewrite Hev in *;
    match goal with
    | H1 : N.even ?x = true, H2 : negb (N.even ?x) = true |- _ =>
        rewrite H1 in H2; discriminate
    end.
Qed.

Lemma lstrip_in (s : pystr) (c : N) : In c (lstrip s) -> In c s.
Proof.
  destruct (lstrip_split s) as [ws [Hs _]]. intros H. rewrite Hs.
  apply in_or_app. now right.
Qed.

Lemma strip_in (s : pystr) (c : N) : In c (strip s) -> In c s.
Proof.
  unfold strip. intros H. apply lstrip_in.
  destruct (rstrip_split (lstrip s)) as [ws [Hs _]]. rewrite Hs.
  apply in_or_app. now left.
Qed.

Lemma collapse_ws_fixed (s : pystr) :
  forall b,
    (forall c, In c s -> isspace c = true -> c = 32%N) ->
    (forall a x y r, s = a ++ x :: y :: r ->
                     isspace x = true -> isspace y = true -> False) ->
    (b = true -> forall c t, s = c :: t -> isspace c = false) ->
    collapse_ws b s = s.
Proof.
  induction s as [|c s IH]; intros b Hsp Hpair Hb; simpl; [reflexivity|].
  destruct (isspace c) eqn:E.
  - destruct b; [rewrite (Hb eq_refl c s eq_refl) in E; discriminate|].
    pose proof (Hsp c (or_introl eq_refl) E) as Hc. subst c. f_equal. apply IH.
    + intros x Hx. apply Hsp. now right.
    + intros a x y r ->. apply (Hpair (32%N :: a) x y r). reflexivity.
    + intros _ y t ->. destruct (isspace y) eqn:Ey; [|reflexivity].
      exfalso. now apply (Hpair [] 32%N y t).
  - f_equal. apply IH.
    + intros x Hx. apply Hsp. now right.
    + intros a x y r ->. apply (Hpair (c :: a) x y r). reflexivity.
    + discriminate.
Qed.

(** After [normalize_text] a text has no whitespace at its ends, no
    whitespace but the space, and no two spaces in a row. *)
Theorem normalize_text_shape (text : cell) :
  trimmed (normalize_text text) /\ single_spaced (normalize_text text).
Proof. exact (normalize_text_normal text). Qed.

(** [normalize_text] is idempotent: normalizing normalized text changes
    nothing. *)
Theorem normalize_text_idempotent (text : cell) :
  normalize_text (CStr (normalize_text text)) = normalize_text text.
Proof.
  destruct (normalize_text_normal text) as [Htrim [Hsp Hpair]].
  set (n := normalize_text text) in *.
  assert (Hlow : lower n = n).
  { unfold lower. rewrite <- (map_id n) at 2. apply map_ext_in.
    intros c Hc. unfold n, normalize_text in Hc.
    destruct (isna text); [contradiction|].
    apply collapse_ws_in in Hc. destruct Hc as [-> | [Hc _]]; [reflexivity|].
    apply strip_in in Hc. unfold lower in Hc. apply in_map_iff in Hc.
    destruct Hc as [x [<- _]]. apply lower_cp_idem. }
  unfold normalize_text at 1. cbn [isna py_str].
  rewrite Hlow, (strip_fixed n Htrim).
  apply collapse_ws_fixed; [exact Hsp | exact Hpair | discriminate].
Qed.

(* ====================================================================== *)
(** ** The generic matcher *)
(* ====================================================================== *)

Lemma dict_set_keys_in (k : pystr) (v : cell) (d : list (pystr * cell)) (x : pystr) :
  In x (map fst (dict_set k v d)) <-> x = k \/ In x (map fst d).
Proof.
  induction d as [|[k' v'] d IH]; simpl.
  - intuition.
  - destruct (str_eqb k k') eqn:E; simpl.
    + apply str_eqb_eq in E. subst k'. intuition.
    + rewrite IH. intuition.
Qed.

Lemma dict_set_nodup (k : pystr) (v : cell) (d : list (pystr * cell)) :
  NoDup (map fst d) -> NoDup (map fst (dict_set k v d)).
Proof.
  induction d as [|[k' v'] d IH]; simpl; intros H.
  - repeat constructor. intros [].
  - inversion H as [|? ? Hk Hd]; subst.
    destruct (str_eqb k k') eqn:E; simpl.
    + apply str_eqb_eq in E. subst k'. now constructor.
    + constructor; [|now apply IH].
      rewrite dict_set_keys_in. intros [-> | Hin]; [|contradiction].
      now rewrite str_eqb_refl in E.
Qed.

Lemma dict_set_in (k : pystr) (v : cell) (d : list (pystr * cell))
      (x : pystr) (y : cell) :
  NoDup (map fst d) ->
  In (x, y) (dict_set k v d) ->
  (x = k /\ y = v) \/ (x <> k /\ In (x, y) d).
Proof.
  induction d as [|[k' v'] d IH]; simpl; intros Hnd H.
  - destruct H as [H | []]. injection H as <- <-. now left.
  - inversion Hnd as [|? ? Hk Hd]; subst.
    destruct (str_eqb k k') eqn:E.
    + apply str_eqb_eq in E. subst k'. destruct H as [H | H].
      * injection H as <- <-. now left.
      * right. split; [|now right]. intros ->. apply Hk.
        apply in_map_iff. now exists (k, y).
    + destruct H as [H | H].
      * injection H as <- <-. right. split; [|now left].
        intros ->. now rewrite str_eqb_refl in E.
      * destruct (IH Hd H) as [Hl | [Hn Hin]]; [now left | right; split; [exact Hn | now right]].
Qed.

Lemma col_map_snoc (columns : list cell) (c : cell) :
  col_map (columns ++ [c]) = dict_set (normalize_text c) c (col_map columns).
Proof.
  unfold col_map. now rewrite fold_left_app.
Qed.

Lemma col_map_nodup (columns : list cell) : NoDup (map fst (col_map columns)).
Proof.
  induction columns as [|c columns IH] using rev_ind; [constructor|].
  rewrite col_map_snoc. now apply dict_set_nodup.
Qed.

(** The keys of the map are the normalized names of the columns. *)
Lemma col_map_keys (columns : list cell) (k : pystr) :
  In k (map fst (col_map columns)) <-> In k (map normalize_text columns).
Proof.
  induction columns as [|c columns IH] using rev_ind; [reflexivity|].
  rewrite col_map_snoc, dict_set_keys_in, IH, map_app, in_app_iff. simpl.
  intuition.
Qed.

(** Each key holds the last column with that normalized name. *)
Lemma col_map_last (columns : list cell) (k : pystr) (v : cell) :
  In (k, v) (col_map columns) ->
  k = normalize_text v
  /\ exists l1 l2, columns = l1 ++ v :: l2
                   /\ forall x, In x l2 -> normalize_text x <> k.
Proof.
  induction columns as [|c columns IH] using rev_ind; [contradiction|].
  rewrite col_map_snoc. intros H.
  apply dict_set_in in H; [|apply col_map_nodup].
  destruct H as [[-> ->] | [Hn Hin]].
  - split; [reflexivity|]. exists columns, []. split; [reflexivity | contradiction].
  - destruct (IH Hin) as [Hk [l1 [l2 [-> Hl2]]]]. split; [exact Hk|].
    exists l1, (l2 ++ [c]). split; [now rewrite <- app_assoc|].
    intros x Hx. apply in_app_or in Hx. destruct Hx as [Hx | [<- | []]]; [now apply Hl2|].
    congruence.
Qed.

Lemma column_matches_key (candidates exclude_keywords : list pystr)
      (k : pystr) (v v' : cell) :
  column_matches candidates exclude_keywords (k, v)
  = column_matches candidates exclude_keywords (k, v').
Proof. reflexivity. Qed.

(** No entry of the map matches a group exactly when no column does. *)
Lemma find_in_col_map_none (columns : list cell) (g e : list pystr) :
  find (column_matches g e) (col_map columns) = None
  <-> forall x, In x columns -> column_matches g e (normalize_text x, x) = false.
Proof.
  split.
  - intros H x Hx.
    assert (Hk : In (normalize_text x) (map fst (col_map columns)))
      by (apply col_map_keys; now apply in_map).
    apply in_map_iff in Hk. destruct Hk as [[k v] [Hk Hin]]. simpl in Hk. subst k.
    rewrite (column_matches_key g e _ x v).
    now apply (find_none _ _ H).
  - intros H. destruct (find (column_matches g e) (col_map columns)) as [[k v]|] eqn:E;
      [|reflexivity].
    apply find_some in E. destruct E as [Hin Hm].
    destruct (col_map_last _ _ _ Hin) as [-> [l1 [l2 [-> _]]]].
    rewrite H in Hm; [discriminate|]. apply in_or_app. right. now left.
Qed.

Lemma try_priorities_some (m : list (pystr * cell)) (e : list pystr)
      (groups : list (list pystr)) (c : cell) :
  try_priorities m e groups = Some c ->
  exists before g after k,
    groups = before ++ g :: after
    /\ find (column_matches g e) m = Some (k, c)
    /\ forall g', In g' before -> find (column_matches g' e) m = None.
Proof.
  induction groups as [|g groups IH]; simpl; [discriminate|].
  destruct (find (column_matches g e) m) as [[k v]|] eqn:E.
  - intros H. injection H as ->. exists [], g, groups, k.
    split; [reflexivity|]. split; [exact E | contradiction].
  - intros H. destruct (IH H) as [before [g0 [after [k [-> [Hf Hb]]]]]].
    exists (g :: before), g0, after, k. split; [reflexivity|]. split; [exact Hf|].
    intros g' [<- | Hg']; [exact E | now apply Hb].
Qed.

(** What [find_best_column] returns is a column of the header; its
    normalized name contains a keyword of some priority group and no
    excluded keyword, and no column matches any group of higher priority. *)
Theorem find_best_column_sound (columns : list cell)
        (candidates_list : list (list pystr)) (exclude_keywords : option (list pystr))
        (c : cell) :
  find_best_column columns candidates_list exclude_keywords = Some c ->
  In c columns
  /\ exists before g after,
       candidates_list = before ++ g :: after
       /\ any_keyword_in g (normalize_text c) = true
       /\ any_keyword_in (or_empty exclude_keywords) (normalize_text c) = false
       /\ forall g' x, In g' before -> In x columns ->
                       column_matches g' (or_empty exclude_keywords)
                                      (normalize_text x, x) = false.
Proof.
  unfold find_best_column. fold (or_empty exclude_keywords).
  set (excl := or_empty exclude_keywords). intros H.
  apply try_priorities_some in H.
  destruct H as [before [g [after [k [Hg [Hf Hb]]]]]].
  apply find_some in Hf. destruct Hf as [Hin Hm].
  destruct (col_map_last _ _ _ Hin) as [-> [l1 [l2 [Hc _]]]].
  split; [rewrite Hc; apply in_or_app; right; now left|].
  exists before, g, after. split; [exact Hg|].
  unfold column_matches in Hm. cbn [fst] in Hm.
  apply andb_true_iff in Hm. destruct Hm as [Hany Hex].
  split; [exact Hany|]. split.
  - apply negb_true_iff in Hex. clearbody excl.
    destruct excl as [|e0 excl']; [reflexivity | exact Hex].
  - intros g' x Hg' Hx.
    exact (proj1 (find_in_col_map_none columns g' excl) (Hb g' Hg') x Hx).
Qed.

(** [find_best_column] returns [None] exactly when no column matches any
    priority group. *)
Theorem find_best_column_none (columns : list cell)
        (candidates_list : list (list pystr)) (exclude_keywords : option (list pystr)) :
  find_best_column columns candidates_list exclude_keywords = None
  <-> forall g x, In g candidates_list -> In x columns ->
                  column_matches g (or_empty exclude_keywords)
                                 (normalize_text x, x) = false.
Proof.
  unfold find_best_column. fold (or_empty exclude_keywords).
  set (excl := or_empty exclude_keywords).
  induction candidates_list as [|g groups IH]; simpl.
  - split; [intros _ g x [] | reflexivity].
  - destruct (find (column_matches g excl) (col_map columns)) as [[k v]|] eqn:E.
    + split; [discriminate|]. intros H. exfalso.
      assert (Hn : find (column_matches g excl) (col_map columns) = None)
        by (apply find_in_col_map_none; intros x Hx; apply H; [now left | exact Hx]).
      congruence.
    + rewrite IH. split.
      * intros H g' x [<- | Hg'] Hx; [|now apply H].
        exact (proj1 (find_in_col_map_none columns g excl) E x Hx).
      * intros H g' x Hg' Hx. apply H; [now right | exact Hx].
Qed.

(** Among the headers that normalize to the same string as the column
    returned, the column returned is the last one. *)
Theorem find_best_column_last_of_name (columns : list cell)
        (candidates_list : list (list pystr)) (exclude_keywords : option (list pystr))
        (c : cell) :
  find_best_column columns candidates_list exclude_keywords = Some c ->
  exists l1 l2,
    columns = l1 ++ c :: l2
    /\ forall x, In x l2 -> normalize_text x <> normalize_text c.
Proof.
  unfold find_best_column. intros H. apply try_priorities_some in H.
  destruct H as [before [g [after [k [_ [Hf _]]]]]].
  apply find_some in Hf. destruct Hf as [Hin _].
  destruct (col_map_last _ _ _ Hin) as [-> Hlast]. exact Hlast.
Qed.

(* ====================================================================== *)
(** ** Currency text *)
(* ====================================================================== *)

Lemma replace_char_filter (c : N) (s : pystr) :
  replace [c] [] s = filter (fun x => negb (c =? x)%N) s.
Proof.
  unfold replace. induction s as [|a t IH]; simpl; [reflexivity|].
  destruct (c =? a)%N; simpl; now rewrite IH.
Qed.

Lemma filter_drop_middle (c : N) (p : N -> bool) (a b : pystr) :
  p c = false -> filter p (a ++ c :: b) = filter p (a ++ b).
Proof.
  intros H. rewrite !filter_app. simpl. now rewrite H.
Qed.

(** Spaces and dollar signs, wherever they stand in the text, do not change
    what [clean_currency] returns. *)
Theorem clean_currency_ignores_space_and_dollar (a b : pystr) (c : N) :
  c = 32%N \/ c = 36%N ->
  clean_currency (Scalar (CStr (a ++ c :: b))) = clean_currency (Scalar (CStr (a ++ b))).
Proof.
  intros Hc. unfold clean_currency, unless_na. cbn [isna str_of py_str bind].
  change (u " ") with [32%N]. change (u "$") with [36%N].
  rewrite !replace_char_filter.
  destruct Hc as [-> | ->].
  - now rewrite filter_drop_middle.
  - assert (H32 : filter (fun x => negb (32 =? x)%N) (a ++ 36%N :: b)
                  = filter (fun x => negb (32 =? x)%N) a
                    ++ 36%N :: filter (fun x => negb (32 =? x)%N) b)
      by (rewrite filter_app; reflexivity).
    rewrite H32, (filter_app _ a b).
    now rewrite filter_drop_middle.
Qed.

Lemma startswith_map (f : N -> N) (old s : pystr) :
  (forall o x, In o old -> (o =? f x)%N = (o =? x)%N) ->
  startswith old (map f s) = startswith old s.
Proof.
  revert s. induction old as [|o old IH]; intros s H; [reflexivity|].
  destruct s as [|x s]; [reflexivity|]. simpl.
  rewrite (H o x (or_introl eq_refl)). f_equal. apply IH.
  intros o' x' Ho'. apply H. now right.
Qed.

Lemma replace_go_map (f : N -> N) (old : pystr) (s : pystr) :
  (forall o x, In o old -> (o =? f x)%N = (o =? x)%N) ->
  forall k, replace_go old [] k (map f s) = map f (replace_go old [] k s).
Proof.
  intros H. induction s as [|c t IH]; intros k; [reflexivity|].
  cbn [map replace_go]. destruct k as [|k]; [|apply IH].
  change (f c :: map f t) with (map f (c :: t)).
  rewrite (startswith_map f old (c :: t) H).
  destruct (startswith old (c :: t)); simpl; now rewrite IH.
Qed.

Lemma replace_comma_map (s : pystr) :
  replace [44%N] [46%N] s = comma_to_point s.
Proof.
  unfold replace, comma_to_point. induction s as [|c t IH]; [reflexivity|].
  cbn [replace_go startswith map List.length Nat.pred].
  rewrite N.eqb_sym. destruct (c =? 44)%N; simpl; now rewrite IH.
Qed.

Lemma comma_to_point_idem (s : pystr) :
  comma_to_point (comma_to_point s) = comma_to_point s.
Proof.
  unfold comma_to_point. rewrite map_map. apply map_ext. intros c.
  destruct (c =? 44)%N eqn:E; [reflexivity | now rewrite E].
Qed.

Lemma comma_to_point_keeps (o : N) (x : N) :
  o <> 44%N -> o <> 46%N ->
  (o =? (if (x =? 44)%N then 46%N else x))%N = (o =? x)%N.
Proof.
  intros H44 H46. destruct (x =? 44)%N eqn:E; [|reflexivity].
  apply N.eqb_eq in E. subst x.
  apply N.eqb_neq in H44, H46. now rewrite H44, H46.
Qed.

(** A decimal comma and a decimal point are interchangeable: turning every
    comma of the text into a point does not change what [clean_currency]
    returns. *)
Theorem clean_currency_comma_is_point (s : pystr) :
  clean_currency (Scalar (CStr (comma_to_point s))) = clean_currency (Scalar (CStr s)).
Proof.
  unfold clean_currency, unless_na. cbn [isna str_of py_str bind].
  change (u " ") with [32%N]. change (u "$") with [36%N].
  change (u ",") with [44%N]. change (u ".") with [46%N].
  assert (Hkeep : forall old,
             (forall o, In o old -> o <> 44%N /\ o <> 46%N) ->
             forall x, replace old [] (comma_to_point x)
                       = comma_to_point (replace old [] x)).
  { intros old Hold x. unfold replace, comma_to_point. apply replace_go_map.
    intros o y Ho. destruct (Hold o Ho). now apply comma_to_point_keeps. }
  rewrite (Hkeep [32%N]), (Hkeep [36%N]), (Hkeep (u "грн")).
  - now rewrite !replace_comma_map, comma_to_point_idem.
  - intros o Ho. vm_compute in Ho.
    destruct Ho as [<- | [<- | [<- | []]]]; split; discriminate.
  - intros o [<- | []]; split; discriminate.
  - intros o [<- | []]; split; discriminate.
Qed.

(* ====================================================================== *)
(** ** Integer cells *)
(* ====================================================================== *)

Lemma digits_value_snoc (ds : pystr) (d : N) :
  digits_value (ds ++ [d]) = (digits_value ds * 10 + (d - 48))%N.
Proof.
  unfold digits_value. now rewrite fold_left_app.
Qed.

Lemma isdigit_of_small (d : N) : (d < 10)%N -> isdigit (48 + d) = true.
Proof.
  intros H. unfold isdigit. apply andb_true_iff. split; apply N.leb_le; lia.
Qed.

Lemma digits_go_spec (fuel : nat) :
  forall n acc,
    (0 < fuel)%nat -> (n < 10 ^ N.of_nat fuel)%N ->
    exists ds,
      digits_go fuel n acc = ds ++ acc
      /\ ds <> []
      /\ Forall (fun c => isdigit c = true) ds
      /\ digits_value ds = n.
Proof.
  induction fuel as [|f IH]; intros n acc Hf Hn; [inversion Hf|].
  cbn [digits_go]. destruct (n <? 10)%N eqn:E.
  - apply N.ltb_lt in E. exists [(48 + n mod 10)%N].
    rewrite (N.mod_small n 10 E).
    split; [reflexivity|]. split; [discriminate|]. split.
    + constructor; [|constructor]. now apply isdigit_of_small.
    + unfold digits_value. cbn [fold_left]. lia.
  - apply N.ltb_ge in E.
    assert (Hf' : (0 < f)%nat).
    { destruct f; [|auto with arith]. simpl in Hn. lia. }
    assert (Hn' : (n / 10 < 10 ^ N.of_nat f)%N).
    { apply N.Div0.div_lt_upper_bound.
      rewrite Nat2N.inj_succ, N.pow_succ_r' in Hn. exact Hn. }
    destruct (IH (n / 10)%N ((48 + n mod 10)%N :: acc) Hf' Hn')
      as [ds [Hgo [Hne [Hd Hv]]]].
    assert (Hmod : (n mod 10 < 10)%N) by (apply N.mod_lt; discriminate).
    exists (ds ++ [(48 + n mod 10)%N]). rewrite Hgo, <- app_assoc.
    split; [reflexivity|]. split; [intros H; now apply app_eq_nil in H as [_ H]|].
    split.
    + apply Forall_app. split; [exact Hd|]. constructor; [|constructor].
      now apply isdigit_of_small.
    + rewrite digits_value_snoc, Hv.
      pose proof (N.div_mod n 10 ltac:(discriminate)) as Hdm.
      set (q := (n / 10)%N) in *. set (r := (n mod 10)%N) in *.
      clearbody q r. clear - Hdm. lia.
Qed.

(** [digits_of] writes a number in decimal, and [digits_value] reads it
    back. *)
Lemma digits_of_spec (n : N) :
  digits_of n <> []
  /\ Forall (fun c => isdigit c = true) (digits_of n)
  /\ digits_value (digits_of n) = n.
Proof.
  unfold digits_of.
  destruct (digits_go_spec (S (N.to_nat (N.log2 n))) n []) as [ds [Hgo H]].
  - auto with arith.
  - rewrite Nat2N.inj_succ, N2Nat.id.
    destruct (N.eq_dec n 0) as [-> | Hn]; [reflexivity|].
    apply N.lt_le_trans with (2 ^ N.succ (N.log2 n))%N.
    + apply N.log2_spec. lia.
    + apply N.pow_le_mono_l. lia.
  - rewrite Hgo, app_nil_r. exact H.
Qed.

Lemma digit_facts (c : N) :
  isdigit c = true ->
  isspace c = false /\ lower_cp c = c /\ c <> 45%N /\ c <> 43%N
  /\ c <> 105%N /\ c <> 110%N
  /\ (forall o, In o [32; 36; 44; 160; 1075]%N -> o <> c).
Proof.
  unfold isdigit. intros H. apply andb_true_iff in H. destruct H as [H1 H2].
  apply N.leb_le in H1, H2.
  assert (Hc : In c [48; 49; 50; 51; 52; 53; 54; 55; 56; 57]%N).
  { simpl. lia. }
  simpl in Hc.
  repeat (destruct Hc as [<- | Hc];
          [repeat split; try discriminate; try reflexivity;
           intros o Ho; simpl in Ho;
           repeat (destruct Ho as [<- | Ho]; [discriminate|]); contradiction|]).
  contradiction.
Qed.

Lemma scan_digits_all (ds : pystr) :
  Forall (fun c => isdigit c = true) ds ->
  forall us prev, scan_digits us prev ds = (ds, []).
Proof.
  induction 1 as [|c ds Hc _ IH]; intros us prev; simpl; [reflexivity|].
  now rewrite Hc, IH.
Qed.

Lemma digit_ascii (c : N) :
  isdigit c = true ->
  isdecimal c = true /\ to_ascii_cp c = c /\ isspace_ascii c = false.
Proof.
  unfold isdigit. intros H. apply andb_true_iff in H. destruct H as [H1 H2].
  apply N.leb_le in H1, H2.
  assert (Hc : In c [48; 49; 50; 51; 52; 53; 54; 55; 56; 57]%N) by (simpl; lia).
  simpl in Hc.
  repeat (destruct Hc as [<- | Hc]; [repeat split; reflexivity|]). contradiction.
Qed.

Lemma take_digits_all (ds : pystr) :
  Forall (fun c => isdecimal c = true) ds -> take_digits ds = ds.
Proof.
  induction 1 as [|c ds Hc _ IH]; simpl; [reflexivity|]. now rewrite Hc, IH.
Qed.

Lemma digits_decimal (ds : pystr) :
  Forall (fun c => isdigit c = true) ds -> Forall (fun c => isdecimal c = true) ds.
Proof.
  intros H. eapply Forall_impl; [|exact H]. intros c Hc. now apply digit_ascii.
Qed.

(** ASCII digits are what [int] and [float] make them. *)
Lemma to_ascii_digits (ds : pystr) :
  Forall (fun c => isdigit c = true) ds -> to_ascii ds = ds.
Proof.
  intros H. unfold to_ascii. rewrite <- (map_id ds) at 2. apply map_ext_in.
  intros c Hc. rewrite Forall_forall in H. now apply digit_ascii, H.
Qed.

Lemma replace_absent (old new s : pystr) (o : N) (rest : pystr) :
  old = o :: rest -> ~ In o s -> replace old new s = s.
Proof.
  intros -> H. unfold replace. induction s as [|c t IH]; [reflexivity|].
  cbn [replace_go startswith].
  assert (Hoc : (o =? c)%N = false)
    by (apply N.eqb_neq; intros ->; apply H; now left).
  rewrite Hoc. simpl. f_equal. apply IH. intros Hin. apply H. now right.
Qed.

Lemma no_space_trimmed (s : pystr) :
  Forall (fun c => isspace c = false) s -> trimmed s.
Proof.
  intros H. rewrite Forall_forall in H. split.
  - intros c t ->. apply H. now left.
  - intros t c ->. apply H. apply in_or_app. right. now left.
Qed.

Lemma lstrip_ascii_head (s : pystr) :
  (forall c t, s = c :: t -> isspace_ascii c = false) -> lstrip_ascii s = s.
Proof.
  destruct s as [|c t]; [reflexivity|]. intros H. simpl.
  now rewrite (H c t eq_refl).
Qed.

(** Text without ASCII whitespace at its ends is what [float] parses. *)
Lemma strip_ascii_fixed (s : pystr) :
  (forall c t, s = c :: t -> isspace_ascii c = false) ->
  (forall t c, s = t ++ [c] -> isspace_ascii c = false) ->
  strip_ascii s = s.
Proof.
  intros Hhead Hlast. unfold strip_ascii. rewrite (lstrip_ascii_head s Hhead).
  rewrite lstrip_ascii_head; [apply rev_involutive|].
  intros c t E. apply (Hlast (rev t) c).
  rewrite <- (rev_involutive s), E. reflexivity.
Qed.

Lemma py_float_signed_digits (s ds : pystr) (neg : bool) :
  ds <> [] ->
  Forall (fun c => isdigit c = true) ds ->
  to_ascii s = s ->
  strip_ascii s = s ->
  take_sign s = (neg, ds) ->
  py_float s = Some (round_binary64 neg (Z.of_N (digits_value ds)) 1).
Proof.
  intros Hne Hds Hascii Htrim Hsign.
  unfold py_float. rewrite Hascii, Htrim, Hsign.
  assert (Hlow : lower ds = ds).
  { unfold lower. rewrite <- (map_id ds) at 2. apply map_ext_in.
    intros c Hc. rewrite Forall_forall in Hds. now apply digit_facts, Hds. }
  rewrite Hlow.
  destruct ds as [|d ds']; [contradiction|].
  inversion Hds as [|? ? Hd Hds']; subst.
  pose proof (digit_facts d Hd) as (_ & _ & _ & _ & H105 & H110 & _).
  assert (Hw : forall w rest, d <> w -> str_eqb (d :: ds') (w :: rest) = false).
  { intros w rest Hwd. destruct (str_eqb (d :: ds') (w :: rest)) eqn:E; [|reflexivity].
    apply str_eqb_eq in E. injection E as E _. now subst. }
  unfold word_inf, word_infinity, word_nan.
  rewrite !Hw by assumption.
  cbn [orb]. unfold parse_decimal.
  rewrite (scan_digits_all (d :: ds') Hds). cbn [scan_fraction].
  rewrite app_nil_r. cbn [scan_exponent List.length Z.of_nat Z.opp].
  unfold float_of_decimal. cbn [Z.ltb Z.compare].
  now rewrite Z.pow_0_r, Z.mul_1_r.
Qed.

(** [float] reads a run of digits, with or without a minus sign, as the
    number they write. *)
Lemma py_float_digits (ds : pystr) (neg : bool) :
  ds <> [] ->
  Forall (fun c => isdigit c = true) ds ->
  py_float (if neg then 45%N :: ds else ds)
  = Some (round_binary64 neg (Z.of_N (digits_value ds)) 1).
Proof.
  intros Hne Hds.
  assert (Hascii : to_ascii ds = ds) by now apply to_ascii_digits.
  assert (Hns : Forall (fun c => isspace_ascii c = false) ds)
    by (eapply Forall_impl; [|exact Hds]; intros c Hc; now apply digit_ascii).
  assert (Hall : forall s, Forall (fun c => isspace_ascii c = false) s ->
                           strip_ascii s = s).
  { intros s Hs. rewrite Forall_forall in Hs.
    apply strip_ascii_fixed.
    - intros c t ->. apply Hs. now left.
    - intros t c ->. apply Hs. apply in_or_app. right. now left. }
  destruct neg; apply py_float_signed_digits; try assumption.
  - unfold to_ascii in *. cbn [map]. now rewrite Hascii.
  - apply Hall. now constructor.
  - reflexivity.
  - now apply Hall.
  - destruct ds as [|d ds']; [contradiction|].
    inversion Hds as [|? ? Hd _]; subst. apply digit_facts in Hd.
    destruct Hd as (_ & _ & H45 & H43 & _). apply N.eqb_neq in H45, H43.
    unfold take_sign. now rewrite H45, H43.
Qed.

(** Text without spaces, dollar signs, commas, non-breaking spaces and the
    letter "г" reaches the parser as it is. *)
Lemma currency_text_fixed (val : cell) :
  (forall o, In o [32; 36; 44; 160; 1075]%N -> ~ In o (py_str val)) ->
  currency_text val = py_str val.
Proof.
  intros Hout. unfold currency_text.
  change (u " ") with [32%N]. change (u "$") with [36%N].
  change (u "грн") with [1075; 1088; 1085]%N.
  change (u ",") with [44%N]. change (u ".") with [46%N].
  rewrite (replace_absent [32%N] [] _ 32%N []); [|reflexivity|apply Hout; simpl; tauto].
  rewrite (replace_absent [36%N] [] _ 36%N []); [|reflexivity|apply Hout; simpl; tauto].
  rewrite (replace_absent [1075; 1088; 1085]%N [] _ 1075%N [1088; 1085]%N);
    [|reflexivity|apply Hout; simpl; tauto].
  rewrite (replace_absent [44%N] [46%N] _ 44%N []);
    [|reflexivity|apply Hout; simpl; tauto].
  rewrite (replace_absent [160%N] [] _ 160%N []); [|reflexivity|apply Hout; simpl; tauto].
  reflexivity.
Qed.

Lemma str_int_chars (z : Z) (o : N) :
  In o [32; 36; 44; 160; 1075]%N -> ~ In o (str_int z).
Proof.
  destruct (digits_of_spec (Z.abs_N z)) as [_ [Hds _]].
  intros Ho Hin.
  assert (Hd : In o (digits_of (Z.abs_N z)) -> False).
  { intros Hd. rewrite Forall_forall in Hds.
    apply (proj2 (proj2 (proj2 (proj2 (proj2 (proj2
             (digit_facts o (Hds o Hd))))))) o Ho). reflexivity. }
  unfold str_int in Hin.
  destruct (z <? 0); [destruct Hin as [<- | Hin]|]; auto.
  simpl in Ho. repeat (destruct Ho as [Ho | Ho]; [discriminate|]). contradiction.
Qed.

(** A number below [10^k] is written with at most [k] digits. *)
Lemma digits_go_length (fuel : nat) :
  forall k n acc,
    (n < 10 ^ N.of_nat (S k))%N ->
    (List.length (digits_go fuel n acc) <= S k + List.length acc)%nat.
Proof.
  induction fuel as [|f IH]; intros k n acc Hn; cbn [digits_go]; [lia|].
  destruct (n <? 10)%N eqn:E; [simpl; lia|]. apply N.ltb_ge in E.
  destruct k as [|k]; [change (10 ^ N.of_nat 1)%N with 10%N in Hn; lia|].
  assert (Hn' : (n / 10 < 10 ^ N.of_nat (S k))%N).
  { apply N.Div0.div_lt_upper_bound.
    rewrite (Nat2N.inj_succ (S k)), N.pow_succ_r' in Hn. exact Hn. }
  specialize (IH k (n / 10)%N ((48 + n mod 10)%N :: acc) Hn').
  simpl in IH. simpl. lia.
Qed.

Lemma digits_of_length (k : nat) (n : N) :
  (n < 10 ^ N.of_nat (S k))%N -> (List.length (digits_of n) <= S k)%nat.
Proof.
  intros H. unfold digits_of.
  pose proof (digits_go_length (S (N.to_nat (N.log2 n))) k n [] H) as Hl.
  cbn [List.length] in Hl. now rewrite Nat.add_0_r in Hl.
Qed.

(** [str] converts an integer below [10^4300]. *)
Lemma str_of_int_ok (z : Z) :
  Z.abs z < 10 ^ 4300 -> str_of_int z = Ok (str_int z).
Proof.
  intros H. unfold str_of_int.
  assert (Hn : (Z.abs_N z < 10 ^ N.of_nat (S 4299))%N).
  { apply N2Z.inj_lt. rewrite N2Z.inj_pow, N2Z.inj_abs_N. exact H. }
  apply digits_of_length in Hn.
  destruct (max_str_digits <? List.length (digits_of (Z.abs_N z)))%nat eqn:E;
    [|reflexivity].
  apply Nat.ltb_lt in E. unfold max_str_digits in E. lia.
Qed.

(** A price typed as a whole number is read as that number:
    [clean_currency] of an integer cell, of at most the 4300 digits that
    [str] converts, is its value rounded to a float. *)
Theorem clean_currency_int (z : Z) :
  Z.abs z < 10 ^ 4300 ->
  clean_currency (Scalar (CInt z)) = Ok (Some (float_of_int z)).
Proof.
  intros Hz.
  destruct (digits_of_spec (Z.abs_N z)) as [Hne [Hds Hv]].
  unfold clean_currency, unless_na. cbn [isna str_of].
  rewrite (str_of_int_ok z Hz). cbn [bind]. f_equal.
  change (py_float (currency_text (CInt z)) = Some (float_of_int z)).
  rewrite (currency_text_fixed (CInt z) (str_int_chars z)).
  cbn [py_str]. unfold str_int, float_of_int.
  etransitivity; [exact (py_float_digits (digits_of (Z.abs_N z)) (z <? 0) Hne Hds)|].
  now rewrite Hv, N2Z.inj_abs_N.
Qed.

Lemma clean_currency_int_witness :
  clean_currency (Scalar (CInt 250000)) = Ok (Some (float_of_int 250000)).
Proof.
  apply (clean_currency_int 250000). vm_compute. reflexivity.
Defined.

Lemma int_of_run_digits (ds : pystr) :
  Forall (fun c => isdigit c = true) ds ->
  (List.length ds <= 4300)%nat ->
  int_of_run ds = Ok (int_of_digits ds).
Proof.
  intros Hds Hlen. unfold int_of_run. rewrite (to_ascii_digits ds Hds).
  destruct (max_str_digits <? List.length ds)%nat eqn:E; [|reflexivity].
  apply Nat.ltb_lt in E. unfold max_str_digits in E. lia.
Qed.

(** The room count of an integer cell, of at most the 4300 digits that
    [str] converts, is its absolute value (the sign is not a digit) when
    that is 1, 2 or 3, and nothing otherwise. *)
Theorem extract_room_count_int (z : Z) :
  Z.abs z < 10 ^ 4300 ->
  extract_room_count (Scalar (CInt z))
  = Ok (if existsb (Z.eqb (Z.abs z)) [1; 2; 3] then Some (Z.abs z) else None).
Proof.
  intros Hz.
  destruct (digits_of_spec (Z.abs_N z)) as [Hne [Hds Hv]].
  unfold extract_room_count, unless_na. cbn [isna str_of].
  pose proof (str_of_int_ok z Hz) as Hstr. rewrite Hstr. cbn [bind].
  unfold str_of_int in Hstr.
  destruct (max_str_digits <? List.length (digits_of (Z.abs_N z)))%nat eqn:Elen;
    [discriminate|]. apply Nat.ltb_ge in Elen. unfold max_str_digits in Elen.
  unfold str_int.
  assert (Hs : search_digits (digits_of (Z.abs_N z)) = Some (digits_of (Z.abs_N z))).
  { destruct (digits_of (Z.abs_N z)) as [|d ds] eqn:E; [contradiction|].
    inversion Hds as [|? ? Hd Hds']; subst. cbn [search_digits].
    rewrite (proj1 (digit_ascii d Hd)).
    now rewrite (take_digits_all (d :: ds) (digits_decimal _ Hds)). }
  assert (Hs' : search_digits (if z <? 0 then 45%N :: digits_of (Z.abs_N z)
                               else digits_of (Z.abs_N z))
                = Some (digits_of (Z.abs_N z))).
  { destruct (z <? 0); [exact Hs | exact Hs]. }
  rewrite Hs', (int_of_run_digits _ Hds Elen). cbn [bind].
  unfold int_of_digits. rewrite Hv, N2Z.inj_abs_N.
  now destruct (existsb (Z.eqb (Z.abs z)) [1; 2; 3]).
Qed.

Lemma extract_room_count_int_witness :
  extract_room_count (Scalar (CInt (-2))) = Ok (Some 2).
Proof.
  apply (extract_room_count_int (-2)). vm_compute. reflexivity.
Defined.

(* ====================================================================== *)
(** ** Room counts in text *)
(* ====================================================================== *)

Lemma take_digits_run (ds post : pystr) :
  Forall (fun c => isdecimal c = true) ds ->
  (forall c t, post = c :: t -> isdecimal c = false) ->
  take_digits (ds ++ post) = ds.
Proof.
  intros Hds Hpost. induction Hds as [|d ds Hd _ IH]; simpl.
  - destruct post as [|c t]; [reflexivity|]. simpl. now rewrite (Hpost c t eq_refl).
  - now rewrite Hd, IH.
Qed.

Lemma search_digits_first (pre ds post : pystr) :
  Forall (fun c => isdecimal c = false) pre ->
  ds <> [] ->
  Forall (fun c => isdecimal c = true) ds ->
  (forall c t, post = c :: t -> isdecimal c = false) ->
  search_digits (pre ++ ds ++ post) = Some ds.
Proof.
  intros Hpre Hne Hds Hpost. induction Hpre as [|p pre Hp _ IH]; simpl.
  - destruct ds as [|d ds']; [contradiction|].
    inversion Hds as [|? ? Hd _]; subst. cbn [app search_digits]. rewrite Hd.
    change (d :: ds' ++ post) with ((d :: ds') ++ post).
    now rewrite take_digits_run.
  - now rewrite Hp.
Qed.

(** Only the leftmost run of decimal digits counts: for text made of a
    digit-free part, a run of digits and a rest that does not go on with a
    digit, [extract_room_count] returns the number the run writes when it is
    1, 2 or 3 and nothing otherwise, whatever digits the rest holds; a run
    of more than 4300 digits is a [ValueError] of [int]. *)
Theorem extract_room_count_first_run (pre ds post : pystr) :
  Forall (fun c => isdecimal c = false) pre ->
  ds <> [] ->
  Forall (fun c => isdecimal c = true) ds ->
  (forall c t, post = c :: t -> isdecimal c = false) ->
  ((List.length ds <= 4300)%nat ->
   extract_room_count (Scalar (CStr (pre ++ ds ++ post)))
   = Ok (if existsb (Z.eqb (run_value ds)) [1; 2; 3]
         then Some (run_value ds) else None))
  /\ ((4300 < List.length ds)%nat ->
      extract_room_count (Scalar (CStr (pre ++ ds ++ post))) = Raises ValueError).
Proof.
  intros Hpre Hne Hds Hpost.
  unfold extract_room_count, unless_na. cbn [isna str_of py_str bind].
  rewrite (search_digits_first pre ds post Hpre Hne Hds Hpost).
  unfold int_of_run, max_str_digits, run_value. split; intros Hlen.
  - apply Nat.ltb_ge in Hlen. rewrite Hlen. cbn [bind].
    now destruct (existsb _ [1; 2; 3]).
  - apply Nat.ltb_lt in Hlen. now rewrite Hlen.
Qed.

(* ====================================================================== *)
(** ** Errors and degraded sheets *)
(* ====================================================================== *)

Lemma find_header_row_in_bounds (df : list (list cell)) (keywords : option (list pystr)) :
  df <> [] -> (find_header_row df keywords < List.length df)%nat.
Proof.
  intros Hne. unfold find_header_row.
  destruct (scan_rows (header_keywords keywords) 0 df) as [i|] eqn:E.
  - apply scan_rows_some in E. destruct E as [j [row [-> [Hj _]]]].
    simpl. apply nth_error_Some. congruence.
  - destruct df; [contradiction | simpl; auto with arith].
Qed.

Lemma if_col_raises {A : Type} (columns row : list cell) (col : option cell)
      (f : cell -> option A) (e : pyexn) :
  if_col columns row col f = Raises e -> e = ValueError.
Proof.
  unfold if_col, get_scalar. destruct col as [c|]; [|discriminate].
  destruct (truthy c); [|discriminate].
  destruct (row_get columns row c CNone); cbn [bind]; [discriminate|].
  intros H. now injection H.
Qed.

Lemma str_of_raises (c : cell) (e : pyexn) :
  str_of c = Raises e -> e = ValueError.
Proof.
  destruct c; try discriminate. unfold str_of, str_of_int.
  destruct (_ <? _)%nat; [|discriminate]. intros H. now injection H.
Qed.

Lemma clean_currency_raises (val : lookup) (e : pyexn) :
  clean_currency val = Raises e -> e = ValueError.
Proof.
  unfold clean_currency, unless_na. destruct val as [c | c1 c2 cs].
  - destruct (isna c); [discriminate|].
    destruct (str_of c) as [s|e'] eqn:E; cbn [bind]; [discriminate|].
    intros H. injection H as <-. exact (str_of_raises _ _ E).
  - intros H. now injection H.
Qed.

Lemma extract_room_count_raises (val : lookup) (e : pyexn) :
  extract_room_count val = Raises e -> e = ValueError.
Proof.
  unfold extract_room_count, unless_na. destruct val as [c | c1 c2 cs].
  - destruct (isna c); [discriminate|].
    destruct (str_of c) as [s|e'] eqn:E; cbn [bind].
    + destruct (search_digits s) as [ds|]; [|discriminate].
      unfold int_of_run. destruct (_ <? _)%nat; cbn [bind].
      * intros H. now injection H.
      * destruct (existsb _ _); discriminate.
    + intros H. injection H as <-. exact (str_of_raises _ _ E).
  - intros H. now injection H.
Qed.

Lemma call_if_col_raises {A : Type} (columns row : list cell) (col : option cell)
      (f : lookup -> outcome (option A)) (e : pyexn) :
  (forall val e', f val = Raises e' -> e' = ValueError) ->
  call_if_col columns row col f = Raises e -> e = ValueError.
Proof.
  intros Hf. unfold call_if_col. destruct col as [c|]; [|discriminate].
  destruct (truthy c); [|discriminate]. apply Hf.
Qed.

Lemma process_row_raises (pd : series_repr) (cfg : config) (sheet_name : pystr)
      (columns : list cell) (cols : colmap) (i : nat) (row : list cell) (e : pyexn) :
  process_row pd cfg sheet_name columns cols i row = Raises e -> e = ValueError.
Proof.
  unfold process_row.
  repeat match goal with
         | |- (if ?b then _ else _) = _ -> _ => destruct b; [discriminate|]
         | |- bind (if_col ?a ?b ?c ?f) _ = _ -> _ =>
             let E := fresh "E" in
             destruct (if_col a b c f) as [?|e'] eqn:E; cbn [bind];
             [|intros H; injection H as <-; exact (if_col_raises _ _ _ _ _ E)]
         | |- bind (call_if_col ?a ?b ?c extract_room_count) _ = _ -> _ =>
             let E := fresh "E" in
             destruct (call_if_col a b c extract_room_count) as [?|e'] eqn:E;
             cbn [bind];
             [|intros H; injection H as <-;
               exact (call_if_col_raises _ _ _ _ _ extract_room_count_raises E)]
         | |- bind (call_if_col ?a ?b ?c clean_currency) _ = _ -> _ =>
             let E := fresh "E" in
             destruct (call_if_col a b c clean_currency) as [?|e'] eqn:E;
             cbn [bind];
             [|intros H; injection H as <-;
               exact (call_if_col_raises _ _ _ _ _ clean_currency_raises E)]
         | |- match ?o with Some _ => _ | None => _ end = _ -> _ =>
             destruct o; [|discriminate]
         end.
  discriminate.
Qed.

Lemma process_rows_raises (pd : series_repr) (cfg : config) (sheet_name : pystr)
      (columns : list cell) (cols : colmap) (rows : list (list cell)) (e : pyexn) :
  forall i, process_rows pd cfg sheet_name columns cols i rows = Raises e ->
            e = ValueError.
Proof.
  induction rows as [|row rest IH]; intros i; simpl; [discriminate|].
  destruct (process_row pd cfg sheet_name columns cols i row) as [o|e'] eqn:E;
    cbn [bind].
  - destruct (process_rows pd cfg sheet_name columns cols (S i) rest) as [rs|e'] eqn:E';
      cbn [bind]; [discriminate|].
    intros H. injection H as <-. exact (IH _ E').
  - intros H. injection H as <-. exact (process_row_raises _ _ _ _ _ _ _ _ E).
Qed.

(** [process_sheet] raises [IndexError] on the grid without rows and on no
    other grid; any other exception it raises is a [ValueError]. *)
Theorem process_sheet_exceptions (pd : series_repr) (cfg : config)
        (df : list (list cell)) (sheet_name : pystr) :
  (process_sheet pd cfg df sheet_name = Raises IndexError <-> df = [])
  /\ (forall e, process_sheet pd cfg df sheet_name = Raises e ->
                e = IndexError \/ e = ValueError).
Proof.
  assert (Hcases : df = [] /\ process_sheet pd cfg df sheet_name = Raises IndexError
                   \/ df <> [] /\ forall e, process_sheet pd cfg df sheet_name = Raises e
                                            -> e = ValueError).
  { destruct df as [|r0 df']; [left; split; reflexivity|]. right.
    split; [discriminate|]. intros e. unfold process_sheet.
    pose proof (find_header_row_in_bounds (r0 :: df') None ltac:(discriminate)) as Hb.
    destruct (nth_error (r0 :: df') (find_header_row (r0 :: df') None)) as [columns|] eqn:E.
    - apply process_rows_raises.
    - apply nth_error_None in E. lia. }
  destruct Hcases as [[-> H] | [Hne H]].
  - split; [split; [reflexivity | intros _; exact H]|].
    intros e He. left. rewrite H in He. now injection He.
  - split.
    + split; [intros E; apply H in E; discriminate | contradiction].
    + intros e He. right. now apply H.
Qed.

Lemma matches_bounded (c : cell) (columns row : list cell) :
  (List.length (filter (fun p => label_eqb c (fst p)) (combine columns row))
   <= occurrences c columns)%nat.
Proof.
  unfold occurrences. revert row.
  induction columns as [|x columns IH]; intros row; simpl; [auto|].
  destruct row as [|v row]; simpl; [auto with arith|].
  specialize (IH row). destruct (label_eqb c x); simpl; lia.
Qed.

(** A label that names at most one column is looked up as one cell. *)
Lemma row_get_scalar (columns row : list cell) (c default : cell) :
  (occurrences c columns <= 1)%nat ->
  exists v, row_get columns row c default = Scalar v.
Proof.
  intros H. unfold row_get. pose proof (matches_bounded c columns row) as Hb.
  destruct (filter (fun p => label_eqb c (fst p)) (combine columns row))
    as [|p [|q l]]; simpl in *.
  - now exists default.
  - now exists (snd p).
  - lia.
Qed.

Lemma if_col_ok {A : Type} (columns row : list cell) (col : option cell)
      (f : cell -> option A) :
  (forall c, col = Some c -> (occurrences c columns <= 1)%nat) ->
  exists v, if_col columns row col f = Ok v.
Proof.
  intros H. unfold if_col, get_scalar. destruct col as [c|]; [|now exists None].
  destruct (truthy c); [|now exists None].
  destruct (row_get_scalar columns row c CNone (H c eq_refl)) as [v ->].
  cbn [bind]. now exists (f v).
Qed.

(** What a row gives for a label that names one column is a cell of the
    row, or the default. *)
Lemma row_get_in (columns row : list cell) (c default v : cell) :
  row_get columns row c default = Scalar v -> v = default \/ In v row.
Proof.
  unfold row_get.
  destruct (filter (fun p => label_eqb c (fst p)) (combine columns row))
    as [|p [|q l]] eqn:E; simpl; intros H; try discriminate.
  - injection H as <-. now left.
  - injection H as <-. right.
    assert (Hp : In p (combine columns row)).
    { eapply (proj1 (filter_In _ _ _)). rewrite E. now left. }
    destruct p as [x y]. now apply in_combine_r in Hp.
Qed.

Lemma str_of_short (c : cell) : short_text c -> str_of c = Ok (py_str c).
Proof.
  unfold short_text. destruct c as [| s | z | f]; try reflexivity.
  cbn [py_str str_of]. unfold str_of_int, str_int, max_str_digits. intros H.
  destruct (_ <? _)%nat eqn:E; [|reflexivity]. apply Nat.ltb_lt in E.
  destruct (z <? 0); simpl in H; lia.
Qed.

Lemma take_digits_length (s : pystr) :
  (List.length (take_digits s) <= List.length s)%nat.
Proof.
  induction s as [|c t IH]; simpl; [auto|]. destruct (isdecimal c); simpl; lia.
Qed.

Lemma search_digits_length (s ds : pystr) :
  search_digits s = Some ds -> (List.length ds <= List.length s)%nat.
Proof.
  revert ds. induction s as [|c t IH]; intros ds; [discriminate|].
  cbn [search_digits]. destruct (isdecimal c) eqn:E.
  - intros H. injection H as <-. apply (take_digits_length (c :: t)).
  - intros H. apply IH in H. simpl. lia.
Qed.

Lemma clean_currency_ok (c : cell) :
  short_text c -> exists r, clean_currency (Scalar c) = Ok r.
Proof.
  intros H. unfold clean_currency, unless_na.
  destruct (isna c); [now exists None|].
  rewrite (str_of_short c H). cbn [bind]. eexists. reflexivity.
Qed.

Lemma extract_room_count_ok (c : cell) :
  short_text c -> exists r, extract_room_count (Scalar c) = Ok r.
Proof.
  intros H. unfold extract_room_count, unless_na.
  destruct (isna c); [now exists None|].
  rewrite (str_of_short c H). cbn [bind].
  destruct (search_digits (py_str c)) as [ds|] eqn:E; [|now exists None].
  apply search_digits_length in E. unfold short_text in H.
  unfold int_of_run, max_str_digits.
  destruct (_ <? _)%nat eqn:El; [apply Nat.ltb_lt in El; lia|]. cbn [bind].
  destruct (existsb _ _); eexists; reflexivity.
Qed.

Lemma call_if_col_ok {A : Type} (columns row : list cell) (col : option cell)
      (f : lookup -> outcome (option A)) :
  (forall c, short_text c -> exists r, f (Scalar c) = Ok r) ->
  Forall short_text row ->
  (forall c, col = Some c -> (occurrences c columns <= 1)%nat) ->
  exists v, call_if_col columns row col f = Ok v.
Proof.
  intros Hf Hrow H. unfold call_if_col. destruct col as [c|]; [|now exists None].
  destruct (truthy c); [|now exists None].
  destruct (row_get_scalar columns row c CNone (H c eq_refl)) as [v E].
  rewrite E. apply Hf. apply row_get_in in E. destruct E as [-> | E].
  - unfold short_text. simpl. lia.
  - rewrite Forall_forall in Hrow. now apply Hrow.
Qed.

Lemma process_row_ok (pd : series_repr) (cfg : config) (sheet_name : pystr)
      (columns : list cell) (cols : colmap) (i : nat) (row : list cell) :
  (forall c, In (Some c) (tested_cols cols) -> (occurrences c columns <= 1)%nat) ->
  Forall short_text row ->
  exists o, process_row pd cfg sheet_name columns cols i row = Ok o.
Proof.
  intros H Hshort. unfold tested_cols in H.
  assert (Hcol : forall (A : Type) col (f : cell -> option A),
             In col [rooms_col cols; area_col cols; price_m2_col cols;
                     total_price_col cols; complex_col cols] ->
             exists v, if_col columns row col f = Ok v).
  { intros A col f Hin. apply if_col_ok. intros c ->. now apply H. }
  assert (Hcall : forall (A : Type) col (f : lookup -> outcome (option A)),
             (forall c, short_text c -> exists r, f (Scalar c) = Ok r) ->
             In col [rooms_col cols; area_col cols; price_m2_col cols;
                     total_price_col cols; complex_col cols] ->
             exists v, call_if_col columns row col f = Ok v).
  { intros A col f Hf Hin. apply call_if_col_ok; [exact Hf | exact Hshort|].
    intros c ->. now apply H. }
  unfold process_row.
  repeat match goal with
         | |- exists o, (if ?b then _ else _) = _ =>
             destruct b; [now exists None|]
         | |- exists o, bind (if_col ?a ?b ?c ?f) _ = _ =>
             let v := fresh "v" in
             let E := fresh "E" in
             destruct (Hcol _ c f ltac:(simpl; tauto)) as [v E];
             rewrite E; cbn [bind]
         | |- exists o, bind (call_if_col ?a ?b ?c extract_room_count) _ = _ =>
             let v := fresh "v" in
             let E := fresh "E" in
             destruct (Hcall _ c extract_room_count extract_room_count_ok
                         ltac:(simpl; tauto)) as [v E];
             rewrite E; cbn [bind]
         | |- exists o, bind (call_if_col ?a ?b ?c clean_currency) _ = _ =>
             let v := fresh "v" in
             let E := fresh "E" in
             destruct (Hcall _ c clean_currency clean_currency_ok
                         ltac:(simpl; tauto)) as [v E];
             rewrite E; cbn [bind]
         | |- exists o, match ?x with Some _ => _ | None => _ end = _ =>
             destruct x; [|now exists None]
         end.
  eexists. reflexivity.
Qed.

Lemma process_rows_ok (pd : series_repr) (cfg : config) (sheet_name : pystr)
      (columns : list cell) (cols : colmap) (rows : list (list cell)) :
  (forall c, In (Some c) (tested_cols cols) -> (occurrences c columns <= 1)%nat) ->
  Forall (Forall short_text) rows ->
  forall i, exists results,
    process_rows pd cfg sheet_name columns cols i rows = Ok results.
Proof.
  intros H Hshort. induction Hshort as [|row rest Hrow _ IH]; intros i; simpl;
    [now exists []|].
  destruct (process_row_ok pd cfg sheet_name columns cols i row H Hrow) as [o ->].
  destruct (IH (S i)) as [rs ->]. cbn [bind]. eexists. reflexivity.
Qed.

(** [process_sheet] returns a list of records, without raising, on every
    grid of cells with at most 4300 code points of text that has a header
    row in which each label resolved for rooms, area, the two prices and
    the complex names one column only. *)
Theorem process_sheet_succeeds (pd : series_repr) (cfg : config)
        (df : list (list cell)) (sheet_name : pystr) (columns : list cell) :
  nth_error df (find_header_row df None) = Some columns ->
  (forall c, In (Some c) (tested_cols (identify_columns columns)) ->
             (occurrences c columns <= 1)%nat) ->
  Forall (Forall short_text) df ->
  exists results, process_sheet pd cfg df sheet_name = Ok results.
Proof.
  intros Hh Hu Hshort. unfold process_sheet. rewrite Hh.
  apply process_rows_ok; [exact Hu|].
  rewrite <- (firstn_skipn (S (find_header_row df None)) df) in Hshort.
  now apply Forall_app in Hshort.
Qed.

Lemma process_rows_count (pd : series_repr) (cfg : config) (sheet_name : pystr)
      (columns : list cell) (cols : colmap) (rows : list (list cell)) :
  forall i results,
    process_rows pd cfg sheet_name columns cols i rows = Ok results ->
    (List.length results <= List.length rows)%nat.
Proof.
  induction rows as [|row rest IH]; intros i results H; simpl in H.
  - injection H as <-. auto.
  - destruct (process_row pd cfg sheet_name columns cols i row) as [o|]; [|discriminate].
    destruct (process_rows pd cfg sheet_name columns cols (S i) rest) as [rs|] eqn:E;
      [|discriminate].
    cbn [bind] in H. injection H as <-. specialize (IH _ _ E).
    destruct o; simpl; lia.
Qed.

(** The header row and the rows above it give no record: a sheet yields at
    most as many records as it has rows below its header. *)
Theorem process_sheet_count (pd : series_repr) (cfg : config)
        (df : list (list cell)) (sheet_name : pystr) (results : list record) :
  process_sheet pd cfg df sheet_name = Ok results ->
  (List.length results + S (find_header_row df None) <= List.length df)%nat.
Proof.
  unfold process_sheet. intros H.
  destruct (nth_error df (find_header_row df None)) as [columns|] eqn:E; [|discriminate].
  apply process_rows_count in H. rewrite length_skipn in H.
  assert (Hlt : (find_header_row df None < List.length df)%nat)
    by (apply nth_error_Some; congruence).
  lia.
Qed.

(** No record carries an excluded marker: for every record of a sheet and
    every configured marker, the upper-cased marker does not occur in the
    upper-cased ID.  With the empty string among the markers a sheet yields
    no record at all. *)
Theorem excluded_markers_absent (pd : series_repr) (cfg : config)
        (df : list (list cell)) (sheet_name : pystr) (results : list record) :
  process_sheet pd cfg df sheet_name = Ok results ->
  (forall r marker, In r results -> In marker (EXCLUDED_ID_MARKERS cfg) ->
                    ~ substring (upper marker) (upper (ID r)))
  /\ (In [] (EXCLUDED_ID_MARKERS cfg) -> results = []).
Proof.
  intros H.
  assert (Hex : forall r marker, In r results -> In marker (EXCLUDED_ID_MARKERS cfg) ->
                                 ~ substring (upper marker) (upper (ID r))).
  { intros r marker Hr Hm Hsub.
    destruct (process_sheet_from_row _ _ _ _ _ H) as [columns [_ Hrows]].
    destruct (Hrows r Hr) as [j [row [_ Hp]]].
    apply process_row_emits in Hp. destruct Hp as [cv Hp].
    destruct Hp as (_ & _ & _ & _ & _ & _ & _ & _ & _ & _ & Hno & _).
    apply contains_substring in Hsub.
    assert (Hyes : existsb (fun m => contains (upper m) (upper (ID r)))
                           (EXCLUDED_ID_MARKERS cfg) = true)
      by (apply existsb_exists; now exists marker).
    congruence. }
  split; [exact Hex|].
  intros Hempty. destruct results as [|r rs]; [reflexivity|]. exfalso.
  apply (Hex r [] (or_introl eq_refl) Hempty).
  exists [], (upper (ID r)). reflexivity.
Qed.

(** Every record has an ID without whitespace at its ends. *)
Theorem record_ids_trimmed (pd : series_repr) (cfg : config)
        (df : list (list cell)) (sheet_name : pystr) (results : list record) :
  process_sheet pd cfg df sheet_name = Ok results ->
  Forall (fun r => trimmed (ID r)) results.
Proof.
  intros H. apply Forall_forall. intros r Hr.
  destruct (process_sheet_from_row _ _ _ _ _ H) as [columns [_ Hrows]].
  destruct (Hrows r Hr) as [j [row [_ Hp]]].
  apply process_row_emits in Hp. destruct Hp as [cv Hp].
  destruct Hp as (_ & _ & _ & _ & _ & _ & _ & _ & _ & HID & _).
  rewrite HID. apply strip_trimmed.
Qed.

(** Without a complex column, on a sheet that no mixed-sheet keyword and no
    sheet rule applies to, every record has the sheet name as its group. *)
Theorem group_defaults_to_sheet_name (pd : series_repr) (cfg : config)
        (df : list (list cell)) (sheet_name : pystr) (columns : list cell)
        (results : list record) :
  nth_error df (find_header_row df None) = Some columns ->
  find_best_column columns complex_keywords None = None ->
  existsb (fun keyword => contains (lower keyword) (lower sheet_name))
          (MIXED_SHEET_KEYWORDS cfg) = false ->
  find (sheet_rule_applies sheet_name) (SHEET_TO_COMPLEX_RULES cfg) = None ->
  process_sheet pd cfg df sheet_name = Ok results ->
  Forall (fun r => GROUP r = sheet_name) results.
Proof.
  intros Hh Hc Hmixed Hsheet H. apply Forall_forall. intros r Hr.
  destruct (process_sheet_from_row _ _ _ _ _ H) as [columns' [Hh' Hrows]].
  assert (columns' = columns) as -> by congruence.
  destruct (Hrows r Hr) as [j [row [_ Hp]]].
  apply process_row_emits in Hp. destruct Hp as [cv Hp].
  destruct Hp as (_ & _ & _ & _ & _ & _ & _ & _ & Hcv & _ & _ & Hg).
  rewrite Hg. unfold complex_from_sheet, complex_from_id. rewrite Hsheet, Hmixed.
  change (complex_col (identify_columns columns))
    with (find_best_column columns complex_keywords None) in Hcv.
  rewrite Hc in Hcv. cbn [if_col] in Hcv. now injection Hcv as <-.
Qed.

(** A sheet whose header gives no rooms column, no area column, or neither
    price column yields no record. *)
Theorem missing_column_no_records (pd : series_repr) (cfg : config)
        (df : list (list cell)) (sheet_name : pystr) (columns : list cell)
        (results : list record) :
  nth_error df (find_header_row df None) = Some columns ->
  rooms_col (identify_columns columns) = None
  \/ area_col (identify_columns columns) = None
  \/ (price_m2_col (identify_columns columns) = None
      /\ total_price_col (identify_columns columns) = None) ->
  process_sheet pd cfg df sheet_name = Ok results ->
  results = [].
Proof.
  intros Hh Hmiss H. destruct results as [|r rs]; [reflexivity|]. exfalso.
  destruct (process_sheet_from_row _ _ _ _ _ H) as [columns' [Hh' Hrows]].
  assert (columns' = columns) as -> by congruence.
  destruct (Hrows r (or_introl eq_refl)) as [j [row [_ Hp]]].
  apply process_row_emits in Hp. destruct Hp as [cv Hp].
  destruct Hp as (_ & Hrooms & _ & Harea & _ & Hpm & Htp & Hprice & _).
  destruct Hmiss as [Hm | [Hm | [Hm1 Hm2]]].
  - rewrite Hm in Hrooms. discriminate.
  - rewrite Hm in Harea. discriminate.
  - rewrite Hm1 in Hpm. rewrite Hm2 in Htp. cbn [call_if_col] in Hpm, Htp.
    injection Hpm as Hpm. injection Htp as Htp.
    rewrite <- Hpm, <- Htp in Hprice. discriminate.
Qed.

(* ====================================================================== *)
(** ** Order of floats and the extreme rows *)
(* ====================================================================== *)

(** Comparison of two finite floats at any common scale. *)
Lemma fin_compare_scaled (n1 : bool) (m1 : N) (e1 : Z) (n2 : bool) (m2 : N) (e2 k : Z) :
  k <= e1 -> k <= e2 ->
  fin_compare n1 m1 e1 n2 m2 e2
  = (signed n1 m1 * 2 ^ (e1 - k) ?= signed n2 m2 * 2 ^ (e2 - k)).
Proof.
  intros H1 H2. unfold fin_compare.
  set (k0 := Z.min e1 e2).
  assert (Hk0 : k <= k0) by (unfold k0; lia).
  assert (Hk1 : k0 <= e1) by (unfold k0; lia).
  assert (Hk2 : k0 <= e2) by (unfold k0; lia).
  replace (e1 - k) with ((e1 - k0) + (k0 - k)) by lia.
  replace (e2 - k) with ((e2 - k0) + (k0 - k)) by lia.
  rewrite !Z.pow_add_r by lia. rewrite !Z.mul_assoc.
  apply Zmult_compare_compat_r.
  apply Z.lt_gt. apply Z.pow_pos_nonneg; lia.
Qed.

Lemma float_ltb_asym (a b : pyfloat) :
  float_ltb a b = true -> float_ltb b a = false.
Proof.
  destruct a as [|n1|n1 m1 e1], b as [|n2|n2 m2 e2]; simpl; try congruence.
  - destruct n1, n2; simpl; congruence.
  - destruct n1; simpl; congruence.
  - destruct n2; simpl; congruence.
  - unfold fin_compare. rewrite (Z.min_comm e2 e1).
    rewrite (Z.compare_antisym (signed n1 m1 * _)).
    destruct (signed n1 m1 * 2 ^ (e1 - Z.min e1 e2)
              ?= signed n2 m2 * 2 ^ (e2 - Z.min e1 e2)); simpl; congruence.
Qed.

(** Below a float that is less than another, or above the other: every
    float that is not NaN is one of the two. *)
Lemma float_ltb_cotrans (a b x : pyfloat) :
  float_ltb a b = true -> float_isnan x = false ->
  float_ltb a x = true \/ float_ltb x b = true.
Proof.
  destruct a as [|n1|n1 m1 e1], b as [|n2|n2 m2 e2], x as [|n3|n3 m3 e3];
    simpl; try congruence; intros H _;
    try (destruct n1, n2, n3; simpl in *; try congruence; tauto);
    try (destruct n1, n3; simpl in *; try congruence; tauto);
    try (destruct n2, n3; simpl in *; try congruence; tauto);
    try (destruct n1, n2; simpl in *; try congruence; tauto);
    try (destruct n1; simpl in *; try congruence; tauto);
    try (destruct n2; simpl in *; try congruence; tauto);
    try (destruct n3; simpl in *; try congruence; tauto).
  set (k := Z.min e1 (Z.min e2 e3)).
  rewrite (fin_compare_scaled n1 m1 e1 n2 m2 e2 k) in H by (unfold k; lia).
  rewrite (fin_compare_scaled n1 m1 e1 n3 m3 e3 k) by (unfold k; lia).
  rewrite (fin_compare_scaled n3 m3 e3 n2 m2 e2 k) by (unfold k; lia).
  set (va := signed n1 m1 * 2 ^ (e1 - k)) in *.
  set (vb := signed n2 m2 * 2 ^ (e2 - k)) in *.
  set (vx := signed n3 m3 * 2 ^ (e3 - k)) in *.
  clearbody va vb vx.
  destruct (va ?= vb) eqn:Eab; try discriminate.
  assert (Hab : va < vb) by exact Eab.
  destruct (Z.lt_ge_cases va vx) as [Hlt | Hge].
  - left. unfold Z.lt in Hlt. now rewrite Hlt.
  - right. assert (Hxb : vx < vb) by lia.
    unfold Z.lt in Hxb. now rewrite Hxb.
Qed.

(** What the fold of [first_extreme] keeps: the best row so far is the
    first among the rows seen that no counted row beats. *)
Lemma first_extreme_scan (before : pyfloat -> pyfloat -> bool)
      (value : record -> pyfloat) :
  (forall a b, before a b = true -> before b a = false) ->
  (forall a b x, before a b = true -> float_isnan x = false ->
                 before a x = true \/ before x b = true) ->
  forall todo seen1 b seen2,
    counted value b ->
    (forall x, In x seen1 -> counted value x -> before (value b) (value x) = true) ->
    (forall x, In x seen2 -> counted value x -> before (value x) (value b) = false) ->
    exists r l1 l2,
      fold_left
        (fun best r0 =>
           if float_isnan (value r0) then best
           else match best with
                | None => Some r0
                | Some b0 => if before (value r0) (value b0) then Some r0 else best
                end) todo (Some b) = Some r
      /\ seen1 ++ b :: seen2 ++ todo = l1 ++ r :: l2
      /\ counted value r
      /\ (forall x, In x l1 -> counted value x -> before (value r) (value x) = true)
      /\ (forall x, In x l2 -> counted value x -> before (value x) (value r) = false).
Proof.
  intros Hasym Hco. induction todo as [|t todo IH]; intros seen1 b seen2 Hb H1 H2.
  - exists b, seen1, seen2. rewrite app_nil_r. simpl. auto.
  - cbn [fold_left]. destruct (float_isnan (value t)) eqn:Et.
    + destruct (IH seen1 b (seen2 ++ [t]) Hb H1) as [r [l1 [l2 [Hf [Hs Hr]]]]].
      * intros x Hx Hc. apply in_app_or in Hx. destruct Hx as [Hx | [<- | []]]; [now apply H2|].
        unfold counted in Hc. congruence.
      * exists r, l1, l2. split; [exact Hf|]. split; [|exact Hr].
        rewrite <- Hs, <- app_assoc. reflexivity.
    + destruct (before (value t) (value b)) eqn:Ebt.
      * destruct (IH (seen1 ++ b :: seen2) t [] Et) as [r [l1 [l2 [Hf [Hs Hr]]]]].
        -- intros x Hx Hc. apply in_app_or in Hx.
           destruct Hx as [Hx | [<- | Hx]]; [| exact Ebt |].
           ++ destruct (Hco _ _ (value x) Ebt Hc) as [Hl | Hl]; [exact Hl|].
              rewrite (Hasym _ _ (H1 x Hx Hc)) in Hl. discriminate.
           ++ destruct (Hco _ _ (value x) Ebt Hc) as [Hl | Hl]; [exact Hl|].
              rewrite (H2 x Hx Hc) in Hl. discriminate.
        -- intros x [].
        -- exists r, l1, l2. split; [exact Hf|]. split; [|exact Hr].
           rewrite <- Hs, <- app_assoc. reflexivity.
      * destruct (IH seen1 b (seen2 ++ [t]) Hb H1) as [r [l1 [l2 [Hf [Hs Hr]]]]].
        -- intros x Hx Hc. apply in_app_or in Hx.
           destruct Hx as [Hx | [<- | []]]; [now apply H2 | exact Ebt].
        -- exists r, l1, l2. split; [exact Hf|]. split; [|exact Hr].
           rewrite <- Hs, <- app_assoc. reflexivity.
Qed.

Lemma first_extreme_spec (before : pyfloat -> pyfloat -> bool)
      (value : record -> pyfloat) (group : list record) :
  (forall a b, before a b = true -> before b a = false) ->
  (forall a b x, before a b = true -> float_isnan x = false ->
                 before a x = true \/ before x b = true) ->
  (forall r, first_extreme before value group = Some r ->
     exists l1 l2,
       group = l1 ++ r :: l2
       /\ counted value r
       /\ (forall x, In x l1 -> counted value x -> before (value r) (value x) = true)
       /\ (forall x, In x l2 -> counted value x -> before (value x) (value r) = false))
  /\ (first_extreme before value group = None
      <-> forall x, In x group -> float_isnan (value x) = true).
Proof.
  intros Hasym Hco. unfold first_extreme.
  induction group as [|g group IH].
  - split; [discriminate|]. split; [contradiction | reflexivity].
  - cbn [fold_left]. destruct (float_isnan (value g)) eqn:Eg.
    + destruct IH as [IHs IHn]. split.
      * intros r Hr. destruct (IHs r Hr) as [l1 [l2 [-> [Hc [H1 H2]]]]].
        exists (g :: l1), l2. split; [reflexivity|]. split; [exact Hc|].
        split; [|exact H2].
        intros x [<- | Hx] Hcx; [unfold counted in Hcx; congruence | now apply H1].
      * rewrite IHn. split.
        -- intros H x [<- | Hx]; [exact Eg | now apply H].
        -- intros H x Hx. apply H. now right.
    + destruct (first_extreme_scan before value Hasym Hco group [] g [] Eg)
        as [r [l1 [l2 [Hf [Hs Hr]]]]]; try (intros x []).
      split.
      * intros r' Hr'. rewrite Hf in Hr'. injection Hr' as <-.
        exists l1, l2. split; [exact Hs | exact Hr].
      * rewrite Hf. split; [discriminate|].
        intros H. rewrite (H g (or_introl eq_refl)) in Eg. discriminate.
Qed.

(** [idxmin] picks the first row that holds the least value: no row with a
    value is below it, and every row with a value before it is above it.
    It finds no row exactly when every value is NaN. *)
Theorem idxmin_first_minimum (value : record -> pyfloat) (group : list record) :
  (forall r, idxmin value group = Some r ->
     exists l1 l2,
       group = l1 ++ r :: l2
       /\ counted value r
       /\ (forall x, In x l1 -> counted value x ->
                     float_ltb (value r) (value x) = true)
       /\ (forall x, In x l2 -> counted value x ->
                     float_ltb (value x) (value r) = false))
  /\ (idxmin value group = None
      <-> forall x, In x group -> float_isnan (value x) = true).
Proof.
  apply first_extreme_spec; [exact float_ltb_asym | exact float_ltb_cotrans].
Qed.

(** [idxmax] picks the first row that holds the greatest value: no row with
    a value is above it, and every row with a value before it is below it.
    It finds no row exactly when every value is NaN. *)
Theorem idxmax_first_maximum (value : record -> pyfloat) (group : list record) :
  (forall r, idxmax value group = Some r ->
     exists l1 l2,
       group = l1 ++ r :: l2
       /\ counted value r
       /\ (forall x, In x l1 -> counted value x ->
                     float_ltb (value x) (value r) = true)
       /\ (forall x, In x l2 -> counted value x ->
                     float_ltb (value r) (value x) = false))
  /\ (idxmax value group = None
      <-> forall x, In x group -> float_isnan (value x) = true).
Proof.
  apply (first_extreme_spec (fun a b => float_ltb b a)).
  - intros a b. apply float_ltb_asym.
  - intros a b x H Hx. destruct (float_ltb_cotrans b a x H Hx); tauto.
Qed.

(* ====================================================================== *)
(** ** The summary for any records *)
(* ====================================================================== *)

Lemma str_eqb_sym (a b : pystr) : str_eqb a b = str_eqb b a.
Proof.
  destruct (str_eqb a b) eqn:E.
  - apply str_eqb_eq in E. subst. now rewrite str_eqb_refl.
  - destruct (str_eqb b a) eqn:E'; [|reflexivity].
    apply str_eqb_eq in E'. subst. now rewrite str_eqb_refl in E.
Qed.

Lemma row_leb_total (a b : Summary.row) : row_leb a b = false -> row_leb b a = true.
Proof.
  unfold row_leb. rewrite (str_eqb_sym (Summary.GROUP b)).
  destruct (str_eqb (Summary.GROUP a) (Summary.GROUP b)); apply str_leb_total.
Qed.

Lemma row_le_trans (a b c : Summary.row) : row_le a b -> row_le b c -> row_le a c.
Proof.
  unfold row_le, row_leb.
  destruct (str_eqb (Summary.GROUP a) (Summary.GROUP b)) eqn:E12.
  - apply str_eqb_eq in E12. rewrite E12.
    destruct (str_eqb (Summary.GROUP b) (Summary.GROUP c)); [apply str_leb_trans | auto].
  - destruct (str_eqb (Summary.GROUP b) (Summary.GROUP c)) eqn:E23.
    + apply str_eqb_eq in E23. rewrite <- E23, E12. auto.
    + intros H1 H2. destruct (str_eqb (Summary.GROUP a) (Summary.GROUP c)) eqn:E13.
      * apply str_eqb_eq in E13. rewrite <- E13 in H2.
        rewrite (str_leb_antisym _ _ H1 H2), str_eqb_refl in E12. discriminate.
      * now apply str_leb_trans with (Summary.GROUP b).
Qed.

Lemma insert_row_perm (r : Summary.row) (l : list Summary.row) :
  Permutation (r :: l) (insert_row r l).
Proof.
  induction l as [|h t IH]; simpl; [apply Permutation_refl|].
  destruct (row_leb r h); [apply Permutation_refl|].
  apply perm_trans with (h :: r :: t); [apply perm_swap | now apply perm_skip].
Qed.

Lemma sort_rows_perm (l : list Summary.row) : Permutation l (sort_rows l).
Proof.
  unfold sort_rows. induction l as [|r l IH]; simpl; [constructor|].
  apply perm_trans with (r :: fold_right insert_row [] l);
    [now apply perm_skip | apply insert_row_perm].
Qed.

Lemma insert_row_hd (h r : Summary.row) (t : list Summary.row) :
  HdRel row_le h t -> row_le h r -> HdRel row_le h (insert_row r t).
Proof.
  intros Ht Hr. destruct t as [|x t]; simpl; [now constructor|].
  destruct (row_leb r x); constructor; [assumption | now inversion Ht].
Qed.

Lemma insert_row_sorted (r : Summary.row) (l : list Summary.row) :
  Sorted row_le l -> Sorted row_le (insert_row r l).
Proof.
  induction l as [|h t IH]; intros Hs; simpl.
  - repeat constructor.
  - destruct (row_leb r h) eqn:E.
    + constructor; [assumption | now constructor].
    + inversion Hs as [|? ? Ht Hh]; subst. constructor; [now apply IH|].
      apply insert_row_hd; [assumption | now apply row_leb_total].
Qed.

Lemma sort_rows_sorted_any (l : list Summary.row) : StronglySorted row_le (sort_rows l).
Proof.
  apply Sorted_StronglySorted; [exact row_le_trans|].
  unfold sort_rows. induction l as [|r l IH]; simpl; [constructor|].
  now apply insert_row_sorted.
Qed.

Lemma carries_text_keys (results : list Summary.row) (ks : list (pystr * Z)) :
  Forall2 carries results ks -> map row_text_key results = map key_text ks.
Proof.
  induction 1 as [|row k results ks [Hg Hr] _ IH]; [reflexivity|].
  simpl. rewrite IH. unfold row_text_key, key_text. now rewrite Hg, Hr.
Qed.

(** For any records, the rows of the summary are in ascending order of
    group and then of the room count as text, and there is one row for each
    (group, rooms) key of the records with both prices. *)
Theorem generate_summary_sorted_by_text (data : list record) (rows : list Summary.row) :
  generate_summary data = Ok rows ->
  StronglySorted row_le rows
  /\ Permutation (map row_text_key rows)
                 (map key_text (group_keys (filter price_complete data)))
  /\ NoDup (group_keys (filter price_complete data)).
Proof.
  unfold generate_summary. intros H.
  split; [|split; [|apply strongly_sorted_nodup, group_keys_sorted]].
  - destruct (is_empty data); [injection H as <-; constructor|].
    destruct (summarize_all _ _) as [results|]; cbn [bind] in H; [|discriminate].
    unfold sort_values in H. destruct results as [|r0 rs]; [discriminate|].
    injection H as <-. apply (sort_rows_sorted_any (r0 :: rs)).
  - destruct data as [|d ds]; cbn [is_empty] in H; [injection H as <-; constructor|].
    destruct (summarize_all _ _) as [results|] eqn:E; cbn [bind] in H; [|discriminate].
    unfold sort_values in H. destruct results as [|r0 rs] eqn:Er; [discriminate|].
    rewrite <- Er in *. injection H as <-.
    rewrite <- (carries_text_keys _ _ (summarize_all_carries _ _ _ E)).
    apply Permutation_map, Permutation_sym, sort_rows_perm.
Qed.

Lemma key_error_iff (data : list record) :
  generate_summary data = Raises KeyError
  <-> data <> [] /\ forall r, In r data -> price_complete r = false.
Proof.
  unfold generate_summary. split.
  - destruct data as [|d ds]; cbn [is_empty]; [discriminate|].
    set (data := d :: ds). intros H. split; [discriminate|].
    destruct (summarize_all (filter price_complete data)
                (group_keys (filter price_complete data))) as [results|e] eqn:E;
      cbn [bind] in H.
    + unfold sort_values in H. destruct results as [|r0 rs]; [|discriminate].
      apply summarize_all_carries in E.
      intros r Hr. destruct (price_complete r) eqn:Epc; [|reflexivity].
      exfalso. assert (Hin : In (key_of r) (group_keys (filter price_complete data))).
      { apply group_keys_in. exists r. split; [|reflexivity]. apply filter_In. tauto. }
      destruct (group_keys (filter price_complete data)); [contradiction | inversion E].
    + exfalso. injection H as ->.
      clear -E. revert E. generalize (group_keys (filter price_complete data)).
      intros ks. induction ks as [|k ks IH]; simpl; [discriminate|].
      destruct (summarize k _) as [row|e] eqn:Es; cbn [bind].
      * destruct (summarize_all _ ks) as [rs|e] eqn:Ea; cbn [bind]; [discriminate|].
        intros H. injection H as ->. now apply IH.
      * intros H. injection H as ->. unfold summarize in Es.
        repeat match type of Es with
               | bind (loc ?x) _ = _ =>
                   destruct x; cbn [loc bind] in Es; [|discriminate]
               | bind (format_area ?x) _ = _ =>
                   let E := fresh "E" in
                   destruct (format_area x) eqn:E; cbn [bind] in Es;
                   [|injection Es as ->; apply format_area_raises in E; discriminate]
               end.
        discriminate.
  - intros [Hne Hall]. destruct data as [|d ds]; [contradiction|]. cbn [is_empty].
    assert (Hf : filter price_complete (d :: ds) = []).
    { clear Hne. induction (d :: ds) as [|x l IH]; [reflexivity|]. simpl.
      rewrite (Hall x (or_introl eq_refl)). apply IH.
      intros r Hr. apply Hall. now right. }
    rewrite Hf. reflexivity.
Qed.

(** [generate_summary] raises [KeyError] exactly when it is given records
    none of which has both prices. *)
Theorem generate_summary_key_error (data : list record) :
  generate_summary data = Raises KeyError
  <-> data <> [] /\ forall r, In r data -> price_complete r = false.
Proof. exact (key_error_iff data). Qed.


(* ====================================================================== *)
(** ** The whole run *)
(* ====================================================================== *)

Lemma collect_app (pd : series_repr) (cfg : config)
      (sheets : list (pystr * list (list cell))) (a b : list pystr) :
  collect pd cfg sheets (a ++ b) = collect pd cfg sheets a ++ collect pd cfg sheets b.
Proof.
  induction a as [|name a IH]; simpl; [reflexivity|].
  destruct (read_excel sheets name) as [df|]; [|exact IH].
  destruct (process_sheet pd cfg df name) as [data|e]; [|exact IH].
  now rewrite IH, app_assoc.
Qed.

(** Every record collected comes from a configured sheet of the workbook
    whose processing returned it. *)
Lemma collect_from_sheet (pd : series_repr) (cfg : config)
      (sheets : list (pystr * list (list cell))) (names : list pystr) (r : record) :
  In r (collect pd cfg sheets names) ->
  exists name df data,
    In name names /\ read_excel sheets name = Some df
    /\ process_sheet pd cfg df name = Ok data /\ In r data.
Proof.
  induction names as [|name names IH]; simpl; [contradiction|].
  assert (Hrest : In r (collect pd cfg sheets names) ->
                  exists name0 df data,
                    (name = name0 \/ In name0 names)
                    /\ read_excel sheets name0 = Some df
                    /\ process_sheet pd cfg df name0 = Ok data /\ In r data).
  { intros H. destruct (IH H) as [n [df [data [Hn Hr]]]].
    exists n, df, data. split; [now right | exact Hr]. }
  destruct (read_excel sheets name) as [df|] eqn:Er; [|exact Hrest].
  destruct (process_sheet pd cfg df name) as [data|e] eqn:Ep; [|exact Hrest].
  intros H. apply in_app_or in H. destruct H as [H | H]; [|now apply Hrest].
  exists name, df, data. split; [now left|]. auto.
Qed.

Lemma collect_record_ok (pd : series_repr) (cfg : config)
      (sheets : list (pystr * list (list cell))) (names : list pystr) (r : record) :
  In r (collect pd cfg sheets names) -> record_ok r.
Proof.
  intros H. destruct (collect_from_sheet _ _ _ _ _ H) as [name [df [data [_ [_ [Hp Hr]]]]]].
  destruct (process_sheet_from_row _ _ _ _ _ Hp) as [columns [_ Hrows]].
  destruct (Hrows r Hr) as [j [row [_ Hrow]]].
  now apply process_row_record_ok in Hrow.
Qed.


(** The summary of records with 1 to 3 rooms: its keys, read as numbers,
    are those of the records with both prices, in ascending order. *)
Lemma summary_of_rooms_123 (data : list record) (rows : list Summary.row) :
  Forall rooms_123 data ->
  data <> [] ->
  generate_summary data = Ok rows ->
  rows <> []
  /\ map row_key rows = group_keys (filter price_complete data).
Proof.
  intros Hrooms Hne H. unfold generate_summary in H.
  destruct data as [|d ds]; [contradiction|]. cbn [is_empty] in H.
  set (data := d :: ds) in *. set (df := filter price_complete data) in *.
  destruct (summarize_all df (group_keys df)) as [results|] eqn:Eall;
    cbn [bind] in H; try discriminate.
  unfold sort_values in H. destruct results as [|r0 results0] eqn:Eres; [discriminate|].
  rewrite <- Eres in *. injection H as <-.
  destruct (carried_rows_sorted results (group_keys df)
              (summarize_all_carries _ _ _ Eall)
              (StronglySorted_Sorted (group_keys_sorted df))
              (complete_keys_rooms data Hrooms)) as [Hrows Hkeys].
  rewrite (sort_rows_sorted _ Hrows). split; [rewrite Eres; discriminate | exact Hkeys].
Qed.

(** When [main] reaches the point of writing, the summary is not empty, it
    has exactly one row for every (group, rooms) key among the collected
    records with both prices, and its rows are in ascending order of group
    and then of room count as a number. *)
Theorem main_saves_sorted_summary (pd : series_repr) (cfg : config)
        (names : list pystr) (sheets : list (pystr * list (list cell)))
        (rows : list Summary.row) :
  main pd cfg names (Workbook sheets) = Ok (Save rows) ->
  rows <> []
  /\ StronglySorted key_lt (map row_key rows)
  /\ forall k, In k (map row_key rows)
               <-> exists r, In r (collect pd cfg sheets names)
                             /\ price_complete r = true /\ key_of r = k.
Proof.
  unfold main. destruct (is_empty names); [discriminate|].
  set (all_data := collect pd cfg sheets names).
  destruct (is_empty all_data) eqn:Ee; [discriminate|].
  destruct (generate_summary all_data) as [summary|] eqn:Eg; cbn [bind]; [|discriminate].
  destruct (is_empty summary); [discriminate|].
  intros H. injection H as <-.
  assert (Hrooms : Forall rooms_123 all_data).
  { apply Forall_forall. intros r Hr. now apply (collect_record_ok _ _ _ _ _ Hr). }
  assert (Hne : all_data <> []) by (intros E; rewrite E in Ee; discriminate).
  destruct (summary_of_rooms_123 all_data summary Hrooms Hne Eg) as [Hrows Hkeys].
  split; [exact Hrows|]. rewrite Hkeys. split; [apply group_keys_sorted|].
  intros k. rewrite group_keys_in. split.
  - intros [r [Hr Hk]]. apply filter_In in Hr. exists r. tauto.
  - intros [r [Hr [Hpc Hk]]]. exists r. split; [|exact Hk]. apply filter_In. tauto.
Qed.

(** A configured sheet that is not in the workbook, whose processing
    raises, or that yields no record does not change the run: [main] ends
    as it does without that sheet in the configuration. *)
Theorem main_skips_failing_sheet (pd : series_repr) (cfg : config)
        (sheets : list (pystr * list (list cell)))
        (before after : list pystr) (name : pystr) :
  read_excel sheets name = None
  \/ (exists df, read_excel sheets name = Some df
                 /\ (process_sheet pd cfg df name = Ok []
                     \/ exists e, process_sheet pd cfg df name = Raises e)) ->
  before ++ after <> [] ->
  main pd cfg (before ++ name :: after) (Workbook sheets)
  = main pd cfg (before ++ after) (Workbook sheets).
Proof.
  intros Hbad Hne.
  assert (Hnone : collect pd cfg sheets [name] = []).
  { simpl. destruct Hbad as [-> | [df [-> [-> | [e ->]]]]]; reflexivity. }
  unfold main.
  assert (He1 : is_empty (before ++ name :: after) = false)
    by (destruct before; reflexivity).
  assert (He2 : is_empty (before ++ after) = false)
    by (destruct (before ++ after); [contradiction | reflexivity]).
  rewrite He1, He2.
  change (name :: after) with ([name] ++ after).
  now rewrite !collect_app, Hnone.
Qed.




(* ====================================================================== *)
(** ** Instances *)
(* ====================================================================== *)

Lemma find_best_column_sound_witness :
  In (text "Статус") scenario_header
  /\ exists before g after,
       status_keywords = before ++ g :: after
       /\ any_keyword_in g (normalize_text (text "Статус")) = true
       /\ any_keyword_in (or_empty None) (normalize_text (text "Статус")) = false
       /\ forall g' x, In g' before -> In x scenario_header ->
                       column_matches g' (or_empty None) (normalize_text x, x) = false.
Proof.
  apply (find_best_column_sound scenario_header status_keywords None (text "Статус")).
  vm_compute. reflexivity.
Defined.

Lemma find_best_column_last_of_name_witness :
  exists l1 l2,
    [text "Статус"; text "СТАТУС"] = l1 ++ text "СТАТУС" :: l2
    /\ forall x, In x l2 -> normalize_text x <> normalize_text (text "СТАТУС").
Proof.
  apply (find_best_column_last_of_name [text "Статус"; text "СТАТУС"]
           status_keywords None (text "СТАТУС")).
  vm_compute. reflexivity.
Defined.

Lemma find_best_column_distinct_witness :
  find_best_column scenario_header id_keywords None
  = first_in_header_order scenario_header [] id_keywords.
Proof.
  apply (find_best_column_distinct scenario_header id_keywords None).
  vm_compute. repeat constructor; simpl; intuition discriminate.
Defined.

Lemma clean_currency_ignores_space_and_dollar_witness :
  clean_currency (Scalar (CStr (u "1" ++ 32%N :: u "234")))
  = clean_currency (Scalar (CStr (u "1" ++ u "234"))).
Proof.
  apply (clean_currency_ignores_space_and_dollar (u "1") (u "234") 32%N).
  left. reflexivity.
Defined.

Lemma extract_room_count_first_run_witness :
  extract_room_count (Scalar (CStr (u "кв " ++ u "2" ++ u " / 3")))
  = Ok (if existsb (Z.eqb (run_value (u "2"))) [1; 2; 3]
        then Some (run_value (u "2")) else None).
Proof.
  assert (Hpre : Forall (fun c => isdecimal c = false) (u "кв "))
    by (repeat (apply Forall_cons || apply Forall_nil); vm_compute; reflexivity).
  assert (Hne : u "2" <> []) by (vm_compute; discriminate).
  assert (Hds : Forall (fun c => isdecimal c = true) (u "2"))
    by (repeat (apply Forall_cons || apply Forall_nil); vm_compute; reflexivity).
  assert (Hpost : forall c t, u " / 3" = c :: t -> isdecimal c = false)
    by (intros c t H; vm_compute in H; injection H as <- _; vm_compute; reflexivity).
  apply (proj1 (extract_room_count_first_run (u "кв ") (u "2") (u " / 3")
                  Hpre Hne Hds Hpost)).
  apply Nat.leb_le. vm_compute. reflexivity.
Defined.

Lemma process_sheet_succeeds_witness :
  exists results, process_sheet no_series no_rules sample_grid (u "ComplexA") = Ok results.
Proof.
  apply (process_sheet_succeeds no_series no_rules sample_grid (u "ComplexA")
           sample_columns).
  - vm_compute. reflexivity.
  - intros c Hc. vm_compute in Hc.
    repeat (destruct Hc as [Hc | Hc];
            [first [discriminate Hc | injection Hc as <-; vm_compute; auto]|]).
    contradiction.
  - unfold sample_grid.
    repeat (apply Forall_cons || apply Forall_nil);
      unfold short_text; apply Nat.leb_le; vm_compute; reflexivity.
Defined.

Lemma process_sheet_count_witness :
  (List.length sample_records + S (find_header_row sample_grid None)
   <= List.length sample_grid)%nat.
Proof.
  apply (process_sheet_count no_series no_rules sample_grid (u "ComplexA")).
  vm_compute. reflexivity.
Defined.

Lemma excluded_markers_absent_witness :
  (forall r marker, In r [scenario_record "Other"] ->
                    In marker (EXCLUDED_ID_MARKERS scenario_rules) ->
                    ~ substring (upper marker) (upper (ID r)))
  /\ (In [] (EXCLUDED_ID_MARKERS scenario_rules) -> [scenario_record "Other"] = []).
Proof.
  apply (excluded_markers_absent no_series scenario_rules scenario_grid (u "ComplexA")).
  vm_compute. reflexivity.
Defined.

Lemma record_ids_trimmed_witness :
  Forall (fun r => trimmed (ID r)) sample_records.
Proof.
  apply (record_ids_trimmed no_series no_rules sample_grid (u "ComplexA")).
  vm_compute. reflexivity.
Defined.

Lemma group_defaults_to_sheet_name_witness :
  Forall (fun r => GROUP r = u "ComplexA") sample_records.
Proof.
  apply (group_defaults_to_sheet_name no_series no_rules sample_grid (u "ComplexA")
           sample_columns).
  - vm_compute. reflexivity.
  - vm_compute. reflexivity.
  - reflexivity.
  - reflexivity.
  - vm_compute. reflexivity.
Defined.

Lemma missing_column_no_records_witness :
  @nil record = [].
Proof.
  apply (missing_column_no_records no_series no_rules titled_grid (u "ComplexA")
           [text "ID"; text "Статус"; text "Поверх"]).
  - vm_compute. reflexivity.
  - left. vm_compute. reflexivity.
  - vm_compute. reflexivity.
Defined.

Lemma generate_summary_sorted_by_text_witness :
  exists rows,
    generate_summary ten_and_two = Ok rows
    /\ StronglySorted row_le rows
    /\ Permutation (map row_text_key rows)
                   (map key_text (group_keys (filter price_complete ten_and_two)))
    /\ NoDup (group_keys (filter price_complete ten_and_two)).
Proof.
  eexists. split; [lazy; reflexivity|].
  apply (generate_summary_sorted_by_text ten_and_two). lazy. reflexivity.
Defined.

Lemma main_saves_sorted_summary_witness :
  exists rows,
    main no_series no_rules sample_sheet_names (Workbook sample_workbook) = Ok (Save rows)
    /\ rows <> []
    /\ StronglySorted key_lt (map row_key rows)
    /\ forall k, In k (map row_key rows)
                 <-> exists r, In r (collect no_series no_rules sample_workbook
                                               sample_sheet_names)
                               /\ price_complete r = true /\ key_of r = k.
Proof.
  eexists. split; [lazy; reflexivity|].
  apply (main_saves_sorted_summary no_series no_rules sample_sheet_names sample_workbook).
  lazy. reflexivity.
Defined.

Lemma main_skips_failing_sheet_witness :
  main no_series no_rules ([u "Empty"] ++ u "TwoAreas" :: [u "ComplexA"])
       (Workbook sample_workbook)
  = main no_series no_rules ([u "Empty"] ++ [u "ComplexA"]) (Workbook sample_workbook).
Proof.
  apply (main_skips_failing_sheet no_series no_rules sample_workbook
           [u "Empty"] [u "ComplexA"] (u "TwoAreas")).
  - right. exists grid_two_areas. split; [vm_compute; reflexivity|].
    right. exists ValueError. vm_compute. reflexivity.
  - discriminate.
Defined.

(* ====================================================================== *)
(** ** Further properties *)
(* ====================================================================== *)

(** On a grid with rows, [find_header_row] returns the index of one of
    them. *)
Theorem find_header_row_valid (df : list (list cell)) (keywords : option (list pystr)) :
  df <> [] ->
  exists row, nth_error df (find_header_row df keywords) = Some row.
Proof.
  intros H. pose proof (find_header_row_in_bounds df keywords H) as Hb.
  destruct (nth_error df (find_header_row df keywords)) as [row|] eqn:E;
    [now exists row|].
  apply nth_error_None in E. lia.
Qed.

Lemma find_header_row_valid_witness :
  exists row, nth_error titled_grid (find_header_row titled_grid None) = Some row.
Proof.
  apply (find_header_row_valid titled_grid None). discriminate.
Defined.

(** Area written as the decimal text of an integer is coerced to that
    integer: [pd.to_numeric] reads back what [str] writes, for every
    integer of the 64-bit range. *)
Theorem to_numeric_reads_int_text (z : Z) :
  - 2 ^ 63 <= z <= 2 ^ 64 - 1 ->
  to_numeric (CStr (str_int z)) = to_numeric (CInt z).
Proof.
  intros Hz. destruct (digits_of_spec (Z.abs_N z)) as [Hne [Hds Hv]].
  cbn [to_numeric]. unfold parse_numeric, str_int.
  set (ds := digits_of (Z.abs_N z)) in *.
  assert (Hhead : exists d ds', ds = d :: ds' /\ isdigit d = true).
  { destruct ds as [|d ds']; [contradiction|]. inversion Hds; subst. now exists d, ds'. }
  destruct Hhead as [d [ds' [Eds Hd]]].
  assert (Hsign : take_sign (lstrip_ascii (if z <? 0 then 45%N :: ds else ds))
                  = (z <? 0, ds)).
  { destruct (z <? 0).
    - reflexivity.
    - rewrite lstrip_ascii_head.
      + rewrite Eds. apply digit_facts in Hd.
        destruct Hd as (_ & _ & H45 & H43 & _). apply N.eqb_neq in H45, H43.
        unfold take_sign. now rewrite H45, H43.
      + rewrite Eds. intros c t E. injection E as <- _. now apply digit_ascii. }
  rewrite Hsign. unfold parse_decimal. rewrite (scan_digits_all ds Hds).
  cbn [scan_fraction]. rewrite app_nil_r. rewrite Eds at 1.
  cbn [scan_exponent lstrip_ascii negb andb]. rewrite <- Eds, Hv.
  assert (Hval : signed (z <? 0) (Z.abs_N z) = z).
  { unfold signed. rewrite N2Z.inj_abs_N. destruct (z <? 0) eqn:E.
    - apply Z.ltb_lt in E. lia.
    - apply Z.ltb_ge in E. lia. }
  rewrite Hval.
  assert (Hlo : (- 2 ^ 63 <=? z) = true) by (apply Z.leb_le; lia).
  assert (Hhi : (z <=? 2 ^ 64 - 1) = true) by (apply Z.leb_le; lia).
  now rewrite Hlo, Hhi.
Qed.

Lemma to_numeric_reads_int_text_witness :
  to_numeric (CStr (str_int 45)) = to_numeric (CInt 45).
Proof.
  apply (to_numeric_reads_int_text 45). vm_compute. split; discriminate.
Defined.

(** On a mixed sheet that no sheet rule applies to, the first ID rule whose
    marker occurs in the ID (letter case ignored) names the group of the
    record, whatever the complex column holds. *)
Theorem id_rule_names_group (pd : series_repr) (cfg : config)
        (df : list (list cell)) (sheet_name : pystr) (results : list record)
        (r : record) (rule : id_rule) :
  process_sheet pd cfg df sheet_name = Ok results ->
  In r results ->
  existsb (fun keyword => contains (lower keyword) (lower sheet_name))
          (MIXED_SHEET_KEYWORDS cfg) = true ->
  find (sheet_rule_applies sheet_name) (SHEET_TO_COMPLEX_RULES cfg) = None ->
  find (fun rule => contains (upper (id_contains rule)) (upper (ID r)))
       (ID_TO_COMPLEX_RULES cfg) = Some rule ->
  GROUP r = id_complex_name rule.
Proof.
  intros H Hr Hmixed Hsheet Hrule.
  destruct (process_sheet_from_row _ _ _ _ _ H) as [columns [_ Hrows]].
  destruct (Hrows r Hr) as [j [row [_ Hp]]].
  apply process_row_emits in Hp. destruct Hp as [cv Hp].
  destruct Hp as (_ & _ & _ & _ & _ & _ & _ & _ & _ & _ & _ & Hg).
  rewrite Hg. unfold complex_from_sheet, complex_from_id.
  now rewrite Hsheet, Hmixed, Hrule.
Qed.

Lemma id_rule_names_group_witness :
  GROUP (scenario_record "ComplexA") = u "ComplexA".
Proof.
  apply (id_rule_names_group no_series scenario_rules scenario_grid (u "Mixed list")
           [scenario_record "ComplexA"] (scenario_record "ComplexA")
           {| id_contains := u "a-"; id_complex_name := u "ComplexA" |}).
  - vm_compute. reflexivity.
  - now left.
  - vm_compute. reflexivity.
  - vm_compute. reflexivity.
  - vm_compute. reflexivity.
Defined.

(* ====================================================================== *)
(** ** Two separators *)
(* ====================================================================== *)

Lemma count_app (x : N) (a b : pystr) : count x (a ++ b) = (count x a + count x b)%nat.
Proof. apply count_occ_app. Qed.

Lemma count_absent (x : N) (s : pystr) : ~ In x s -> count x s = 0%nat.
Proof. intros H. now apply count_occ_not_In. Qed.

Lemma count_all (x : N) (P : N -> bool) (s : pystr) :
  Forall (fun c => P c = true) s -> P x = false -> count x s = 0%nat.
Proof.
  intros H Hx. apply count_absent. intros Hin.
  rewrite Forall_forall in H. rewrite (H x Hin) in Hx. discriminate.
Qed.

(** The skip counter of [replace_go] drops that many code points. *)
Lemma replace_go_skip (old new : pystr) (s : pystr) :
  forall k, replace_go old new k s = replace old new (skipn k s).
Proof.
  induction s as [|c t IH]; intros k.
  - now destruct k.
  - destruct k as [|k]; [reflexivity|]. cbn [replace_go skipn]. apply IH.
Qed.

(** [replace] drops an occurrence at the head and goes on after it. *)
Lemma replace_at_head (old new b : pystr) :
  old <> [] -> replace old new (old ++ b) = new ++ replace old new b.
Proof.
  intros Hne. destruct old as [|o old']; [contradiction|].
  unfold replace at 1. cbn [app replace_go].
  assert (Hs : startswith (o :: old') (o :: old' ++ b) = true)
    by (apply startswith_app; now exists b).
  rewrite Hs, replace_go_skip. cbn [List.length Nat.pred].
  now rewrite skipn_app, skipn_all, Nat.sub_diag.
Qed.

Lemma count_replace_removed (old : pystr) (x : N) :
  old <> [] -> ~ In x old ->
  forall n s, (List.length s <= n)%nat -> count x (replace old [] s) = count x s.
Proof.
  intros Hne Hx. induction n as [|n IH]; intros s Hlen.
  - destruct s; [reflexivity | simpl in Hlen; lia].
  - destruct s as [|c t]; [reflexivity|].
    destruct (startswith old (c :: t)) eqn:Es.
    + apply startswith_app in Es. destruct Es as [b Eb]. rewrite Eb.
      rewrite (replace_at_head old [] b Hne). cbn [app].
      rewrite count_app, (count_absent x old Hx). cbn [Nat.add].
      apply IH. apply (f_equal (@List.length N)) in Eb.
      rewrite length_app in Eb. simpl in Eb, Hlen.
      destruct old; [contradiction | simpl in Eb; lia].
    + unfold replace. cbn [replace_go]. rewrite Es.
      change (replace_go old [] 0 t) with (replace old [] t).
      unfold count in *. cbn [count_occ].
      rewrite IH by (simpl in Hlen; lia). reflexivity.
Qed.

Lemma count_filter_kept (x : N) (p : N -> bool) (s : pystr) :
  p x = true -> count x (filter p s) = count x s.
Proof.
  intros Hp. unfold count. induction s as [|c t IH]; [reflexivity|]. simpl.
  destruct (p c) eqn:Ec; simpl; destruct (N.eq_dec c x) as [-> | Hn];
    try (now rewrite IH); congruence.
Qed.

Lemma count_comma_to_point (s : pystr) :
  count 46%N (comma_to_point s) = (count 44%N s + count 46%N s)%nat.
Proof.
  unfold count, comma_to_point. induction s as [|c t IH]; [reflexivity|].
  cbn [map count_occ]. rewrite IH.
  destruct (c =? 44)%N eqn:E.
  - apply N.eqb_eq in E. subst c.
    destruct (N.eq_dec 46 46); [|contradiction].
    destruct (N.eq_dec 44 44); [|contradiction].
    destruct (N.eq_dec 44 46); [discriminate|]. lia.
  - apply N.eqb_neq in E.
    destruct (N.eq_dec c 44); [contradiction|].
    destruct (N.eq_dec c 46); lia.
Qed.

(** The points of the text handed to [float] are the commas and points of
    the cell. *)
Lemma count_currency_text (s : pystr) :
  count 46%N (currency_text (CStr s)) = (count 44%N s + count 46%N s)%nat.
Proof.
  unfold currency_text. cbn [py_str].
  change (u " ") with [32%N]. change (u "$") with [36%N].
  change (u ",") with [44%N]. change (u ".") with [46%N].
  change (u "грн") with [1075; 1088; 1085]%N.
  rewrite (replace_char_filter 160), replace_comma_map, !replace_char_filter.
  rewrite count_filter_kept by reflexivity.
  rewrite count_comma_to_point.
  set (s1 := filter _ (filter _ s)).
  assert (H1 : forall x, x = 44%N \/ x = 46%N ->
                         count x (replace [1075; 1088; 1085]%N [] s1) = count x s).
  { intros x Hx.
    rewrite (count_replace_removed [1075; 1088; 1085]%N x ltac:(discriminate)
               ltac:(simpl; intros H; destruct Hx; subst; intuition discriminate)
               (List.length s1) s1 (le_n _)).
    unfold s1. rewrite !count_filter_kept; [reflexivity | |];
      destruct Hx; subst; reflexivity. }
  now rewrite !H1 by tauto.
Qed.

Lemma scan_digits_no_point (s : pystr) :
  forall us prev ds r, scan_digits us prev s = (ds, r) ->
  exists pre, s = pre ++ r /\ count 46%N pre = 0%nat.
Proof.
  induction s as [|c t IH]; intros us prev ds r H; cbn [scan_digits] in H.
  - injection H as <- <-. now exists [].
  - destruct (isdigit c) eqn:Hd.
    + destruct (scan_digits us true t) as [ds' r'] eqn:E.
      injection H as <- <-. destruct (IH _ _ _ _ E) as [pre [-> Hp]].
      exists (c :: pre). split; [reflexivity|].
      unfold count in *. cbn [count_occ].
      destruct (N.eq_dec c 46) as [-> |]; [discriminate Hd | exact Hp].
    + destruct (us && prev && (c =? 95)%N) eqn:Eu.
      * destruct t as [|d t'] eqn:Et; [injection H as <- <-; now exists []|].
        destruct (isdigit d); [|injection H as <- <-; now exists []].
        rewrite <- Et in *. destruct (IH _ _ _ _ H) as [pre [Hs Hp]].
        exists (c :: pre). split; [now rewrite Hs|].
        apply andb_true_iff in Eu. destruct Eu as [_ Eu]. apply N.eqb_eq in Eu. subst c.
        exact Hp.
      * injection H as <- <-. now exists [].
Qed.

Lemma take_sign_no_point (s : pystr) (neg : bool) (r : pystr) :
  take_sign s = (neg, r) -> exists pre, s = pre ++ r /\ count 46%N pre = 0%nat.
Proof.
  unfold take_sign. destruct s as [|c t].
  - intros H. injection H as <- <-. now exists [].
  - destruct (c =? 45)%N eqn:E1; [|destruct (c =? 43)%N eqn:E2];
      intros H; injection H as <- <-.
    + apply N.eqb_eq in E1. subst c. now exists [45%N].
    + apply N.eqb_eq in E2. subst c. now exists [43%N].
    + now exists [].
Qed.

Lemma parse_decimal_one_point (us : bool) (s : pystr) (m : N) (e : Z) (b : bool)
      (rest : pystr) :
  parse_decimal us s = Some (m, e, b, rest) ->
  exists pre, s = pre ++ rest /\ (count 46%N pre <= 1)%nat.
Proof.
  unfold parse_decimal.
  destruct (scan_digits us false s) as [ip r1] eqn:E1.
  destruct (scan_digits_no_point _ _ _ _ _ E1) as [p1 [-> Hp1]].
  destruct (scan_fraction us r1) as [[fp r2] dot] eqn:E2.
  assert (H2 : exists p2, r1 = p2 ++ r2 /\ (count 46%N p2 <= 1)%nat).
  { unfold scan_fraction in E2. destruct r1 as [|c t].
    - injection E2 as <- <- <-. exists []. split; [reflexivity | apply Nat.le_0_l].
    - destruct (c =? 46)%N eqn:Ec.
      + destruct (scan_digits us false t) as [fp' r'] eqn:Es.
        injection E2 as <- <- <-.
        destruct (scan_digits_no_point _ _ _ _ _ Es) as [p [-> Hp]].
        exists (c :: p). split; [reflexivity|].
        unfold count in *. cbn [count_occ]. destruct (N.eq_dec c 46); lia.
      + injection E2 as <- <- <-. exists []. split; [reflexivity | apply Nat.le_0_l]. }
  destruct H2 as [p2 [-> Hp2]].
  destruct (ip ++ fp) as [|d ds]; [discriminate|].
  destruct (scan_exponent us r2) as [[x r3]|] eqn:E3; [|discriminate].
  assert (H3 : exists p3, r2 = p3 ++ r3 /\ count 46%N p3 = 0%nat).
  { unfold scan_exponent in E3. destruct r2 as [|c t].
    - injection E3 as <- <-. now exists [].
    - destruct ((c =? 101) || (c =? 69))%N eqn:Ec.
      + destruct (take_sign t) as [eneg t'] eqn:Et.
        destruct (scan_digits us false t') as [ed r'] eqn:Es.
        destruct ed; [discriminate|]. injection E3 as <- <-.
        destruct (take_sign_no_point _ _ _ Et) as [q1 [-> Hq1]].
        destruct (scan_digits_no_point _ _ _ _ _ Es) as [q2 [-> Hq2]].
        exists (c :: q1 ++ q2). split; [simpl; now rewrite <- app_assoc|].
        change (c :: q1 ++ q2) with ([c] ++ q1 ++ q2).
        rewrite !count_app, Hq1, Hq2.
        unfold count. cbn [count_occ].
        destruct (N.eq_dec c 46) as [-> |]; [discriminate Ec | reflexivity].
      + injection E3 as <- <-. now exists []. }
  destruct H3 as [p3 [-> Hp3]].
  intros H. assert (rest = r3) as -> by (destruct x; now injection H).
  exists (p1 ++ p2 ++ p3). split; [now rewrite <- !app_assoc|].
  rewrite !count_app. lia.
Qed.

Lemma count_lstrip_ascii (s : pystr) :
  count 46%N (lstrip_ascii s) = count 46%N s.
Proof.
  unfold count. induction s as [|c t IH]; [reflexivity|]. cbn [lstrip_ascii].
  destruct (isspace_ascii c) eqn:E; [|reflexivity]. rewrite IH.
  cbn [count_occ]. destruct (N.eq_dec c 46) as [-> |]; [discriminate E | reflexivity].
Qed.

Lemma count_rev (x : N) (s : pystr) : count x (rev s) = count x s.
Proof.
  unfold count. induction s as [|c t IH]; [reflexivity|]. simpl.
  rewrite count_occ_app, IH. simpl. destruct (N.eq_dec c x); lia.
Qed.

(** Making the text ASCII and taking the whitespace off its ends keeps its
    points. *)
Lemma count_strip (s : pystr) :
  count 46%N (strip_ascii (to_ascii s)) = count 46%N s.
Proof.
  unfold strip_ascii.
  rewrite count_rev, count_lstrip_ascii, count_rev, count_lstrip_ascii.
  unfold count, to_ascii. induction s as [|c t IH]; [reflexivity|].
  cbn [map count_occ]. rewrite IH. unfold to_ascii_cp.
  destruct (c <? 128)%N eqn:E; [reflexivity|]. apply N.ltb_ge in E.
  destruct (N.eq_dec c 46) as [-> |]; [lia|].
  destruct (isspace c); [reflexivity|].
  destruct (decimal_value c) as [d|]; [|reflexivity].
  destruct (N.eq_dec (48 + d) 46); [lia | reflexivity].
Qed.

Lemma count_word (w r : pystr) :
  lower r = w -> ~ In 46%N w -> count 46%N r = 0%nat.
Proof.
  intros Hl Hw. apply count_absent. intros Hin. apply Hw. rewrite <- Hl.
  change 46%N with (lower_cp 46). now apply in_map.
Qed.

(** Text that [float] accepts has at most one point. *)
Lemma py_float_one_point (s : pystr) (f : pyfloat) :
  py_float s = Some f -> (count 46%N s <= 1)%nat.
Proof.
  unfold py_float. rewrite <- (count_strip s).
  destruct (take_sign (strip_ascii (to_ascii s))) as [neg r] eqn:Es.
  destruct (take_sign_no_point _ _ _ Es) as [pre [-> Hpre]].
  rewrite count_app, Hpre. cbn [Nat.add].
  destruct (str_eqb (lower r) word_inf) eqn:E1.
  { intros _. apply str_eqb_eq in E1. rewrite (count_word _ _ E1); [lia|].
    unfold word_inf. simpl. intuition discriminate. }
  destruct (str_eqb (lower r) word_infinity) eqn:E2.
  { intros _. apply str_eqb_eq in E2. rewrite (count_word _ _ E2); [lia|].
    unfold word_infinity. simpl. intuition discriminate. }
  destruct (str_eqb (lower r) word_nan) eqn:E3.
  { intros _. apply str_eqb_eq in E3. rewrite (count_word _ _ E3); [lia|].
    unfold word_nan. simpl. intuition discriminate. }
  cbn [orb].
  destruct (parse_decimal true r) as [[[[m e] b] rest]|] eqn:Ed; [|discriminate].
  destruct rest; [|discriminate]. intros _.
  destruct (parse_decimal_one_point _ _ _ _ _ _ Ed) as [p [-> Hp]].
  now rewrite app_nil_r.
Qed.

(** Text with two separators has no value: when commas and points together
    occur twice or more, as in "1,234.56", [clean_currency] returns
    [None]. *)
Theorem clean_currency_two_separators (s : pystr) :
  (2 <= count 44%N s + count 46%N s)%nat ->
  clean_currency (Scalar (CStr s)) = Ok None.
Proof.
  intros H.
  change (clean_currency (Scalar (CStr s)))
    with (Ok (A := option pyfloat) (py_float (currency_text (CStr s)))).
  destruct (py_float (currency_text (CStr s))) as [f|] eqn:E; [|reflexivity].
  apply py_float_one_point in E. rewrite count_currency_text in E. lia.
Qed.

Lemma clean_currency_two_separators_witness :
  clean_currency (Scalar (CStr (u "1,234.56"))) = Ok None.
Proof.
  apply (clean_currency_two_separators (u "1,234.56")). vm_compute. auto.
Defined.

(* ====================================================================== *)
(** ** Totality of the price cleaner *)
(* ====================================================================== *)

Lemma str_of_convertible (c : cell) : convertible c -> str_of c = Ok (py_str c).
Proof.
  destruct c as [| s | z | f]; try reflexivity. apply str_of_int_ok.
Qed.

Lemma filter_comma_to_point (p : N -> bool) (s : pystr) :
  p 44%N = p 46%N ->
  filter p (comma_to_point s) = comma_to_point (filter p s).
Proof.
  intros H. unfold comma_to_point. induction s as [|c t IH]; [reflexivity|].
  cbn [map filter]. destruct (c =? 44)%N eqn:E.
  - apply N.eqb_eq in E. subst c. rewrite <- H.
    destruct (p 44%N); cbn [map]; now rewrite IH.
  - destruct (p c); cbn [map]; rewrite IH; [now rewrite E | reflexivity].
Qed.

Lemma filter_twice (p q : N -> bool) (s : pystr) :
  filter q (filter p s) = filter (fun c => p c && q c) s.
Proof.
  induction s as [|c t IH]; [reflexivity|]. simpl.
  destruct (p c); simpl; [destruct (q c); now rewrite IH | exact IH].
Qed.

(** The five [replace] calls of [clean_currency] clean the text as the
    specification says. *)
Lemma currency_text_specified (c : cell) :
  currency_text c = cleaned_as_specified (py_str c).
Proof.
  unfold currency_text, cleaned_as_specified.
  change (u " ") with [32%N]. change (u "$") with [36%N].
  change (u ",") with [44%N]. change (u ".") with [46%N].
  rewrite (replace_char_filter 160), replace_comma_map, !replace_char_filter.
  rewrite filter_comma_to_point by reflexivity.
  rewrite filter_twice. f_equal.
  assert (H160 : forall l, filter (fun x => negb (160 =? x)%N) l
                           = filter (fun x => negb (x =? 160)%N) l)
    by (intros l; apply filter_ext; intros x; now rewrite N.eqb_sym).
  rewrite H160. do 2 f_equal. apply filter_ext. intros x.
  rewrite (N.eqb_sym 32 x), (N.eqb_sym 36 x). now destruct (x =? 32)%N, (x =? 36)%N.
Qed.

(** A run of [k] digits writes a number below [10^k]. *)
Lemma digits_value_lt (ds : pystr) :
  Forall (fun c => isdigit c = true) ds ->
  (digits_value ds < 10 ^ N.of_nat (List.length ds))%N.
Proof.
  induction ds as [|d ds IH] using rev_ind; intros H.
  - vm_compute. reflexivity.
  - apply Forall_app in H. destruct H as [Hds Hd]. specialize (IH Hds).
    inversion Hd as [|? ? Hd' _]; subst.
    unfold isdigit in Hd'. apply andb_true_iff in Hd'. destruct Hd' as [H1 H2].
    apply N.leb_le in H1, H2.
    rewrite digits_value_snoc, length_app, Nat.add_comm. cbn [List.length Nat.add].
    rewrite Nat2N.inj_succ, N.pow_succ_r'.
    set (v := digits_value ds) in *. set (p := (10 ^ N.of_nat (List.length ds))%N) in *.
    clearbody v p. lia.
Qed.

(** [str] refuses an integer of [10^4300] or more. *)
Lemma str_of_int_limit (z : Z) :
  10 ^ 4300 <= Z.abs z -> str_of_int z = Raises ValueError.
Proof.
  intros H. unfold str_of_int.
  destruct (digits_of_spec (Z.abs_N z)) as [_ [Hds Hv]].
  pose proof (digits_value_lt _ Hds) as Hlt. rewrite Hv in Hlt.
  destruct (max_str_digits <? List.length (digits_of (Z.abs_N z)))%nat eqn:E;
    [reflexivity|].
  exfalso. apply Nat.ltb_ge in E. unfold max_str_digits in E.
  assert (Hle : (10 ^ N.of_nat (List.length (digits_of (Z.abs_N z)))
                 <= 10 ^ N.of_nat 4300)%N).
  { apply N.pow_le_mono_r; [discriminate|]. lia. }
  assert (Hz : (Z.abs_N z < 10 ^ N.of_nat 4300)%N)
    by (eapply N.lt_le_trans; eassumption).
  apply N2Z.inj_lt in Hz. rewrite N2Z.inj_pow, N2Z.inj_abs_N in Hz.
  apply (Z.lt_irrefl (Z.abs z)). eapply Z.lt_le_trans; [exact Hz | exact H].
Qed.

(** C5, amended.  On a single cell that [str] converts (any text, float or
    missing value, and any integer of at most 4300 digits) [clean_currency]
    never raises: a missing value gives [None]; any other value is
    stringified, cleaned of spaces, dollar signs, "грн" and non-breaking
    spaces, its commas turned into points, and parsed as a float, [None]
    standing for a failed parse.  "1 234,56 грн" gives the float 1234.56,
    "abc" and [None] give [None]. *)
Theorem clean_currency_total (c : cell) :
  convertible c ->
  (exists r, clean_currency (Scalar c) = Ok r)
  /\ (isna c = true -> clean_currency (Scalar c) = Ok None)
  /\ (isna c = false ->
      clean_currency (Scalar c) = Ok (py_float (cleaned_as_specified (py_str c))))
  /\ clean_currency (Scalar (text "1 234,56 грн")) = Ok (Some float_1234_56)
  /\ py_float (u "1234.56") = Some float_1234_56
  /\ clean_currency (Scalar (text "abc")) = Ok None
  /\ clean_currency (Scalar CNone) = Ok None.
Proof.
  intros Hc.
  assert (Hna : isna c = true -> clean_currency (Scalar c) = Ok None).
  { intros H. unfold clean_currency, unless_na. now rewrite H. }
  assert (Hval : isna c = false ->
                 clean_currency (Scalar c)
                 = Ok (py_float (cleaned_as_specified (py_str c)))).
  { intros H. unfold clean_currency, unless_na.
    rewrite H, (str_of_convertible c Hc). cbn [bind].
    now rewrite <- currency_text_specified. }
  split; [|split; [exact Hna|split; [exact Hval|]]].
  - destruct (isna c) eqn:E; eexists; [now apply Hna | now apply Hval].
  - repeat split; vm_compute; reflexivity.
Qed.

Lemma clean_currency_total_witness :
  convertible (CInt 1750035)
  /\ clean_currency (Scalar (CInt 1750035)) = Ok (Some (fl "1750035")).
Proof.
  assert (H : convertible (CInt 1750035)) by (vm_compute; reflexivity).
  split; [exact H|].
  destruct (clean_currency_total (CInt 1750035) H) as (_ & _ & Hval & _).
  rewrite (Hval eq_refl). vm_compute. reflexivity.
Defined.

(** C5 as stated fails: [clean_currency] raises on what [row.get] returns
    for a label that two columns carry, which loses the sheet, and on an
    integer of more than 4300 digits. *)
Lemma clean_currency_raises_counterexample :
  row_get [text "Ціна"; text "Ціна"] [CInt 100; CInt 200] (text "Ціна") CNone
  = Series (CInt 100) (CInt 200) []
  /\ clean_currency (Series (CInt 100) (CInt 200) []) = Raises ValueError
  /\ process_sheet no_series no_rules grid_two_prices (u "ComplexA")
     = Raises ValueError
  /\ clean_currency (Scalar (CInt (10 ^ 4300))) = Raises ValueError.
Proof.
  split; [vm_compute; reflexivity|]. split; [reflexivity|].
  split; [vm_compute; reflexivity|].
  unfold clean_currency, unless_na. cbn [isna str_of].
  rewrite str_of_int_limit; [reflexivity|].
  rewrite Z.abs_eq; [apply Z.le_refl | apply Z.pow_nonneg; discriminate].
Qed.
